(** * pytorch_balanced_sampler/sampler.py: a shallow embedding

    The module builds batch-sampling schedules for class-imbalanced data.
    This development embeds [SamplerFactory], [WeightedFixedBatchSampler],
    [WeightedRandomBatchSampler], the sampler construction of
    [BalancedDataLoader] and [CircularList].

    Conventions of the embedding:
    - Python integers are [Z]; numpy integer arrays are [list Z] (the 64-bit
      wrap-around of numpy is not modelled, all quantities are batch and
      dataset sizes);
    - Python floats and numpy float arrays are exact rationals [Q]: the
      embedding idealises binary64 arithmetic, and [np.round] is rounding
      half to even as numpy documents it; where a result depends on how a
      binary64 product is rounded, as the quotas of [_fix_batches] do, the
      rounding is a parameter ([_fix_batches_with]);
    - a Python [set] is a [gset]; the order in which Python iterates it is
      a parameter ([iter_set]);
    - a Python exception is a value of [PyErr] carried by [result];
    - the lists of indices that the caller passes in are mutable Python
      objects: they live in a [Heap] and are passed around by location, so
      that aliasing between the caller and the sampler is visible. *)

From stdpp Require Import gmap list strings sorting.
From Stdlib Require Import ZArith QArith Qround Lia Lqa Permutation.

Local Open Scope Z_scope.

(** ** Exceptions *)

Inductive PyErr :=
  | ZeroDivisionError
  | AssertionError
  | AttributeError
  | ValueError
  | IndexError
  | OverflowError
  | Exception (msg : string).

Inductive result (A : Type) :=
  | Ok (a : A)
  | Raise (e : PyErr).
Arguments Ok {A} a.
Arguments Raise {A} e.

#[global] Instance result_ret : MRet result := @Ok.
#[global] Instance result_bind : MBind result :=
  λ A B (k : A → result B) (r : result A),
    match r with
    | Ok a => k a
    | Raise e => Raise e
    end.

Definition assert (b : bool) : result unit :=
  if b then Ok tt else Raise AssertionError.

(** ** Python and numpy primitives *)

Module Py.

(** [len(l)] as a Python integer. *)
Definition len {A} (l : list A) : Z := Z.of_nat (length l).

(** [range(start, stop)]: empty when [stop <= start]. *)
Definition range (start stop : Z) : list Z :=
  (λ k : nat, start + Z.of_nat k) <$> seq 0 (Z.to_nat (stop - start)).

(** Normalisation of one bound of a slice [l[start:stop]] on a sequence of
    length [n]: a negative bound counts from the end, and the result is
    clamped to [0, n]. *)
Definition clamp (n i : Z) : Z :=
  if i <? 0 then Z.max (i + n) 0 else Z.min i n.

(** [l[start:stop]] on a built-in list or a numpy array: never raises. *)
Definition slice {A} (l : list A) (start stop : Z) : list A :=
  let lo := clamp (len l) start in
  let hi := clamp (len l) stop in
  take (Z.to_nat (hi - lo)) (drop (Z.to_nat lo) l).

(** [l[i]] on a built-in list or a numpy array. *)
Definition index {A} (l : list A) (i : Z) : result A :=
  let n := len l in
  let j := if i <? 0 then i + n else i in
  if (0 <=? j) && (j <? n) then
    match l !! Z.to_nat j with
    | Some x => Ok x
    | None => Raise IndexError
    end
  else Raise IndexError.

(** [a % b] on integers: the result has the sign of [b]. *)
Definition mod_ (a b : Z) : result Z :=
  if b =? 0 then Raise ZeroDivisionError else Ok (a mod b).

(** [sum] of an integer array. *)
Definition sum (l : list Z) : Z := foldr Z.add 0 l.

End Py.

Module Np.

(** [np.round] on a float: round half to even. *)
Definition round (x : Q) : Z :=
  let f := Qfloor x in
  match Qcompare (x - inject_Z f) (1 # 2) with
  | Lt => f
  | Gt => f + 1
  | Eq => if Z.even f then f else f + 1
  end.

(** [np.ceil] followed by [int]. *)
Definition ceil (x : Q) : Z := Qceiling x.

(** The scan of [np.argmax]: the current best is replaced only by a
    strictly larger entry, so the first occurrence of the maximum wins. *)
Fixpoint argmax_from (best_i : nat) (best : Z) (i : nat) (l : list Z) : nat :=
  match l with
  | [] => best_i
  | x :: r =>
      if best <? x then argmax_from i x (S i) r
      else argmax_from best_i best (S i) r
  end.

(** [np.argmax] raises [ValueError] on an empty array. *)
Definition argmax (l : list Z) : result nat :=
  match l with
  | [] => Raise ValueError
  | x :: r => Ok (argmax_from 0 x 1 r)
  end.

(** Sum of a float array. *)
Definition qsum (l : list Q) : Q := foldr Qplus 0%Q l.

End Np.

(** ** The heap of index lists and the random source *)

(** A location names one mutable Python list of sample indices. *)
Abbreviation loc := nat (only parsing).
Abbreviation Heap := (gmap nat (list Z)) (only parsing).

(** [np.random.RandomState]: the bit generator is abstracted to the stream of
    its successive draws, and the object remembers how many it has used. A
    seed is represented by the stream it determines. *)
Record RandomState := {
  rs_draws : nat → nat;
  rs_pos : nat;
}.

Module Rng.

(** [np.random.RandomState(seed)]. *)
Definition make (seed : nat → nat) : RandomState :=
  {| rs_draws := seed; rs_pos := 0 |}.

(** One draw in the closed interval [0, max]. *)
Definition random_interval (rs : RandomState) (max : nat)
  : nat * RandomState :=
  (rs_draws rs (rs_pos rs) `mod` S max,
   {| rs_draws := rs_draws rs; rs_pos := S (rs_pos rs) |})%nat.

(** [x[i], x[j] = x[j], x[i]]. *)
Definition swap {A} (x : list A) (i j : nat) : list A :=
  match x !! i, x !! j with
  | Some a, Some b => <[j:=a]> (<[i:=b]> x)
  | _, _ => x
  end.

(** The loop of [RandomState.shuffle] on a sequence,
    [for i in reversed(range(1, n))]: position [i] is exchanged with a
    position drawn in [0, i]. *)
Fixpoint shuffle_from {A} (i : nat) (rs : RandomState) (x : list A)
  : list A * RandomState :=
  match i with
  | O => (x, rs)
  | S i' =>
      let '(j, rs) := random_interval rs i in
      shuffle_from i' rs (swap x i j)
  end.

(** [random_state.shuffle(x)]: the new content of [x] and the advanced
    generator. *)
Definition shuffle {A} (rs : RandomState) (x : list A)
  : list A * RandomState :=
  shuffle_from (length x - 1) rs x.

End Rng.

Arguments Rng.shuffle {A} rs x : simpl never.

(** ** CircularList *)

Module CircularList.

(** The object keeps a reference to the list it was given, not a copy, and
    the length that list had at construction. *)
Record t := {
  _items : loc;
  _mod : Z;
}.

Definition __init__ (h : Heap) (items : loc) : t :=
  {| _items := items; _mod := Py.len (h !!! items) |}.

(** [shuffle(random_state)] permutes the referenced list in place. *)
Definition shuffle (self : t) (rs : RandomState) (h : Heap)
  : Heap * RandomState :=
  let '(items', rs') := Rng.shuffle rs (h !!! _items self) in
  (<[_items self := items']> h, rs').

(** [self[key]], the branch of [__getitem__] for an integer key. *)
Definition __getitem__ (self : t) (h : Heap) (key : Z) : result Z :=
  k ← Py.mod_ key (_mod self);
  Py.index (h !!! _items self) k.

(** [self[start:stop]], the branch of [__getitem__] for a slice key:
    [[self[i] for i in range(key.start, key.stop)]]. *)
Definition __getitem__slice (self : t) (h : Heap) (start stop : Z)
  : result (list Z) :=
  mapM (__getitem__ self h) (Py.range start stop).

End CircularList.

(** ** WeightedFixedBatchSampler *)

(** An entry of [self.class_idxs]: the caller's list itself, or a
    [CircularList] around it. *)
Inductive ClassIdx :=
  | PlainList (items : loc)
  | Circular (cl : CircularList.t).

Module ClassIdx.

(** [cidx[start:stop]]. *)
Definition getitem_slice (cidx : ClassIdx) (h : Heap) (start stop : Z)
  : result (list Z) :=
  match cidx with
  | PlainList items => Ok (Py.slice (h !!! items) start stop)
  | Circular cl => CircularList.__getitem__slice cl h start stop
  end.

(** [cidx.shuffle(random_state)]: a built-in list or a numpy array has no
    such method. *)
Definition shuffle (cidx : ClassIdx) (rs : RandomState) (h : Heap)
  : result (Heap * RandomState) :=
  match cidx with
  | PlainList _ => Raise AttributeError
  | Circular cl => Ok (CircularList.shuffle cl rs h)
  end.

End ClassIdx.

(** What draining one generator gives: the batches yielded, in order, the
    exception that ended the pass if there was one, and the heap and the
    sampler object as the pass left them. *)
Record Pass (T : Type) := {
  yielded : list (list Z);
  raised : option PyErr;
  heap_after : Heap;
  self_after : T;
}.
Arguments yielded {T} _.
Arguments raised {T} _.
Arguments heap_after {T} _.
Arguments self_after {T} _.

Module WeightedFixedBatchSampler.

Record t := {
  class_samples_per_batch : list Z;
  class_idxs : list ClassIdx;
  n_batches : Z;
  n_classes : Z;
  batch_size : Z;
  random_state : option RandomState;
}.

Definition with_random_state (self : t) (rs : option RandomState) : t :=
  {| class_samples_per_batch := class_samples_per_batch self;
     class_idxs := class_idxs self;
     n_batches := n_batches self;
     n_classes := n_classes self;
     batch_size := batch_size self;
     random_state := rs |}.

(** [__init__(class_samples_per_batch, class_idxs, n_batches,
    circular_list=True, shuffle=False, random_state=None)]. With
    [circular_list] every caller's list is wrapped in a [CircularList] that
    refers to it; without, [self.class_idxs] is the caller's partition
    itself. The [isinstance(n_batches, int)] assertion holds by typing. *)
Definition __init__ (h : Heap) (class_samples_per_batch : list Z)
    (class_idxs : list loc) (n_batches : Z)
    (circular_list shuffle : bool) (seed : nat → nat) : result t :=
  let idxs :=
    if circular_list
    then (λ idx, Circular (CircularList.__init__ h idx)) <$> class_idxs
    else PlainList <$> class_idxs in
  let self :=
    {| class_samples_per_batch := class_samples_per_batch;
       class_idxs := idxs;
       n_batches := n_batches;
       n_classes := Py.len class_samples_per_batch;
       batch_size := Py.sum class_samples_per_batch;
       random_state := if shuffle then Some (Rng.make seed) else None |} in
  _ ← assert (Py.len class_samples_per_batch =? Py.len idxs);
  Ok self.

(** The [for c, size in enumerate(...)] loop of [_get_batch]. *)
Fixpoint select (self : t) (h : Heap) (start_idxs : list Z) (c : nat)
    (sizes : list Z) (selected : list Z) : result (list Z) :=
  match sizes with
  | [] => Ok selected
  | size :: sizes =>
      match class_idxs self !! c, start_idxs !! c with
      | Some cidx, Some start =>
          chunk ← ClassIdx.getitem_slice cidx h start (start + size);
          select self h start_idxs (S c) sizes (selected ++ chunk)
      | _, _ => Raise IndexError
      end
  end.

(** [_get_batch(start_idxs)]: the batch, and the sampler with its
    generator advanced when the batch is shuffled. *)
Definition _get_batch (self : t) (h : Heap) (start_idxs : list Z)
  : result (list Z * t) :=
  selected ← select self h start_idxs 0 (class_samples_per_batch self) [];
  match random_state self with
  | Some rs =>
      let '(selected, rs) := Rng.shuffle rs selected in
      Ok (selected, with_random_state self (Some rs))
  | None => Ok (selected, self)
  end.

(** [for cidx in self.class_idxs: cidx.shuffle(self.random_state)]: the
    heap and generator reached, and the exception if one pool refused. *)
Fixpoint shuffle_pools (cs : list ClassIdx) (rs : RandomState) (h : Heap)
  : Heap * RandomState * option PyErr :=
  match cs with
  | [] => (h, rs, None)
  | cidx :: cs =>
      match ClassIdx.shuffle cidx rs h with
      | Ok (h, rs) => shuffle_pools cs rs h
      | Raise e => (h, rs, Some e)
      end
  end.

(** [for bidx in range(self.n_batches)] with [n] rounds left. *)
Fixpoint batches (self : t) (h : Heap) (start_idxs : list Z) (n : nat)
  : list (list Z) * option PyErr * t :=
  match n with
  | O => ([], None, self)
  | S n =>
      match _get_batch self h start_idxs with
      | Raise e => ([], Some e, self)
      | Ok (batch, self) =>
          let start_idxs :=
            zip_with Z.add start_idxs (class_samples_per_batch self) in
          let '(rest, e, self) := batches self h start_idxs n in
          (batch :: rest, e, self)
      end
  end.

(** [__iter__], drained by the consumer. *)
Definition __iter__ (self : t) (h : Heap) : Pass t :=
  let '(h, rs, e) :=
    match random_state self with
    | Some rs =>
        let '(h, rs, e) := shuffle_pools (class_idxs self) rs h in
        (h, Some rs, e)
    | None => (h, None, None)
    end in
  let self := with_random_state self rs in
  match e with
  | Some e =>
      {| yielded := []; raised := Some e; heap_after := h;
         self_after := self |}
  | None =>
      let start_idxs := replicate (Z.to_nat (n_classes self)) 0 in
      let '(bs, e, self) :=
        batches self h start_idxs (Z.to_nat (n_batches self)) in
      {| yielded := bs; raised := e; heap_after := h; self_after := self |}
  end.

Definition __len__ (self : t) : Z := n_batches self.

End WeightedFixedBatchSampler.

(** ** WeightedRandomBatchSampler *)

Module WeightedRandomBatchSampler.

(** [torch]'s [WeightedRandomSampler] is outside this module: it is
    represented by the stream of index lists (or failures) that its
    successive iterations give, and the count of those already used. *)
Record t := {
  sample_idxs : list Z;
  sample_weights : list Q;
  num_samples : Z;
  n_batches : Z;
  sampler : nat → result (list Z);
  sampler_calls : nat;
}.

(** [for c, weight in enumerate(class_weights):
      sample_weights.extend([weight] * len(class_idxs[c]))]. *)
Fixpoint extend_weights (h : Heap) (class_idxs : list loc) (c : nat)
    (class_weights : list Q) (sample_weights : list Q) : result (list Q) :=
  match class_weights with
  | [] => Ok sample_weights
  | weight :: class_weights =>
      match class_idxs !! c with
      | Some idxs =>
          extend_weights h class_idxs (S c) class_weights
            (sample_weights ++ replicate (length (h !!! idxs)) weight)
      | None => Raise IndexError
      end
  end.

(** [__init__(class_weights, class_idxs, batch_size, n_batches)]: the
    indices are copied into a new list. [WeightedRandomSampler] refuses a
    number of samples that is not positive. *)
Definition __init__ (h : Heap) (class_weights : list Q)
    (class_idxs : list loc) (batch_size n_batches : Z)
    (torch_sampler : nat → result (list Z)) : result t :=
  let sample_idxs := concat ((λ idxs, h !!! idxs) <$> class_idxs) in
  sample_weights ← extend_weights h class_idxs 0 class_weights [];
  _ ← (if batch_size <=? 0 then Raise ValueError else Ok tt);
  Ok {| sample_idxs := sample_idxs;
        sample_weights := sample_weights;
        num_samples := batch_size;
        n_batches := n_batches;
        sampler := torch_sampler;
        sampler_calls := 0 |}.

Definition tick (self : t) : t :=
  {| sample_idxs := sample_idxs self;
     sample_weights := sample_weights self;
     num_samples := num_samples self;
     n_batches := n_batches self;
     sampler := sampler self;
     sampler_calls := S (sampler_calls self) |}.

(** [for bidx in range(self.n_batches)] with [n] rounds left. *)
Fixpoint batches (self : t) (n : nat) : list (list Z) * option PyErr * t :=
  match n with
  | O => ([], None, self)
  | S n =>
      let drawn := sampler self (sampler_calls self) in
      let self := tick self in
      match idxs ← drawn; mapM (Py.index (sample_idxs self)) idxs with
      | Raise e => ([], Some e, self)
      | Ok selected =>
          let '(rest, e, self) := batches self n in
          (selected :: rest, e, self)
      end
  end.

Definition __iter__ (self : t) (h : Heap) : Pass t :=
  let '(bs, e, self) := batches self (Z.to_nat (n_batches self)) in
  {| yielded := bs; raised := e; heap_after := h; self_after := self |}.

Definition __len__ (self : t) : Z := n_batches self.

End WeightedRandomBatchSampler.

(** ** SamplerFactory *)

Inductive Sampler :=
  | Fixed (s : WeightedFixedBatchSampler.t)
  | Random (s : WeightedRandomBatchSampler.t).

Module SamplerFactory.

(** [_balance_weights(weight_a, weight_b, alpha)]. *)
Definition _balance_weights (weight_a weight_b : list Q) (alpha : Q)
  : result (list Q) :=
  _ ← assert (Qle_bool 0 alpha && Qle_bool alpha 1);
  let beta := (1 - alpha)%Q in
  Ok (zip_with (λ a b, (alpha * a) + (beta * b))%Q weight_a weight_b).

(** [np.asarray([len(idxs) for idxs in class_idxs])]. *)
Definition class_lens (h : Heap) (class_idxs : list loc) : list Z :=
  (λ idxs, Py.len (h !!! idxs)) <$> class_idxs.

(** [_weight_classes(class_idxs, alpha)]. [1 / n_classes] is a division of
    Python integers and raises on zero. When every class is empty numpy
    computes [0 / 0] (nan, with a warning); the rational model has no such
    value, and the properties about weights are stated for classes that are
    not empty. *)
Definition _weight_classes (h : Heap) (class_idxs : list loc) (alpha : Q)
  : result (list Z * list Q) :=
  let class_sizes := class_lens h class_idxs in
  let n_samples := Py.sum class_sizes in
  let n_classes := Py.len class_idxs in
  let original_weights :=
    (λ size, inject_Z size / inject_Z n_samples)%Q <$> class_sizes in
  _ ← (if n_classes =? 0 then Raise ZeroDivisionError else Ok tt);
  let uniform_weights :=
    replicate (Z.to_nat n_classes) (1 / inject_Z n_classes)%Q in
  weights ← _balance_weights uniform_weights original_weights alpha;
  Ok (class_sizes, weights).

(** [_sample_rates(weights, class_sizes)]. *)
Definition _sample_rates (weights : list Q) (class_sizes : list Z) : list Q :=
  zip_with (λ w s, w / inject_Z s)%Q weights class_sizes.

(** The rounded products of [_fix_batches], before the clean-up:
    [np.round((weights * batch_size)).astype(int)]. The products are
    binary64 numbers, and what numpy rounds is the product as binary64 has
    it; [round_product w batch_size] stands for the integer that this gives
    for the weight [w]. *)
Definition raw_quota_with (round_product : Q → Z → Z) (weights : list Q)
    (batch_size : Z) : list Z :=
  (λ w, round_product w batch_size) <$> weights.

(** [_fix_batches(weights, class_sizes, batch_size, n_batches)] for any
    rounding of the products; the logging of proportions and oversample
    rates has no effect on the result and is left out. *)
Definition _fix_batches_with (round_product : Q → Z → Z) (weights : list Q)
    (class_sizes : list Z) (batch_size n_batches : Z) : result (list Z) :=
  let class_samples_per_batch :=
    raw_quota_with round_product weights batch_size in
  let remainder := batch_size - Py.sum class_samples_per_batch in
  largest_class ← Np.argmax class_samples_per_batch;
  let class_samples_per_batch :=
    alter (λ q, q + remainder) largest_class class_samples_per_batch in
  _ ← assert (Py.sum class_samples_per_batch =? batch_size);
  Ok class_samples_per_batch.

(** The rounded products in exact arithmetic: the product is taken in the
    rationals and rounded half to even. *)
Definition raw_quota (weights : list Q) (batch_size : Z) : list Z :=
  raw_quota_with (λ w b, Np.round (w * inject_Z b)) weights batch_size.

(** [_fix_batches] in exact arithmetic. *)
Definition _fix_batches (weights : list Q) (class_sizes : list Z)
    (batch_size n_batches : Z) : result (list Z) :=
  _fix_batches_with (λ w b, Np.round (w * inject_Z b)) weights class_sizes
    batch_size n_batches.

(** [fixed(class_idxs, batch_size, n_batches, alpha)]: the sampler is
    built with the default [circular_list=True, shuffle=False]. *)
Definition fixed (h : Heap) (class_idxs : list loc)
    (batch_size n_batches : Z) (alpha : Q)
  : result WeightedFixedBatchSampler.t :=
  '(class_sizes, weights) ← _weight_classes h class_idxs alpha;
  class_samples_per_batch ←
    _fix_batches weights class_sizes batch_size n_batches;
  WeightedFixedBatchSampler.__init__ h class_samples_per_batch class_idxs
    n_batches true false (λ _, O).

(** [random(class_idxs, batch_size, n_batches, alpha)]. *)
Definition random (h : Heap) (class_idxs : list loc)
    (batch_size n_batches : Z) (alpha : Q)
    (torch_sampler : nat → result (list Z))
  : result WeightedRandomBatchSampler.t :=
  '(class_sizes, weights) ← _weight_classes h class_idxs alpha;
  let sample_rates := _sample_rates weights class_sizes in
  WeightedRandomBatchSampler.__init__ h sample_rates class_idxs batch_size
    n_batches torch_sampler.

(** [get(class_idxs, batch_size, n_batches, alpha, kind)]. *)
Definition get (h : Heap) (class_idxs : list loc)
    (batch_size n_batches : Z) (alpha : Q) (kind : string)
    (torch_sampler : nat → result (list Z)) : result Sampler :=
  if String.eqb kind "random" then
    s ← random h class_idxs batch_size n_batches alpha torch_sampler;
    Ok (Random s)
  else if String.eqb kind "fixed" then
    s ← fixed h class_idxs batch_size n_batches alpha;
    Ok (Fixed s)
  else
    Raise (Exception
             ("Received kind " +:+ kind +:+ ", must be `random` or `fixed`")).

End SamplerFactory.

(** ** BalancedDataLoader: the sampler it builds *)

Module BalancedDataLoader.

(** [np.where(labels == l)[0]]: the positions of [l], ascending. *)
Definition where_eq (labels : list Z) (l : Z) : list Z :=
  omap (λ p : nat * Z, if decide (p.2 = l) then Some (Z.of_nat p.1) else None)
       (imap pair labels).

(** Storing a new list of indices at an unused location. *)
Definition alloc (h : Heap) (l : list Z) : Heap * loc :=
  let a := fresh (dom h) in (<[a := l]> h, a).

Fixpoint alloc_all (h : Heap) (ls : list (list Z)) : Heap * list loc :=
  match ls with
  | [] => (h, [])
  | l :: ls =>
      let '(h, a) := alloc h l in
      let '(h, locs) := alloc_all h ls in
      (h, a :: locs)
  end.

(** The part of [__init__] from the labels to the batch sampler handed to
    the data loader. [set(labels)] is a [gset]; the order in which Python
    iterates a set is that of its hash table, which the code does not fix:
    [iter_set] stands for it. The per-label index arrays are new objects.
    Dividing the number of labels by a zero sum gives an infinite float,
    which [int] refuses with [OverflowError]. *)
Definition __init__ (iter_set : gset Z → list Z) (h : Heap) (labels : list Z)
    (batch_size : Z) (circular_list shuffle : bool) (seed : nat → nat)
  : result (WeightedFixedBatchSampler.t * Heap) :=
  let labels_set : gset Z := list_to_set labels in
  let n_labels := Z.of_nat (size labels_set) in
  let '(h, labels_idxs) :=
    alloc_all h ((λ l, where_eq labels l) <$> iter_set labels_set) in
  _ ← (if n_labels =? 0 then Raise ZeroDivisionError else Ok tt);
  let class_samples_per_batch :=
    replicate (Z.to_nat n_labels)
      (Np.round (inject_Z batch_size / inject_Z n_labels)) in
  let total := Py.sum class_samples_per_batch in
  _ ← (if total =? 0 then Raise OverflowError else Ok tt);
  let n_batches := Np.ceil (inject_Z (Py.len labels) / inject_Z total) in
  sampler ← WeightedFixedBatchSampler.__init__ h class_samples_per_batch
              labels_idxs n_batches circular_list shuffle seed;
  Ok (sampler, h).

End BalancedDataLoader.

(** ** Notions used to state the properties *)

(** The state of a circular pool is consistent with a heap when the length
    recorded at construction is still the length of the list it refers to. *)
Definition circular_wf (h : Heap) (cl : CircularList.t) : Prop :=
  CircularList._mod cl = Py.len (h !!! CircularList._items cl).

(** Reading, for each class in class order, [sizes[c]] indices from
    [starts[c]]. *)
Definition read_classes (pools : list ClassIdx) (h : Heap)
    (starts sizes : list Z) : result (list (list Z)) :=
  mapM (λ p : ClassIdx * Z * Z,
          ClassIdx.getitem_slice p.1.1 h p.1.2 (p.1.2 + p.2))
       (zip (zip pools starts) sizes).

(** Batch number [b] as the specification describes it: class [c] is read
    from [b * quota[c]] and the reads are concatenated in class order. *)
Definition batch_of (pools : list ClassIdx) (h : Heap) (quota : list Z)
    (b : Z) : result (list Z) :=
  chunks ← read_classes pools h ((λ q, b * q) <$> quota) quota;
  Ok (concat chunks).

(** The values obtained before the first failure, and that failure. *)
Fixpoint until_error {A} (rs : list (result A)) : list A * option PyErr :=
  match rs with
  | [] => ([], None)
  | Ok a :: rs => let '(l, e) := until_error rs in (a :: l, e)
  | Raise e :: _ => ([], Some e)
  end.

(** The sampler and heap after [k] complete passes over a fixed sampler. *)
Fixpoint passes (k : nat) (s : WeightedFixedBatchSampler.t) (h : Heap)
  : WeightedFixedBatchSampler.t * Heap :=
  match k with
  | O => (s, h)
  | S k =>
      let p := WeightedFixedBatchSampler.__iter__ s h in
      passes k (self_after p) (heap_after p)
  end.

(** The operations a consumer performs on a sampler once it is built. *)
Inductive Op :=
  | Iterate
  | Len.

Definition run_op (st : Sampler * Heap) (op : Op) : Sampler * Heap :=
  match op, st.1 with
  | Iterate, Fixed s =>
      let p := WeightedFixedBatchSampler.__iter__ s st.2 in
      (Fixed (self_after p), heap_after p)
  | Iterate, Random s =>
      let p := WeightedRandomBatchSampler.__iter__ s st.2 in
      (Random (self_after p), heap_after p)
  | Len, _ => st
  end.

Definition run_ops (s : Sampler) (h : Heap) (ops : list Op) : Sampler * Heap :=
  foldl run_op (s, h) ops.

(** Every list of the second heap holds the elements of the same list of the
    first one, possibly in another order. *)
Definition heap_perm (h h' : Heap) : Prop :=
  ∀ l : loc, h' !!! l ≡ₚ h !!! l.

(** A class entry that is a consistent circular pool over a non-empty list. *)
Definition circular_ok (h : Heap) (cidx : ClassIdx) : Prop :=
  ∃ cl, cidx = Circular cl ∧ circular_wf h cl
        ∧ 0 < Py.len (h !!! CircularList._items cl).

(** Two states of one sampler object: everything but the generator agrees. *)
Definition same_config (s s' : WeightedFixedBatchSampler.t) : Prop :=
  WeightedFixedBatchSampler.class_samples_per_batch s'
  = WeightedFixedBatchSampler.class_samples_per_batch s
  ∧ WeightedFixedBatchSampler.class_idxs s'
    = WeightedFixedBatchSampler.class_idxs s
  ∧ WeightedFixedBatchSampler.n_batches s'
    = WeightedFixedBatchSampler.n_batches s
  ∧ WeightedFixedBatchSampler.n_classes s'
    = WeightedFixedBatchSampler.n_classes s
  ∧ WeightedFixedBatchSampler.batch_size s'
    = WeightedFixedBatchSampler.batch_size s.

(** The class invariant of a fixed sampler over circular pools whose quotas
    are counts. *)
Definition circular_inv (h : Heap) (s : WeightedFixedBatchSampler.t) : Prop :=
  length (WeightedFixedBatchSampler.class_idxs s)
  = length (WeightedFixedBatchSampler.class_samples_per_batch s)
  ∧ WeightedFixedBatchSampler.n_classes s
    = Py.len (WeightedFixedBatchSampler.class_samples_per_batch s)
  ∧ Forall (circular_ok h) (WeightedFixedBatchSampler.class_idxs s)
  ∧ Forall (λ q, 0 ≤ q) (WeightedFixedBatchSampler.class_samples_per_batch s).

(** The caller's list behind an entry of [self.class_idxs]. *)
Definition pool_of (cidx : ClassIdx) : loc :=
  match cidx with
  | PlainList items => items
  | Circular cl => CircularList._items cl
  end.

(** The pools of a sampler are consistent circular pools over lists that are
    not empty, one for each quota; the quotas may have any sign. *)
Definition circular_pools (h : Heap) (s : WeightedFixedBatchSampler.t) : Prop :=
  length (WeightedFixedBatchSampler.class_idxs s)
  = length (WeightedFixedBatchSampler.class_samples_per_batch s)
  ∧ WeightedFixedBatchSampler.n_classes s
    = Py.len (WeightedFixedBatchSampler.class_samples_per_batch s)
  ∧ Forall (circular_ok h) (WeightedFixedBatchSampler.class_idxs s).

(** The part of a batch taken from one class: [max(quota, 0)] indices, all
    of them in the class list as the heap [h0] has it. *)
Definition chunk_of (h0 : Heap) (chunk : list Z) (class : ClassIdx * Z) : Prop :=
  Py.len chunk = Z.max 0 class.2
  ∧ Forall (λ x, x ∈ h0 !!! pool_of class.1) chunk.

(** A batch made of one chunk per class, in class order or reordered. *)
Definition composed (h0 : Heap) (s : WeightedFixedBatchSampler.t)
    (batch : list Z) : Prop :=
  ∃ chunks : list (list Z),
    batch ≡ₚ concat chunks
    ∧ Forall2 (chunk_of h0) chunks
        (zip (WeightedFixedBatchSampler.class_idxs s)
             (WeightedFixedBatchSampler.class_samples_per_batch s)).

(** An iteration order for sets of labels: it lists the elements of every
    set, each of them once. *)
Definition set_iteration (iter_set : gset Z → list Z) : Prop :=
  ∀ X : gset Z, iter_set X ≡ₚ elements X.

(** How many indices of a batch point at a sample with label [l]. *)
Definition label_count (labels : list Z) (l : Z) (batch : list Z) : nat :=
  length (base.filter (λ i, labels !! Z.to_nat i = Some l) batch).

(** [len(sampler)] on either kind of sampler. *)
Definition sampler_len (s : Sampler) : Z :=
  match s with
  | Fixed f => WeightedFixedBatchSampler.__len__ f
  | Random r => WeightedRandomBatchSampler.__len__ r
  end.

(** ** Concrete inputs *)

(** One class list [[5, 7]] at location 0. *)
Definition pool57 : Heap := {[ 0%nat := [5; 7] ]}.

(** The partition [[[0], [1], [2], [3], [4]]]: five classes of one sample. *)
Definition five_singletons : Heap :=
  list_to_map
    [(0%nat, [0]); (1%nat, [1]); (2%nat, [2]); (3%nat, [3]); (4%nat, [4])].

(** The partition [[[0, 1, 2], [3, 4, 5, 6, 7, 8, 9]]]. *)
Definition three_and_seven : Heap :=
  list_to_map [(0%nat, [0; 1; 2]); (1%nat, [3; 4; 5; 6; 7; 8; 9])].

(** A generator whose draws are all 0. *)
Definition zero_seed : nat → nat := λ _, 0%nat.

(** Iterating a set of labels in ascending order, as Python does for a set
    of small integers such as [{0, 1}]. *)
Definition ascending : gset Z → list Z := λ X, merge_sort Z.le (elements X).

(** A partition whose only class has no sample. *)
Definition empty_class : Heap := {[ 0%nat := [] ]}.

(** A weighted sampler whose every iteration gives the positions 0 and 1. *)
Definition first_two : nat → result (list Z) := λ _, Ok [0; 1].

(** A random sampler over the indices [[5, 7]], two per batch, three
    batches. *)
Definition random57 : WeightedRandomBatchSampler.t :=
  {| WeightedRandomBatchSampler.sample_idxs := [5; 7];
     WeightedRandomBatchSampler.sample_weights := [1 # 2; 1 # 2]%Q;
     WeightedRandomBatchSampler.num_samples := 2;
     WeightedRandomBatchSampler.n_batches := 3;
     WeightedRandomBatchSampler.sampler := first_two;
     WeightedRandomBatchSampler.sampler_calls := 0 |}.

(** * Properties *)

(** ** The result monad *)

Lemma mapM_Ok {A B} (f : A → result B) (g : A → B) (l : list A) :
  (∀ x, x ∈ l → f x = Ok (g x)) → mapM f l = Ok (g <$> l).
Proof.
  induction l as [|x l IH]; intros Hf; [done|].
  cbn. rewrite (Hf x) by left. cbn.
  rewrite IH; [done|]. intros y Hy. apply Hf. by right.
Qed.

Lemma mapM_Ok_length {A B} (f : A → result B) (l : list A) (out : list B) :
  mapM f l = Ok out → length out = length l.
Proof.
  revert out. induction l as [|x l IH]; intros out; cbn.
  - by intros [= <-].
  - destruct (f x) as [y|]; cbn; [|done].
    destruct (mapM f l) as [k|]; cbn; [|done].
    intros [= <-]. cbn. by rewrite (IH k).
Qed.

(** ** Python primitives *)

Lemma range_length start stop :
  length (Py.range start stop) = Z.to_nat (stop - start).
Proof. unfold Py.range. by rewrite length_fmap, length_seq. Qed.

Lemma range_lookup start stop (k : nat) :
  (k < Z.to_nat (stop - start))%nat →
  Py.range start stop !! k = Some (start + Z.of_nat k).
Proof.
  intros Hk. unfold Py.range. rewrite list_lookup_fmap.
  by rewrite lookup_seq_lt.
Qed.

Lemma index_in_range {A} (l : list A) (i : Z) :
  0 ≤ i < Py.len l → ∃ x, Py.index l i = Ok x ∧ l !! Z.to_nat i = Some x.
Proof.
  intros Hi. unfold Py.index.
  destruct (Z.ltb_spec i 0); [lia|].
  destruct (Z.leb_spec 0 i); [|lia].
  destruct (Z.ltb_spec i (Py.len l)); [|lia]. cbn.
  destruct (l !! Z.to_nat i) as [x|] eqn:Hl; [eauto|].
  apply lookup_ge_None in Hl. unfold Py.len in *. lia.
Qed.

(** ** CircularList *)

Lemma circular_init_wf h items : circular_wf h (CircularList.__init__ h items).
Proof. done. Qed.

Lemma circular_getitem_ok h cl key :
  circular_wf h cl →
  0 < Py.len (h !!! CircularList._items cl) →
  ∃ x, CircularList.__getitem__ cl h key = Ok x
       ∧ (h !!! CircularList._items cl)
           !! Z.to_nat (key `mod` Py.len (h !!! CircularList._items cl))
         = Some x.
Proof.
  intros Hwf Hpos. unfold CircularList.__getitem__, Py.mod_. rewrite Hwf.
  destruct (Z.eqb_spec (Py.len (h !!! CircularList._items cl)) 0); [lia|].
  cbn. apply index_in_range. by apply Z.mod_pos_bound.
Qed.

(** The element a circular pool holds at an integer key. *)
Lemma circular_getitem_total h cl key :
  circular_wf h cl →
  0 < Py.len (h !!! CircularList._items cl) →
  CircularList.__getitem__ cl h key
  = Ok ((h !!! CircularList._items cl)
          !!! Z.to_nat (key `mod` Py.len (h !!! CircularList._items cl))).
Proof.
  intros Hwf Hpos.
  destruct (circular_getitem_ok h cl key Hwf Hpos) as (x & -> & Hx).
  by rewrite (list_lookup_total_correct _ _ _ Hx).
Qed.

Lemma circular_slice_ok h cl start stop :
  circular_wf h cl →
  0 < Py.len (h !!! CircularList._items cl) →
  CircularList.__getitem__slice cl h start stop
  = Ok ((λ i, (h !!! CircularList._items cl)
                !!! Z.to_nat (i `mod` Py.len (h !!! CircularList._items cl)))
          <$> Py.range start stop).
Proof.
  intros Hwf Hpos. unfold CircularList.__getitem__slice.
  apply mapM_Ok. intros i _. by apply circular_getitem_total.
Qed.

Lemma len_pos_nonempty {A} (l : list A) : l ≠ [] → 0 < Py.len l.
Proof. destruct l; [done|]. unfold Py.len. cbn. lia. Qed.

(** C10. For a circular pool over a non-empty sequence, indexing with any
    integer key, negative or beyond the length, succeeds and gives the item
    at position [key mod len(items)]; no exception is raised. *)
Theorem circular_getitem_any_key (h : Heap) (cl : CircularList.t) (key : Z) :
  circular_wf h cl →
  h !!! CircularList._items cl ≠ [] →
  ∃ x, CircularList.__getitem__ cl h key = Ok x
       ∧ (h !!! CircularList._items cl)
           !! Z.to_nat (key `mod` Py.len (h !!! CircularList._items cl))
         = Some x.
Proof.
  intros Hwf Hne. apply circular_getitem_ok; [done|].
  by apply len_pos_nonempty.
Qed.

(** C4. Reading [length] elements from [start] in a circular pool over a
    non-empty sequence gives a sequence of that length whose [k]-th element
    is [items[(start + k) mod len(items)]], for any integer [start] and any
    [length >= 0], also beyond the size of the pool. *)
Theorem circular_read_wraps (h : Heap) (cl : CircularList.t) (start len : Z) :
  circular_wf h cl →
  h !!! CircularList._items cl ≠ [] →
  0 ≤ len →
  ∃ out, CircularList.__getitem__slice cl h start (start + len) = Ok out
         ∧ Py.len out = len
         ∧ ∀ k, 0 ≤ k < len →
             is_Some (out !! Z.to_nat k)
             ∧ out !! Z.to_nat k
               = (h !!! CircularList._items cl)
                   !! Z.to_nat ((start + k)
                                `mod` Py.len (h !!! CircularList._items cl)).
Proof.
  intros Hwf Hne Hlen. pose proof (len_pos_nonempty _ Hne) as Hpos.
  eexists. split; [by apply circular_slice_ok|].
  split.
  - unfold Py.len at 1. rewrite length_fmap, range_length. lia.
  - intros k Hk. rewrite list_lookup_fmap.
    rewrite range_lookup by lia. cbn. rewrite Z2Nat.id by lia.
    destruct (circular_getitem_ok h cl (start + k) Hwf Hpos) as (x & _ & Hx).
    rewrite Hx, (list_lookup_total_correct _ _ _ Hx). eauto.
Qed.

(** ** The fixed-quota planner *)

Lemma argmax_from_spec (l : list Z) : ∀ (best_i : nat) (best : Z) (i : nat),
  (Np.argmax_from best_i best i l = best_i ∧ Forall (λ x, x ≤ best) l)
  ∨ (∃ (j : nat) (m : Z),
       Np.argmax_from best_i best i l = (i + j)%nat
       ∧ l !! j = Some m ∧ best < m
       ∧ Forall (λ x, x ≤ m) l
       ∧ ∀ (j' : nat) x, (j' < j)%nat → l !! j' = Some x → x < m).
Proof.
  induction l as [|x r IH]; intros best_i best i; cbn.
  - left. by split.
  - destruct (Z.ltb_spec best x) as [Hlt|Hge].
    + right. destruct (IH i x (S i)) as [[-> Hall]|(j & m & -> & Hj & Hm & Hall & Hfirst)].
      * exists O, x. rewrite Nat.add_0_r. repeat split; try done.
        -- constructor; [lia|done].
        -- intros j' y Hj'. lia.
      * exists (S j), m. repeat split; try done.
        -- lia.
        -- lia.
        -- constructor; [lia|done].
        -- intros [|j'] y Hj' Hy; cbn in Hy.
           ++ injection Hy as <-. lia.
           ++ apply (Hfirst j'); [lia|done].
    + destruct (IH best_i best (S i)) as [[-> Hall]|(j & m & -> & Hj & Hm & Hall & Hfirst)].
      * left. split; [done|]. by constructor.
      * right. exists (S j), m. repeat split; try done.
        -- lia.
        -- constructor; [lia|done].
        -- intros [|j'] y Hj' Hy; cbn in Hy.
           ++ injection Hy as <-. lia.
           ++ apply (Hfirst j'); [lia|done].
Qed.

(** [np.argmax] gives the first position of the largest entry. *)
Lemma argmax_spec (l : list Z) :
  l ≠ [] →
  ∃ (k : nat) (m : Z),
    Np.argmax l = Ok k ∧ l !! k = Some m
    ∧ (∀ (c : nat) x, l !! c = Some x → x ≤ m)
    ∧ (∀ (c : nat) x, (c < k)%nat → l !! c = Some x → x < m).
Proof.
  destruct l as [|x r]; [done|]. intros _. cbn.
  destruct (argmax_from_spec r 0%nat x 1%nat)
    as [[-> Hall]|(j & m & -> & Hj & Hm & Hall & Hfirst)].
  - exists O, x. repeat split; try done.
    + intros [|c] y Hy; cbn in Hy; [injection Hy as <-; lia|].
      rewrite Forall_lookup in Hall. by apply (Hall c).
    + intros c y Hc. lia.
  - exists (S j), m. repeat split; try done.
    + intros [|c] y Hy; cbn in Hy; [injection Hy as <-; lia|].
      rewrite Forall_lookup in Hall. by apply (Hall c).
    + intros [|c] y Hc Hy; cbn in Hy; [injection Hy as <-; lia|].
      apply (Hfirst c); [lia|done].
Qed.

Lemma sum_alter (f : Z → Z) (l : list Z) : ∀ (k : nat) (m : Z),
  l !! k = Some m → Py.sum (alter f k l) = Py.sum l - m + f m.
Proof.
  induction l as [|x r IH]; intros [|k] m Hk; try done.
  - injection Hk as ->. cbn. lia.
  - change (Py.sum (x :: alter f k r) = x + Py.sum r - m + f m).
    change (Py.sum (x :: alter f k r)) with (x + Py.sum (alter f k r)).
    rewrite (IH k m Hk). lia.
Qed.

Lemma fix_batches_with_nonempty (round_product : Q → Z → Z)
    (weights : list Q) (class_sizes : list Z) (batch_size n_batches : Z) :
  weights ≠ [] →
  let raw := SamplerFactory.raw_quota_with round_product weights batch_size in
  ∃ (quota : list Z) (k : nat) (m : Z),
    SamplerFactory._fix_batches_with round_product weights class_sizes
      batch_size n_batches
    = Ok quota
    ∧ Np.argmax raw = Ok k
    ∧ raw !! k = Some m
    ∧ (∀ (c : nat) x, raw !! c = Some x → x ≤ m)
    ∧ (∀ (c : nat) x, (c < k)%nat → raw !! c = Some x → x < m)
    ∧ quota = alter (λ q, q + (batch_size - Py.sum raw)) k raw
    ∧ Py.sum quota = batch_size.
Proof.
  intros Hne raw.
  assert (Hraw : raw ≠ []) by (subst raw; by destruct weights).
  destruct (argmax_spec raw Hraw) as (k & m & Hk & Hm & Hmax & Hfirst).
  assert (Hsum : Py.sum (alter (λ q, q + (batch_size - Py.sum raw)) k raw)
                 = batch_size) by (rewrite (sum_alter _ _ _ _ Hm); lia).
  exists (alter (λ q, q + (batch_size - Py.sum raw)) k raw), k, m.
  repeat split; try done.
  unfold SamplerFactory._fix_batches_with.
  fold raw. rewrite Hk. cbn. fold raw. rewrite Hsum, Z.eqb_refl. done.
Qed.

Lemma fix_batches_nonempty (weights : list Q) (class_sizes : list Z)
    (batch_size n_batches : Z) :
  weights ≠ [] →
  let raw := (λ w, Np.round (w * inject_Z batch_size)) <$> weights in
  ∃ (quota : list Z) (k : nat) (m : Z),
    SamplerFactory._fix_batches weights class_sizes batch_size n_batches
    = Ok quota
    ∧ Np.argmax raw = Ok k
    ∧ raw !! k = Some m
    ∧ (∀ (c : nat) x, raw !! c = Some x → x ≤ m)
    ∧ (∀ (c : nat) x, (c < k)%nat → raw !! c = Some x → x < m)
    ∧ quota = alter (λ q, q + (batch_size - Py.sum raw)) k raw
    ∧ Py.sum quota = batch_size.
Proof.
  exact (fix_batches_with_nonempty (λ w b, Np.round (w * inject_Z b))
           weights class_sizes batch_size n_batches).
Qed.

Lemma qsum_one_nonempty (weights : list Q) :
  (Np.qsum weights == 1)%Q → weights ≠ [].
Proof. intros H ->. cbn in H. discriminate H. Qed.


(** ** The weight calculator *)

Lemma sum_ge_len (l : list Z) : Forall (λ s, 1 ≤ s) l → Py.len l ≤ Py.sum l.
Proof.
  induction 1 as [|x l Hx _ IH]; [done|].
  change (Py.sum (x :: l)) with (x + Py.sum l).
  unfold Py.len in *. cbn [length]. lia.
Qed.

Lemma qsum_affine (a b n : Q) (l : list Z) :
  ¬ (n == 0)%Q →
  (Np.qsum ((λ s, a + b * (inject_Z s / n)) <$> l)
   == a * inject_Z (Py.len l) + b * (inject_Z (Py.sum l) / n))%Q.
Proof.
  intros Hn. induction l as [|x l IH].
  - change (0 == a * 0 + b * (0 / n))%Q. field. done.
  - change (Np.qsum ((λ s, a + b * (inject_Z s / n)) <$> x :: l))%Q
      with (a + b * (inject_Z x / n)
            + Np.qsum ((λ s, a + b * (inject_Z s / n)) <$> l))%Q.
    rewrite IH.
    replace (Py.len (x :: l)) with (1 + Py.len l)
      by (unfold Py.len; cbn [length]; lia).
    change (Py.sum (x :: l)) with (x + Py.sum l).
    rewrite !inject_Z_plus. field. done.
Qed.

Lemma class_lens_len (h : Heap) (class_idxs : list loc) :
  Py.len (SamplerFactory.class_lens h class_idxs) = Py.len class_idxs.
Proof. unfold Py.len, SamplerFactory.class_lens. by rewrite length_fmap. Qed.

Lemma weight_classes_ok (h : Heap) (class_idxs : list loc) (alpha : Q) :
  class_idxs ≠ [] → (0 <= alpha)%Q → (alpha <= 1)%Q →
  let class_sizes := SamplerFactory.class_lens h class_idxs in
  SamplerFactory._weight_classes h class_idxs alpha
  = Ok (class_sizes,
        (λ size, alpha * (1 / inject_Z (Py.len class_idxs))
                 + (1 - alpha)
                   * (inject_Z size / inject_Z (Py.sum class_sizes)))%Q
          <$> class_sizes).
Proof.
  intros Hne H0 H1 class_sizes. unfold SamplerFactory._weight_classes.
  fold class_sizes.
  destruct (Z.eqb_spec (Py.len class_idxs) 0) as [Hz|_].
  { destruct class_idxs; [done|]. unfold Py.len in Hz. cbn in Hz. lia. }
  cbn. unfold SamplerFactory._balance_weights.
  apply Qle_bool_iff in H0, H1. rewrite H0, H1. cbn.
  rewrite zip_with_fmap_r, zip_with_replicate_l; [done|].
  pose proof (class_lens_len h class_idxs) as Hlen. fold class_sizes in Hlen.
  unfold Py.len in *. lia.
Qed.

(** C2. For at least one class, every class of size at least 1 and
    [alpha] in [0, 1], the weights computed are
    [alpha * (1/C) + (1 - alpha) * (size[c]/N)] componentwise, they sum to 1
    and are non-negative; at [alpha = 0] they are the natural proportions
    [size[c]/N], at [alpha = 1] they are [1/C] for every class. *)
Theorem weight_classes_blend (h : Heap) (class_idxs : list loc) (alpha : Q) :
  let class_sizes := (λ idxs, Py.len (h !!! idxs)) <$> class_idxs in
  class_idxs ≠ [] →
  Forall (λ s, 1 ≤ s) class_sizes →
  (0 <= alpha)%Q →
  (alpha <= 1)%Q →
  let C := inject_Z (Py.len class_idxs) in
  let N := inject_Z (Py.sum class_sizes) in
  ∃ weights : list Q,
    SamplerFactory._weight_classes h class_idxs alpha
    = Ok (class_sizes, weights)
    ∧ Forall2
        (λ w size, w == alpha * (1 / C) + (1 - alpha) * (inject_Z size / N))%Q
        weights class_sizes
    ∧ (Np.qsum weights == 1)%Q
    ∧ Forall (Qle 0) weights
    ∧ ((alpha == 0)%Q →
       Forall2 (λ w size, w == inject_Z size / N)%Q weights class_sizes)
    ∧ ((alpha == 1)%Q → Forall (λ w, w == 1 / C)%Q weights).
Proof.
  intros class_sizes Hne Hsz H0 H1 C N.
  assert (HC : 0 < Py.len class_idxs)
    by (destruct class_idxs; [done|]; unfold Py.len; cbn; lia).
  pose proof (sum_ge_len _ Hsz) as HN.
  pose proof (class_lens_len h class_idxs) as Hlen.
  change (SamplerFactory.class_lens h class_idxs) with class_sizes in Hlen.
  assert (HCq : (0 < C)%Q)
    by (subst C; rewrite (Zlt_Qlt 0) in HC; exact HC).
  assert (HNq : (0 < N)%Q).
  { subst N. assert (0 < Py.sum class_sizes) as HN' by lia.
    rewrite (Zlt_Qlt 0) in HN'. exact HN'. }
  assert (HC0 : ¬ (C == 0)%Q) by (intros E; rewrite E in HCq; discriminate).
  assert (HN0 : ¬ (N == 0)%Q) by (intros E; rewrite E in HNq; discriminate).
  eexists. split; [by apply weight_classes_ok|].
  change (SamplerFactory.class_lens h class_idxs) with class_sizes.
  fold C N. repeat split.
  - apply Forall2_fmap_l, Forall_Forall2_diag, Forall_forall. by intros.
  - rewrite qsum_affine by done. rewrite Hlen. fold C N. field. by split.
  - apply Forall_fmap, Forall_forall. intros size Hin. cbn.
    rewrite Forall_forall in Hsz. specialize (Hsz size Hin).
    assert (0 <= inject_Z size)%Q as Hs
      by (change (inject_Z 0 <= inject_Z size)%Q; rewrite <- Zle_Qle; lia).
    assert (0 <= 1 - alpha)%Q as Hb
      by (unfold Qminus; rewrite <- Qle_minus_iff; exact H1).
    apply (Qplus_le_compat 0 _ 0); apply Qmult_le_0_compat; try done.
    + apply Qle_shift_div_l; [done|]. rewrite Qmult_0_l. discriminate.
    + apply Qle_shift_div_l; [done|]. by rewrite Qmult_0_l.
  - intros Ha. apply Forall2_fmap_l, Forall_Forall2_diag, Forall_forall.
    intros size _. cbn. rewrite Ha. field. done.
  - intros Ha. apply Forall_fmap, Forall_forall.
    intros size _. cbn. rewrite Ha. field. by split.
Qed.

(** ** The fixed sampler: one batch *)

Section get_batch.

Import WeightedFixedBatchSampler.

Variable self : WeightedFixedBatchSampler.t.
Variable h : Heap.

Lemma select_read_classes (start_idxs : list Z) :
  ∀ (sizes : list Z) (c : nat) (selected : list Z),
    (c + length sizes ≤ length (class_idxs self))%nat →
    (c + length sizes ≤ length start_idxs)%nat →
    select self h start_idxs c sizes selected
    = (chunks ← read_classes (drop c (class_idxs self)) h
                  (drop c start_idxs) sizes;
       Ok (selected ++ concat chunks)).
Proof.
  induction sizes as [|size sizes IH]; intros c selected Hc Hs.
  - unfold read_classes. rewrite zip_with_nil_r. cbn.
    by rewrite app_nil_r.
  - cbn [length] in Hc, Hs.
    destruct (lookup_lt_is_Some_2 (class_idxs self) c) as [cidx Hcidx]; [lia|].
    destruct (lookup_lt_is_Some_2 start_idxs c) as [start Hstart]; [lia|].
    cbn [select]. rewrite Hcidx, Hstart.
    rewrite (drop_S _ _ _ Hcidx), (drop_S _ _ _ Hstart).
    unfold read_classes. cbn.
    destruct (ClassIdx.getitem_slice cidx h start (start + size))
      as [chunk|e]; cbn; [|done].
    rewrite IH by lia. unfold read_classes.
    destruct (mapM _ _) as [chunks|e]; cbn; [|done].
    by rewrite app_assoc.
Qed.

Lemma get_batch_unshuffled (start_idxs : list Z) :
  random_state self = None →
  length (class_idxs self) = length (class_samples_per_batch self) →
  length start_idxs = length (class_samples_per_batch self) →
  _get_batch self h start_idxs
  = (chunks ← read_classes (class_idxs self) h start_idxs
                (class_samples_per_batch self);
     Ok (concat chunks, self)).
Proof.
  intros Hrs Hc Hs. unfold _get_batch.
  rewrite select_read_classes by lia. rewrite !drop_0, Hrs.
  by destruct (read_classes _ _ _ _).
Qed.

End get_batch.

(** ** The fixed sampler without a shuffle policy *)

Lemma range_cons (start stop : Z) :
  start < stop → Py.range start stop = start :: Py.range (start + 1) stop.
Proof.
  intros Hlt. unfold Py.range.
  replace (Z.to_nat (stop - start)) with (S (Z.to_nat (stop - (start + 1))))
    by lia.
  cbn [seq fmap list_fmap]. f_equal; [lia|].
  rewrite <- fmap_S_seq, <- list_fmap_compose.
  apply list_fmap_ext. intros _ k _. cbn. lia.
Qed.

Lemma until_error_lookup {A} (rs : list (result A)) :
  ∀ (b : nat) (x : A),
    (until_error rs).1 !! b = Some x → rs !! b = Some (Ok x).
Proof.
  induction rs as [|[a|e] rs IH]; intros b x; cbn; try done.
  destruct (until_error rs) as [l e'] eqn:E. cbn in *.
  destruct b as [|b]; cbn; [by intros [= ->]|]. apply IH.
Qed.

Lemma until_error_all_ok {A} (l : list A) :
  until_error (Ok <$> l) = (l, None).
Proof. induction l as [|x l IH]; cbn; [done|]. by rewrite IH. Qed.

Section unshuffled.

Import WeightedFixedBatchSampler.

Variable self : WeightedFixedBatchSampler.t.
Variable h : Heap.
Hypothesis no_shuffle : random_state self = None.
Hypothesis same_len :
  length (class_idxs self) = length (class_samples_per_batch self).

Lemma batches_unshuffled (n : nat) : ∀ k : Z,
  batches self h ((λ q, k * q) <$> class_samples_per_batch self) n
  = (until_error
       (batch_of (class_idxs self) h (class_samples_per_batch self)
          <$> Py.range k (k + Z.of_nat n)),
     self).
Proof.
  induction n as [|n IH]; intros k.
  - unfold Py.range. replace (k + Z.of_nat 0 - k) with 0 by lia. done.
  - rewrite range_cons by lia. cbn [batches fmap list_fmap until_error].
    rewrite get_batch_unshuffled by (done || by rewrite length_fmap).
    unfold batch_of at 1.
    destruct (read_classes _ _ _ _) as [chunks|e]; cbn; [|done].
    replace (zip_with Z.add ((λ q, k * q) <$> class_samples_per_batch self)
               (class_samples_per_batch self))
      with ((λ q, (k + 1) * q) <$> class_samples_per_batch self).
    2:{ rewrite zip_with_fmap_l.
        generalize (class_samples_per_batch self) as qs.
        induction qs as [|q qs IHq]; cbn; [done|]. f_equal; [lia|done]. }
    rewrite IH.
    replace (k + 1 + Z.of_nat n) with (k + Z.of_nat (S n)) by lia.
    by destruct (until_error _).
Qed.

Lemma iter_unshuffled :
  n_classes self = Py.len (class_samples_per_batch self) →
  __iter__ self h
  = {| yielded :=
         (until_error
            (batch_of (class_idxs self) h (class_samples_per_batch self)
               <$> Py.range 0 (n_batches self))).1;
       raised :=
         (until_error
            (batch_of (class_idxs self) h (class_samples_per_batch self)
               <$> Py.range 0 (n_batches self))).2;
       heap_after := h;
       self_after := self |}.
Proof.
  intros Hn. unfold __iter__. rewrite no_shuffle.
  assert (Hself : with_random_state self None = self)
    by (destruct self; cbn in *; by subst).
  rewrite Hself, Hn.
  replace (replicate (Z.to_nat (Py.len (class_samples_per_batch self))) 0)
    with ((λ q, 0 * q) <$> class_samples_per_batch self).
  2:{ unfold Py.len. rewrite Nat2Z.id.
      generalize (class_samples_per_batch self) as qs.
      induction qs as [|q qs IHq]; cbn; [done|]. by f_equal. }
  rewrite batches_unshuffled.
  replace (Py.range 0 (0 + Z.of_nat (Z.to_nat (n_batches self))))
    with (Py.range 0 (n_batches self))
    by (unfold Py.range; f_equal; f_equal; lia).
  by destruct (until_error _).
Qed.

End unshuffled.

Section init.

Import WeightedFixedBatchSampler.

Lemma init_inv (h : Heap) (quota : list Z) (idxs : list loc) (n : Z)
    (circular_list shuffle : bool) (seed : nat → nat) (s : t) :
  __init__ h quota idxs n circular_list shuffle seed = Ok s →
  class_samples_per_batch s = quota
  ∧ n_batches s = n
  ∧ n_classes s = Py.len quota
  ∧ batch_size s = Py.sum quota
  ∧ length (class_idxs s) = length quota
  ∧ length idxs = length quota
  ∧ class_idxs s
    = (if circular_list
       then (λ idx, Circular (CircularList.__init__ h idx)) <$> idxs
       else PlainList <$> idxs)
  ∧ random_state s = (if shuffle then Some (Rng.make seed) else None).
Proof.
  unfold __init__.
  destruct (Z.eqb_spec (Py.len quota)
              (Py.len (if circular_list
                       then (λ idx, Circular (CircularList.__init__ h idx))
                              <$> idxs
                       else PlainList <$> idxs))) as [Hlen|]; [|done].
  cbn. intros [= <-]. cbn. unfold Py.len in Hlen.
  repeat split; try done; destruct circular_list;
    rewrite length_fmap in *; lia.
Qed.

End init.

Lemma range_lookup_inv (start stop : Z) (k : nat) (x : Z) :
  Py.range start stop !! k = Some x → x = start + Z.of_nat k.
Proof.
  unfold Py.range. rewrite list_lookup_fmap.
  destruct (seq 0 (Z.to_nat (stop - start)) !! k) as [j|] eqn:E; [|done].
  apply lookup_seq in E as [-> _]. cbn. by intros [= <-].
Qed.

(** C6. Without a shuffle policy, two complete passes over the same sampler
    give the same sequence of batches: every pass starts its cursors at 0, and
    batch [b] reads class [c] from [b * quota[c]], the classes being
    concatenated in class order. *)
Theorem unshuffled_passes_identical (h : Heap) (quota : list Z)
    (idxs : list loc) (n : Z) (circular_list : bool) (seed : nat → nat)
    (s : WeightedFixedBatchSampler.t) :
  WeightedFixedBatchSampler.__init__ h quota idxs n circular_list false seed
  = Ok s →
  let p1 := WeightedFixedBatchSampler.__iter__ s h in
  let p2 :=
    WeightedFixedBatchSampler.__iter__ (self_after p1) (heap_after p1) in
  yielded p2 = yielded p1
  ∧ raised p2 = raised p1
  ∧ ∀ (b : nat) (batch : list Z),
      yielded p1 !! b = Some batch →
      ∃ chunks : list (list Z),
        read_classes (WeightedFixedBatchSampler.class_idxs s) h
          ((λ q, Z.of_nat b * q) <$> quota) quota
        = Ok chunks
        ∧ batch = concat chunks.
Proof.
  intros Hinit p1 p2.
  destruct (init_inv _ _ _ _ _ _ _ _ Hinit)
    as (Hq & Hn & Hc & _ & Hlen & _ & _ & Hrs).
  rewrite <- Hq in Hlen.
  assert (Hp1 := iter_unshuffled s h Hrs Hlen ltac:(by rewrite Hc, Hq)).
  fold p1 in Hp1.
  assert (Hs : self_after p1 = s) by (by rewrite Hp1).
  assert (Hh : heap_after p1 = h) by (by rewrite Hp1).
  assert (Hp2 : p2 = p1) by (subst p2; by rewrite Hs, Hh).
  rewrite Hp2. repeat split.
  intros b batch Hb. rewrite Hp1 in Hb. cbn in Hb.
  apply until_error_lookup in Hb. rewrite list_lookup_fmap in Hb.
  destruct (Py.range 0 (WeightedFixedBatchSampler.n_batches s) !! b)
    as [k|] eqn:Hk; [|done].
  apply range_lookup_inv in Hk as ->. cbn in Hb.
  injection Hb as Hb. unfold batch_of in Hb. rewrite Hq in Hb.
  replace (0 + Z.of_nat b) with (Z.of_nat b) in Hb by lia.
  destruct (read_classes _ _ _ _) as [chunks|e]; cbn in Hb; [|done].
  injection Hb as <-. by exists chunks.
Qed.

(** ** The fixed sampler over the caller's own lists *)

Lemma read_classes_plain (h : Heap) (b : Z) (idxs : list loc) :
  ∀ quota : list Z,
    read_classes (PlainList <$> idxs) h ((λ q, b * q) <$> quota) quota
    = Ok (zip_with (λ idx q, Py.slice (h !!! idx) (b * q) (b * q + q))
            idxs quota).
Proof.
  induction idxs as [|idx idxs IH]; intros [|q quota]; try done.
  unfold read_classes in *. cbn. by rewrite IH.
Qed.

Lemma slice_length {A} (l : list A) (start size : Z) :
  0 ≤ start → 0 ≤ size → (size = 0 → start = 0) →
  Py.len (Py.slice l start (start + size)) ≤ size
  ∧ (Py.len l < start + size → Py.len (Py.slice l start (start + size)) < size).
Proof.
  intros Hs Hz H0. unfold Py.slice, Py.clamp, Py.len.
  rewrite length_take, length_drop.
  destruct (Z.ltb_spec start 0), (Z.ltb_spec (start + size) 0); lia.
Qed.

Lemma truncated_batch_length (h : Heap) (b : Z) (idxs : list loc) :
  0 ≤ b →
  ∀ quota : list Z,
    Forall (λ q, 0 ≤ q) quota →
    let batch :=
      concat (zip_with (λ idx q, Py.slice (h !!! idx) (b * q) (b * q + q))
                idxs quota) in
    Py.len batch ≤ Py.sum quota
    ∧ ((∃ (c : nat) (idx : loc) (q : Z),
          idxs !! c = Some idx ∧ quota !! c = Some q
          ∧ Py.len (h !!! idx) < b * q + q) →
       Py.len batch < Py.sum quota).
Proof.
  intros Hb. induction idxs as [|idx idxs IH]; intros quota Hq.
  - cbn. split.
    + induction Hq as [|q quota Hq0 _ IHq]; [done|].
      change (Py.sum (q :: quota)) with (q + Py.sum quota).
      unfold Py.len in *. cbn in *. lia.
    + by intros (c & i & q & ? & _).
  - destruct Hq as [|q quota Hq0 Hq]; [cbn; split; [done|]|].
    { by intros (c & i & q & _ & ? & _). }
    destruct (IH quota Hq) as [Hle Hlt].
    destruct (slice_length (h !!! idx) (b * q) q ltac:(lia) Hq0 ltac:(lia))
      as [Hle1 Hlt1].
    change (Py.sum (q :: quota)) with (q + Py.sum quota).
    cbn [zip_with concat]. unfold Py.len in *. rewrite length_app.
    split; [lia|].
    intros ([|c] & i & q' & Hi & Hq' & Hex); cbn in Hi, Hq'.
    + injection Hi as <-. injection Hq' as <-. lia.
    + specialize (Hlt ltac:(by exists c, i, q')). lia.
Qed.

(** C3, as the code has it. With the caller's own lists as pools and no
    shuffle policy, a pass never fails: every class is read with the slice
    [pool[cursor : cursor + quota]], cut at the end of the pool, all
    [n_batches] batches are yielded, and when some class would be read past
    its end (quotas non-negative) the batch yielded is shorter than the sum
    of the quotas. *)
Theorem noncircular_reads_truncate (h : Heap) (quota : list Z)
    (idxs : list loc) (n : Z) (seed : nat → nat)
    (s : WeightedFixedBatchSampler.t) :
  WeightedFixedBatchSampler.__init__ h quota idxs n false false seed = Ok s →
  let p := WeightedFixedBatchSampler.__iter__ s h in
  raised p = None
  ∧ length (yielded p) = Z.to_nat n
  ∧ ∀ (b : nat) (batch : list Z),
      yielded p !! b = Some batch →
      batch
      = concat (zip_with
                  (λ idx q,
                     Py.slice (h !!! idx) (Z.of_nat b * q) (Z.of_nat b * q + q))
                  idxs quota)
      ∧ (Forall (λ q, 0 ≤ q) quota →
         (∃ (c : nat) (idx : loc) (q : Z),
            idxs !! c = Some idx ∧ quota !! c = Some q
            ∧ Py.len (h !!! idx) < Z.of_nat b * q + q) →
         Py.len batch < Py.sum quota).
Proof.
  intros Hinit p.
  destruct (init_inv _ _ _ _ _ _ _ _ Hinit)
    as (Hq & Hn & Hc & _ & Hlen & _ & Hpools & Hrs).
  rewrite <- Hq in Hlen.
  assert (Hp := iter_unshuffled s h Hrs Hlen ltac:(by rewrite Hc, Hq)).
  fold p in Hp. rewrite Hq, Hn, Hpools in Hp.
  assert (Hall :
    batch_of (PlainList <$> idxs) h quota <$> Py.range 0 n
    = Ok <$> ((λ b, concat (zip_with
                 (λ idx q, Py.slice (h !!! idx) (b * q) (b * q + q))
                 idxs quota)) <$> Py.range 0 n)).
  { rewrite <- list_fmap_compose. apply list_fmap_ext. intros _ b _.
    unfold batch_of. by rewrite read_classes_plain. }
  rewrite Hall, until_error_all_ok in Hp. rewrite Hp. cbn.
  split; [done|]. split.
  { rewrite length_fmap, range_length. f_equal. lia. }
  intros b batch Hb. rewrite list_lookup_fmap in Hb.
  destruct (Py.range 0 n !! b) as [k|] eqn:Hk; [|done].
  apply range_lookup_inv in Hk as ->. cbn in Hb.
  replace (0 + Z.of_nat b) with (Z.of_nat b) in Hb by lia.
  injection Hb as <-. split; [done|].
  intros Hq0 Hex.
  by apply (truncated_batch_length h (Z.of_nat b) idxs ltac:(lia) quota Hq0).
Qed.

(** ** Shuffling *)

Lemma insert_Permutation {A} (l : list A) : ∀ (i : nat) (a b : A),
  l !! i = Some a → <[i:=b]> l ≡ₚ b :: delete i l.
Proof.
  induction l as [|x l IH]; intros [|i] a b Hi; try done.
  cbn in Hi. cbn. rewrite (IH i a b Hi). apply Permutation_swap.
Qed.

Lemma swap_Permutation {A} (x : list A) (i j : nat) : Rng.swap x i j ≡ₚ x.
Proof.
  unfold Rng.swap.
  destruct (x !! i) as [a|] eqn:Hi; [|done].
  destruct (x !! j) as [b|] eqn:Hj; [|done].
  destruct (decide (i = j)) as [->|Hne].
  - rewrite list_insert_insert_eq. rewrite list_insert_id; [done|].
    congruence.
  - assert (Hj' : <[i:=b]> x !! j = Some b)
      by (by rewrite list_lookup_insert_ne).
    rewrite (insert_Permutation _ j b a Hj').
    rewrite (delete_Permutation x i a Hi) at 2.
    apply Permutation_skip.
    apply (Permutation_cons_inv (a:=b)).
    rewrite <- (delete_Permutation _ j b Hj').
    by apply insert_Permutation with a.
Qed.

Lemma shuffle_from_Permutation {A} (i : nat) :
  ∀ (rs : RandomState) (x : list A), (Rng.shuffle_from i rs x).1 ≡ₚ x.
Proof.
  induction i as [|i IH]; intros rs x; [done|].
  cbn. rewrite IH. apply swap_Permutation.
Qed.

Lemma shuffle_Permutation {A} (rs : RandomState) (x : list A) :
  (Rng.shuffle rs x).1 ≡ₚ x.
Proof. apply shuffle_from_Permutation. Qed.

Lemma heap_perm_refl (h : Heap) : heap_perm h h.
Proof. by intros l. Qed.

Lemma heap_perm_trans (h1 h2 h3 : Heap) :
  heap_perm h1 h2 → heap_perm h2 h3 → heap_perm h1 h3.
Proof. intros H12 H23 l. by rewrite (H23 l). Qed.

Lemma circular_shuffle_perm (cl : CircularList.t) (rs : RandomState)
    (h : Heap) :
  heap_perm h (CircularList.shuffle cl rs h).1.
Proof.
  unfold CircularList.shuffle.
  pose proof (shuffle_Permutation rs (h !!! CircularList._items cl)) as Hp.
  destruct (Rng.shuffle rs (h !!! CircularList._items cl)) as [items' rs'].
  cbn in *. intros l.
  destruct (decide (CircularList._items cl = l)) as [<-|Hne].
  - by rewrite lookup_total_insert_eq.
  - by rewrite lookup_total_insert_ne.
Qed.

Lemma shuffle_pools_perm (cs : list ClassIdx) :
  ∀ (rs : RandomState) (h : Heap),
    heap_perm h (WeightedFixedBatchSampler.shuffle_pools cs rs h).1.1.
Proof.
  induction cs as [|[items|cl] cs IH]; intros rs h; cbn.
  - apply heap_perm_refl.
  - apply heap_perm_refl.
  - pose proof (circular_shuffle_perm cl rs h) as Hp.
    destruct (CircularList.shuffle cl rs h) as [h' rs']. cbn in Hp.
    eapply heap_perm_trans; [exact Hp|apply IH].
Qed.

Lemma circular_ok_perm (h h' : Heap) (cidx : ClassIdx) :
  heap_perm h h' → circular_ok h cidx → circular_ok h' cidx.
Proof.
  intros Hp (cl & -> & Hwf & Hpos). exists cl.
  unfold circular_wf, Py.len in *.
  rewrite (Permutation_length (Hp (CircularList._items cl))). done.
Qed.

Lemma shuffle_pools_circular (cs : list ClassIdx) :
  ∀ (rs : RandomState) (h : Heap),
    Forall (circular_ok h) cs →
    (WeightedFixedBatchSampler.shuffle_pools cs rs h).2 = None.
Proof.
  induction cs as [|cidx cs IH]; intros rs h Hok; [done|].
  apply Forall_cons in Hok as [(cl & -> & Hwf) Hok]. cbn.
  pose proof (circular_shuffle_perm cl rs h) as Hp.
  destruct (CircularList.shuffle cl rs h) as [h' rs']. cbn in Hp.
  apply IH. eapply Forall_impl; [exact Hok|].
  intros c. by apply circular_ok_perm.
Qed.

(** ** The fixed sampler over circular pools *)

Lemma shuffle_length {A} (rs : RandomState) (x : list A) :
  length (Rng.shuffle rs x).1 = length x.
Proof. apply Permutation_length, shuffle_Permutation. Qed.

Lemma read_classes_circular (h : Heap) (pools : list ClassIdx) :
  Forall (circular_ok h) pools →
  ∀ starts sizes : list Z,
    length starts = length pools →
    length sizes = length pools →
    Forall (λ q, 0 ≤ q) sizes →
    ∃ chunks : list (list Z),
      read_classes pools h starts sizes = Ok chunks
      ∧ Py.len (concat chunks) = Py.sum sizes.
Proof.
  induction 1 as [|cidx pools (cl & -> & Hwf & Hpos) _ IH];
    intros [|start starts] [|size sizes] Hs Hz Hq; try done.
  - by exists [].
  - apply Forall_cons in Hq as [Hq0 Hq].
    destruct (IH starts sizes) as (chunks & Hchunks & Hlen);
      [by injection Hs|by injection Hz|done|].
    unfold read_classes in *. cbn.
    rewrite (circular_slice_ok h cl start (start + size) Hwf Hpos). cbn.
    rewrite Hchunks. cbn. eexists. split; [done|].
    change (Py.sum (size :: sizes)) with (size + Py.sum sizes).
    unfold Py.len in *. cbn [concat]. rewrite length_app, length_fmap.
    rewrite range_length. unfold Py.sum in *. lia.
Qed.

Section circular.

Import WeightedFixedBatchSampler.

Variable h : Heap.

Lemma same_config_refl (s : t) : same_config s s.
Proof. by repeat split. Qed.

Lemma same_config_trans (s1 s2 s3 : t) :
  same_config s1 s2 → same_config s2 s3 → same_config s1 s3.
Proof.
  intros (? & ? & ? & ? & ?) (? & ? & ? & ? & ?).
  repeat split; congruence.
Qed.

Lemma same_config_with_random_state (s : t) (rs : option RandomState) :
  same_config s (with_random_state s rs).
Proof. by repeat split. Qed.

Lemma circular_inv_config (h' : Heap) (s s' : t) :
  same_config s s' → heap_perm h h' → circular_inv h s → circular_inv h' s'.
Proof.
  intros (Hq & Hc & _ & Hn & _) Hp (Hlen & Hnc & Hok & Hq0).
  unfold circular_inv. rewrite Hq, Hc, Hn. repeat split; try done.
  eapply Forall_impl; [exact Hok|]. intros c. by apply circular_ok_perm.
Qed.

Lemma get_batch_circular (self : t) (start_idxs : list Z) :
  circular_inv h self →
  length start_idxs = length (class_samples_per_batch self) →
  ∃ (batch : list Z) (self' : t),
    _get_batch self h start_idxs = Ok (batch, self')
    ∧ Py.len batch = Py.sum (class_samples_per_batch self)
    ∧ same_config self self'.
Proof.
  intros (Hlen & Hnc & Hok & Hq0) Hs. unfold _get_batch.
  rewrite select_read_classes by lia. rewrite !drop_0.
  destruct (read_classes_circular h _ Hok start_idxs
              (class_samples_per_batch self)) as (chunks & -> & Hsum);
    [lia|lia|done|].
  cbn. destruct (random_state self) as [rs|].
  - pose proof (shuffle_length rs (concat chunks)) as Hsh.
    destruct (Rng.shuffle rs (concat chunks)) as [selected rs'].
    cbn in Hsh. exists selected, (with_random_state self (Some rs')).
    split; [done|]. split.
    + unfold Py.len in *. by rewrite Hsh.
    + apply same_config_with_random_state.
  - exists (concat chunks), self.
    split; [done|]. split; [done|]. apply same_config_refl.
Qed.

Lemma batches_circular (n : nat) : ∀ (self : t) (start_idxs : list Z),
  circular_inv h self →
  length start_idxs = length (class_samples_per_batch self) →
  ∃ (bs : list (list Z)) (self' : t),
    batches self h start_idxs n = (bs, None, self')
    ∧ length bs = n
    ∧ Forall (λ b, Py.len b = Py.sum (class_samples_per_batch self)) bs
    ∧ same_config self self'.
Proof.
  induction n as [|n IH]; intros self start_idxs Hinv Hs.
  - exists [], self.
    split; [done|]. split; [done|]. split; [done|]. apply same_config_refl.
  - destruct (get_batch_circular self start_idxs Hinv Hs)
      as (batch & self1 & Hb & Hlen & Hcfg).
    cbn [batches]. rewrite Hb.
    pose proof (circular_inv_config h self self1 Hcfg (heap_perm_refl h) Hinv)
      as Hinv1.
    destruct Hcfg as (Hq & Hrest).
    destruct (IH self1 (zip_with Z.add start_idxs
                          (class_samples_per_batch self1)) Hinv1)
      as (bs & self2 & -> & Hn & Hall & Hcfg2).
    { rewrite length_zip_with. rewrite Hq. lia. }
    exists (batch :: bs), self2. split; [done|]. split; [|split].
    + cbn. by rewrite Hn.
    + constructor; [done|]. by rewrite <- Hq.
    + eapply same_config_trans; [|exact Hcfg2]. by split.
Qed.

End circular.

Lemma iter_circular (h : Heap) (s : WeightedFixedBatchSampler.t) :
  circular_inv h s →
  let p := WeightedFixedBatchSampler.__iter__ s h in
  raised p = None
  ∧ length (yielded p) = Z.to_nat (WeightedFixedBatchSampler.n_batches s)
  ∧ Forall (λ b, Py.len b
                 = Py.sum (WeightedFixedBatchSampler.class_samples_per_batch s))
      (yielded p)
  ∧ same_config s (self_after p)
  ∧ heap_perm h (heap_after p)
  ∧ circular_inv (heap_after p) (self_after p).
Proof.
  intros Hinv. unfold WeightedFixedBatchSampler.__iter__.
  set (st := match WeightedFixedBatchSampler.random_state s with
             | Some rs =>
                 let '(h, rs, e) :=
                   WeightedFixedBatchSampler.shuffle_pools
                     (WeightedFixedBatchSampler.class_idxs s) rs h in
                 (h, Some rs, e)
             | None => (h, None, None)
             end).
  assert (Hst : heap_perm h st.1.1 ∧ st.2 = None).
  { subst st. destruct (WeightedFixedBatchSampler.random_state s) as [rs|].
    - pose proof (shuffle_pools_perm
                    (WeightedFixedBatchSampler.class_idxs s) rs h) as Hp.
      pose proof (shuffle_pools_circular
                    (WeightedFixedBatchSampler.class_idxs s) rs h
                    ltac:(apply Hinv)) as He.
      by destruct (WeightedFixedBatchSampler.shuffle_pools _ rs h)
        as [[h' rs'] e].
    - split; [apply heap_perm_refl|done]. }
  destruct st as [[h' rs'] e]. cbn in Hst. destruct Hst as [Hp ->].
  pose proof (same_config_with_random_state s rs') as Hcfg1.
  pose proof (circular_inv_config h h' _ _ Hcfg1 Hp Hinv) as Hinv1.
  destruct (batches_circular h'
              (Z.to_nat (WeightedFixedBatchSampler.n_batches
                           (WeightedFixedBatchSampler.with_random_state s rs')))
              (WeightedFixedBatchSampler.with_random_state s rs')
              (replicate
                 (Z.to_nat (WeightedFixedBatchSampler.n_classes
                    (WeightedFixedBatchSampler.with_random_state s rs'))) 0)
              Hinv1)
    as (bs & s2 & Hb & Hn & Hall & Hcfg2).
  { rewrite length_replicate. destruct Hinv1 as (_ & -> & _).
    unfold Py.len. by rewrite Nat2Z.id. }
  rewrite Hb. cbn.
  split; [done|]. split; [done|]. split; [done|]. split; [|split; [done|]].
  - eapply same_config_trans; [exact Hcfg1|exact Hcfg2].
  - eapply circular_inv_config; [exact Hcfg2|apply heap_perm_refl|exact Hinv1].
Qed.

Lemma init_circular_inv (h : Heap) (quota : list Z) (idxs : list loc) (n : Z)
    (shuffle : bool) (seed : nat → nat) (s : WeightedFixedBatchSampler.t) :
  WeightedFixedBatchSampler.__init__ h quota idxs n true shuffle seed = Ok s →
  Forall (λ idx, h !!! idx ≠ []) idxs →
  Forall (λ q, 0 ≤ q) quota →
  circular_inv h s.
Proof.
  intros Hinit Hne Hq0.
  destruct (init_inv _ _ _ _ _ _ _ _ Hinit)
    as (Hq & _ & Hc & _ & Hlen & _ & Hpools & _).
  unfold circular_inv. rewrite Hq, Hc, Hpools.
  split; [by rewrite <- Hpools|]. split; [done|]. split; [|done].
  apply Forall_fmap. eapply Forall_impl; [exact Hne|].
  intros idx Hidx. exists (CircularList.__init__ h idx).
  split; [done|]. split; [done|]. by apply len_pos_nonempty.
Qed.

Lemma passes_circular (k : nat) :
  ∀ (s : WeightedFixedBatchSampler.t) (h : Heap),
    circular_inv h s →
    circular_inv (passes k s h).2 (passes k s h).1
    ∧ same_config s (passes k s h).1
    ∧ heap_perm h (passes k s h).2.
Proof.
  induction k as [|k IH]; intros s h Hinv.
  - split; [done|]. split; [apply same_config_refl|apply heap_perm_refl].
  - destruct (iter_circular h s Hinv) as (_ & _ & _ & Hcfg & Hp & Hinv').
    destruct (IH _ _ Hinv') as (Hinv'' & Hcfg' & Hp').
    cbn [passes]. split; [done|]. split.
    + eapply same_config_trans; [exact Hcfg|exact Hcfg'].
    + eapply heap_perm_trans; [exact Hp|exact Hp'].
Qed.

(** C5, as the code has it. A fixed sampler over circular pools whose classes
    are not empty, whose quotas are counts and whose number of batches is not
    negative can be iterated again and again: whatever the number of passes
    already made, the next
    pass ends without an exception after exactly [n_batches] batches, each
    of length the sum of the quotas, and the length query gives [n_batches]
    before and after it. *)
Theorem circular_passes_full_batches (h : Heap) (quota : list Z)
    (idxs : list loc) (n : Z) (shuffle : bool) (seed : nat → nat)
    (s : WeightedFixedBatchSampler.t) (k : nat) :
  WeightedFixedBatchSampler.__init__ h quota idxs n true shuffle seed = Ok s →
  Forall (λ idx, h !!! idx ≠ []) idxs →
  Forall (λ q, 0 ≤ q) quota →
  0 ≤ n →
  let s_k := (passes k s h).1 in
  let h_k := (passes k s h).2 in
  let p := WeightedFixedBatchSampler.__iter__ s_k h_k in
  raised p = None
  ∧ Py.len (yielded p) = n
  ∧ Forall (λ batch, Py.len batch = Py.sum quota) (yielded p)
  ∧ WeightedFixedBatchSampler.__len__ s_k = n
  ∧ WeightedFixedBatchSampler.__len__ (self_after p) = n.
Proof.
  intros Hinit Hne Hq0 Hn s_k h_k p.
  pose proof (init_circular_inv _ _ _ _ _ _ _ Hinit Hne Hq0) as Hinv.
  destruct (init_inv _ _ _ _ _ _ _ _ Hinit) as (Hq & Hnb & _).
  destruct (passes_circular k s h Hinv) as (Hinv_k & Hcfg_k & _).
  fold s_k h_k in Hinv_k, Hcfg_k.
  destruct (iter_circular h_k s_k Hinv_k)
    as (Hr & Hlen & Hall & Hcfg_p & _ & _).
  fold p in Hr, Hlen, Hall, Hcfg_p.
  destruct Hcfg_k as (Hq_k & _ & Hnb_k & _).
  destruct Hcfg_p as (_ & _ & Hnb_p & _).
  unfold WeightedFixedBatchSampler.__len__.
  rewrite Hq_k, Hq in Hall. rewrite Hnb_k, Hnb in Hlen, Hnb_p.
  split; [done|]. split; [unfold Py.len; lia|]. split; [done|].
  split; [congruence|done].
Qed.

(** ** What the samplers do to the caller's lists *)

Lemma batches_keeps_unshuffled (h : Heap) (self : WeightedFixedBatchSampler.t) :
  WeightedFixedBatchSampler.random_state self = None →
  ∀ (n : nat) (start_idxs : list Z),
    (WeightedFixedBatchSampler.batches self h start_idxs n).2 = self.
Proof.
  intros Hrs. induction n as [|n IH]; intros start_idxs; [done|].
  cbn [WeightedFixedBatchSampler.batches].
  unfold WeightedFixedBatchSampler._get_batch. rewrite Hrs.
  destruct (WeightedFixedBatchSampler.select _ _ _ _ _ _) as [selected|e];
    cbn; [|done].
  specialize (IH (zip_with Z.add start_idxs
                    (WeightedFixedBatchSampler.class_samples_per_batch self))).
  by destruct (WeightedFixedBatchSampler.batches self h _ n) as [[bs e] s'].
Qed.

Lemma iter_unshuffled_frame (h : Heap) (s : WeightedFixedBatchSampler.t) :
  WeightedFixedBatchSampler.random_state s = None →
  heap_after (WeightedFixedBatchSampler.__iter__ s h) = h
  ∧ self_after (WeightedFixedBatchSampler.__iter__ s h) = s.
Proof.
  intros Hrs. unfold WeightedFixedBatchSampler.__iter__. rewrite Hrs.
  assert (Hs : WeightedFixedBatchSampler.with_random_state s None = s)
    by (destruct s; cbn in *; by subst).
  rewrite Hs.
  pose proof (batches_keeps_unshuffled h s Hrs
                (Z.to_nat (WeightedFixedBatchSampler.n_batches s))
                (replicate (Z.to_nat (WeightedFixedBatchSampler.n_classes s)) 0))
    as Hb.
  by destruct (WeightedFixedBatchSampler.batches s h _ _) as [[bs e] s'].
Qed.

Lemma iter_heap_perm (h : Heap) (s : WeightedFixedBatchSampler.t) :
  heap_perm h (heap_after (WeightedFixedBatchSampler.__iter__ s h)).
Proof.
  unfold WeightedFixedBatchSampler.__iter__.
  destruct (WeightedFixedBatchSampler.random_state s) as [rs|].
  - pose proof (shuffle_pools_perm
                  (WeightedFixedBatchSampler.class_idxs s) rs h) as Hp.
    destruct (WeightedFixedBatchSampler.shuffle_pools _ rs h) as [[h' rs'] e].
    cbn in Hp. destruct e as [e|]; [done|].
    by destruct (WeightedFixedBatchSampler.batches _ h' _ _) as [[bs e] s'].
  - destruct (WeightedFixedBatchSampler.batches _ h _ _) as [[bs e] s'].
    apply heap_perm_refl.
Qed.

Lemma random_iter_frame (h : Heap) (s : WeightedRandomBatchSampler.t) :
  heap_after (WeightedRandomBatchSampler.__iter__ s h) = h.
Proof.
  unfold WeightedRandomBatchSampler.__iter__.
  by destruct (WeightedRandomBatchSampler.batches s _) as [[bs e] s'].
Qed.

Lemma run_ops_fixed_perm (ops : list Op) :
  ∀ (s : WeightedFixedBatchSampler.t) (h : Heap),
    heap_perm h (run_ops (Fixed s) h ops).2.
Proof.
  unfold run_ops. induction ops as [|[|] ops IH]; intros s h; cbn.
  - apply heap_perm_refl.
  - eapply heap_perm_trans; [apply iter_heap_perm|apply IH].
  - apply IH.
Qed.

Lemma run_ops_fixed_frame (ops : list Op) :
  ∀ (s : WeightedFixedBatchSampler.t) (h : Heap),
    WeightedFixedBatchSampler.random_state s = None →
    (run_ops (Fixed s) h ops).2 = h.
Proof.
  unfold run_ops. induction ops as [|[|] ops IH]; intros s h Hrs; cbn.
  - done.
  - destruct (iter_unshuffled_frame h s Hrs) as [-> ->]. by apply IH.
  - by apply IH.
Qed.

Lemma run_ops_random_frame (ops : list Op) :
  ∀ (s : WeightedRandomBatchSampler.t) (h : Heap),
    (run_ops (Random s) h ops).2 = h.
Proof.
  unfold run_ops. induction ops as [|[|] ops IH]; intros s h; cbn.
  - done.
  - rewrite random_iter_frame. apply IH.
  - apply IH.
Qed.

Lemma factory_fixed_unshuffled (h : Heap) (idxs : list loc)
    (batch_size n : Z) (alpha : Q) (s : WeightedFixedBatchSampler.t) :
  SamplerFactory.fixed h idxs batch_size n alpha = Ok s →
  WeightedFixedBatchSampler.random_state s = None.
Proof.
  unfold SamplerFactory.fixed.
  destruct (SamplerFactory._weight_classes _ _) as [[sizes weights]|];
    cbn; [|done].
  destruct (SamplerFactory._fix_batches _ _ _ _) as [quota|]; cbn; [|done].
  intros Hinit. by destruct (init_inv _ _ _ _ _ _ _ _ Hinit) as (_&_&_&_&_&_&_&?).
Qed.

(** A fixed sampler built directly, with any options: construction, passes
    and length queries never change which indices a caller's class list
    holds, and they leave the lists themselves unchanged when no shuffle
    policy is configured. *)
Lemma fixed_sampler_frame (h : Heap) (quota : list Z) (idxs : list loc)
    (n : Z) (circular_list shuffle : bool) (seed : nat → nat)
    (s : WeightedFixedBatchSampler.t) (ops : list Op) :
  WeightedFixedBatchSampler.__init__ h quota idxs n circular_list shuffle seed
  = Ok s →
  heap_perm h (run_ops (Fixed s) h ops).2
  ∧ (shuffle = false → (run_ops (Fixed s) h ops).2 = h).
Proof.
  intros Hinit. split; [apply run_ops_fixed_perm|]. intros ->.
  apply run_ops_fixed_frame.
  by destruct (init_inv _ _ _ _ _ _ _ _ Hinit) as (_&_&_&_&_&_&_&?).
Qed.

(** C7. For every sampler that the factory produces, of either kind, and
    every sequence of iteration passes and length queries on it, the
    caller's class lists are left unchanged: the heap after the operations
    is the heap the factory was given. The factory offers no way to
    configure a shuffle policy: [fixed] builds its sampler with the default
    [shuffle=False], and the random sampler draws from its own copy of the
    indices. *)
Theorem class_partition_frame (h : Heap) (idxs : list loc)
    (batch_size n : Z) (alpha : Q) (kind : string)
    (torch_sampler : nat → result (list Z)) (s : Sampler) (ops : list Op) :
  SamplerFactory.get h idxs batch_size n alpha kind torch_sampler = Ok s →
  (run_ops s h ops).2 = h.
Proof.
  unfold SamplerFactory.get.
  destruct (String.eqb kind "random").
  - destruct (SamplerFactory.random _ _ _ _ _ _) as [r|]; cbn; [|done].
    intros [= <-]. apply run_ops_random_frame.
  - destruct (String.eqb kind "fixed"); [|done].
    destruct (SamplerFactory.fixed _ _ _ _ _) as [f|] eqn:Hf; cbn; [|done].
    intros [= <-]. apply run_ops_fixed_frame.
    by apply factory_fixed_unshuffled in Hf.
Qed.

(** ** The sampler of the data loader *)

#[global] Instance round_proper : Proper (Qeq ==> eq) Np.round.
Proof.
  intros x y Hxy. unfold Np.round. rewrite (Qfloor_comp _ _ Hxy).
  assert (Hd : (x - inject_Z (Qfloor y) == y - inject_Z (Qfloor y))%Q)
    by (by rewrite Hxy).
  by rewrite (Qcompare_comp _ _ Hd (1 # 2) (1 # 2) (Qeq_refl _)).
Qed.


Lemma round_nonneg (x : Q) : (0 <= x)%Q → 0 ≤ Np.round x.
Proof.
  intros Hx. unfold Np.round.
  assert (0 ≤ Qfloor x) by (change 0 with (Qfloor 0); by apply Qfloor_resp_le).
  destruct (_ ?= _)%Q; [destruct (Z.even _)|..]; lia.
Qed.

Lemma sum_replicate (k : nat) (q : Z) :
  Py.sum (replicate k q) = Z.of_nat k * q.
Proof.
  induction k as [|k IH]; [done|].
  change (Py.sum (replicate (S k) q)) with (q + Py.sum (replicate k q)).
  rewrite IH. lia.
Qed.

Lemma where_eq_nonempty (labels : list Z) (l : Z) :
  l ∈ labels → BalancedDataLoader.where_eq labels l ≠ [].
Proof.
  intros Hl. apply list_elem_of_lookup in Hl as [i Hi].
  assert (Hin : Z.of_nat i ∈ BalancedDataLoader.where_eq labels l).
  { unfold BalancedDataLoader.where_eq. apply list_elem_of_omap.
    exists (i, l). split.
    - apply elem_of_lookup_imap. by exists i, l.
    - cbn. by rewrite decide_True. }
  intros E. rewrite E in Hin. by apply not_elem_of_nil in Hin.
Qed.

Lemma alloc_all_spec (ls : list (list Z)) : ∀ h : Heap,
  (∀ a : loc, a ∈ dom h →
     (BalancedDataLoader.alloc_all h ls).1 !! a = h !! a)
  ∧ Forall2 (λ (a : loc) l, (BalancedDataLoader.alloc_all h ls).1 !! a = Some l)
      (BalancedDataLoader.alloc_all h ls).2 ls.
Proof.
  induction ls as [|l ls IHls]; intros h; cbn.
  - split; [done|constructor].
  - pose proof (is_fresh (dom h)) as Hfresh.
    set (a := fresh (dom h)) in *.
    destruct (IHls (<[a:=l]> h)) as [Hkeep Hall]. clear IHls.
    destruct (BalancedDataLoader.alloc_all (<[a:=l]> h) ls) as [h' locs].
    cbn in *. split.
    + intros a' Ha'. rewrite Hkeep by (rewrite dom_insert; set_solver).
      apply lookup_insert_ne. set_solver.
    + constructor; [|done].
      rewrite Hkeep by (rewrite dom_insert; set_solver).
      apply lookup_insert_eq.
Qed.



Lemma set_iteration_elem_of (iter_set : gset Z → list Z) (labels : list Z)
    (l : Z) :
  set_iteration iter_set →
  l ∈ iter_set (list_to_set labels) ↔ l ∈ labels.
Proof.
  intros Hiter. rewrite (Hiter (list_to_set labels)).
  by rewrite elem_of_elements, elem_of_list_to_set.
Qed.

Lemma set_iteration_NoDup (iter_set : gset Z → list Z) (X : gset Z) :
  set_iteration iter_set → NoDup (iter_set X).
Proof. intros Hiter. rewrite (Hiter X). apply NoDup_elements. Qed.

Lemma ascending_iteration : set_iteration ascending.
Proof. intros X. apply merge_sort_Permutation. Qed.


(** * The properties at concrete inputs *)

Example round_half_even :
  Np.round (1 # 2) = 0 ∧ Np.round (3 # 2) = 2 ∧ Np.round (5 # 2) = 2
  ∧ Np.round (-1 # 2) = 0 ∧ Np.round (3 # 5) = 1.
Proof. repeat split. Qed.

Example slice_examples :
  Py.slice [5; 7] 0 5 = [5; 7] ∧ Py.slice [1; 2; 3; 4] (-3) (-1) = [2; 3]
  ∧ Py.slice [1; 2; 3] 2 1 = [] ∧ Py.range 3 6 = [3; 4; 5].
Proof. repeat split. Qed.

(** Sizes [1, 1, 1] with [alpha = 0] and a batch size of 10: the rounded
    quotas [3, 3, 3] miss one sample, which goes to the first class. *)
Example fix_batches_thirds :
  SamplerFactory._fix_batches [1 # 3; 1 # 3; 1 # 3]%Q [1; 1; 1] 10 1
  = Ok [4; 3; 3].
Proof. reflexivity. Qed.

(** Pool [[5, 7]] read with quota 5 from cursor 0. *)
Example circular_read_57 :
  CircularList.__getitem__slice (CircularList.__init__ pool57 0) pool57 0 (0 + 5)
  = Ok [5; 7; 5; 7; 5].
Proof. vm_compute. reflexivity. Qed.


(** Classes of sizes 3 and 7 blended half-way. *)
Lemma weight_classes_blend_witness :
  ∃ weights : list Q,
    SamplerFactory._weight_classes three_and_seven [0; 1]%nat (1 # 2)
    = Ok ([3; 7], weights)
    ∧ (Np.qsum weights == 1)%Q.
Proof.
  destruct (weight_classes_blend three_and_seven [0; 1]%nat (1 # 2))
    as (weights & Hw & _ & Hsum & _).
  - discriminate.
  - repeat constructor; vm_compute; discriminate.
  - unfold Qle; cbn; lia.
  - unfold Qle; cbn; lia.
  - exists weights. split; assumption.
Defined.

(** Key -3 in the pool [[5, 7]]. *)
Lemma circular_getitem_any_key_witness :
  ∃ x, CircularList.__getitem__ (CircularList.__init__ pool57 0) pool57 (-3) = Ok x
       ∧ (pool57 !!! 0%nat) !! Z.to_nat ((-3) `mod` Py.len (pool57 !!! 0%nat))
         = Some x.
Proof.
  apply (circular_getitem_any_key pool57 (CircularList.__init__ pool57 0) (-3)).
  - reflexivity.
  - vm_compute. discriminate.
Defined.

(** Five reads from cursor 0 in the pool [[5, 7]]. *)
Lemma circular_read_wraps_witness :
  ∃ out,
    CircularList.__getitem__slice (CircularList.__init__ pool57 0) pool57 0 (0 + 5)
    = Ok out
    ∧ Py.len out = 5.
Proof.
  destruct (circular_read_wraps pool57 (CircularList.__init__ pool57 0) 0 5)
    as (out & Hout & Hlen & _).
  - reflexivity.
  - vm_compute. discriminate.
  - lia.
  - exists out. split; assumption.
Defined.

(** C8. Five classes of equal weight and a batch size of 3: every product
    [0.2 * 3] rounds to 1, the remainder is [3 - 5 = -2], and the first class
    receives it. The planner returns a quota of -1 for that class, and the
    sampler the factory builds from it yields batches of 4 indices while the
    quotas sum to 3. *)
Theorem fix_batches_negative_quota :
  Forall (Qle 0) [1 # 5; 1 # 5; 1 # 5; 1 # 5; 1 # 5]%Q
  ∧ (Np.qsum [1 # 5; 1 # 5; 1 # 5; 1 # 5; 1 # 5] == 1)%Q
  ∧ SamplerFactory._fix_batches [1 # 5; 1 # 5; 1 # 5; 1 # 5; 1 # 5]%Q
      [1; 1; 1; 1; 1] 3 1
    = Ok [-1; 1; 1; 1; 1]
  ∧ ∃ s : WeightedFixedBatchSampler.t,
      SamplerFactory.fixed five_singletons [0; 1; 2; 3; 4]%nat 3 1 0 = Ok s
      ∧ WeightedFixedBatchSampler.class_samples_per_batch s = [-1; 1; 1; 1; 1]
      ∧ WeightedFixedBatchSampler.batch_size s = 3
      ∧ yielded (WeightedFixedBatchSampler.__iter__ s five_singletons)
        = [[1; 2; 3; 4]].
Proof.
  split; [repeat constructor; unfold Qle; cbn; lia|].
  split; [reflexivity|]. split; [reflexivity|].
  eexists. split; [vm_compute; reflexivity|].
  split; [reflexivity|]. split; [reflexivity|]. vm_compute. reflexivity.
Qed.

(** C5 fails on the code as it is worded, for every fixed sampler with
    circular pools. The sampler takes its quota, its pools and its number of
    batches as they are given. With the quota [[-1, 1, 1, 1, 1]] that the
    factory plans for five singleton classes and a batch size of 3, the one
    batch holds 4 indices while the quotas sum to 3; over a class without
    samples the first read raises [ZeroDivisionError] and no batch is
    yielded although [n_batches] is 1; with [n_batches = -1] a pass yields
    no batch. *)
Lemma circular_sampler_batches_differ :
  (∃ s : WeightedFixedBatchSampler.t,
     SamplerFactory.fixed five_singletons [0; 1; 2; 3; 4]%nat 3 1 0 = Ok s
     ∧ Py.sum (WeightedFixedBatchSampler.class_samples_per_batch s) = 3
     ∧ yielded (WeightedFixedBatchSampler.__iter__ s five_singletons)
       = [[1; 2; 3; 4]]
     ∧ Py.len [1; 2; 3; 4]
       ≠ Py.sum (WeightedFixedBatchSampler.class_samples_per_batch s))
  ∧ (∃ s : WeightedFixedBatchSampler.t,
       WeightedFixedBatchSampler.__init__ empty_class [1] [0%nat] 1 true false
         zero_seed = Ok s
       ∧ raised (WeightedFixedBatchSampler.__iter__ s empty_class)
         = Some ZeroDivisionError
       ∧ Py.len (yielded (WeightedFixedBatchSampler.__iter__ s empty_class))
         ≠ WeightedFixedBatchSampler.n_batches s)
  ∧ (∃ s : WeightedFixedBatchSampler.t,
       WeightedFixedBatchSampler.__init__ pool57 [1] [0%nat] (-1) true false
         zero_seed = Ok s
       ∧ WeightedFixedBatchSampler.__len__ s = -1
       ∧ yielded (WeightedFixedBatchSampler.__iter__ s pool57) = []).
Proof.
  split; [|split].
  - eexists. split; [vm_compute; reflexivity|].
    split; [reflexivity|]. split; [vm_compute; reflexivity|].
    vm_compute. discriminate.
  - eexists. split; [reflexivity|]. split; [vm_compute; reflexivity|].
    vm_compute. discriminate.
  - eexists. split; [reflexivity|]. split; [reflexivity|].
    vm_compute. reflexivity.
Qed.

(** C3 fails on the code: over the caller's own list [[5, 7]] with a quota of
    5, the first read goes past the end of the pool, yet the pass raises
    nothing and yields the partial batch [[5, 7]]. *)
Lemma noncircular_read_past_end_yields_partial_batch :
  ∃ s : WeightedFixedBatchSampler.t,
    WeightedFixedBatchSampler.__init__ pool57 [5] [0%nat] 1 false false
      zero_seed = Ok s
    ∧ Py.len (pool57 !!! 0%nat) < 0 + 5
    ∧ raised (WeightedFixedBatchSampler.__iter__ s pool57) = None
    ∧ yielded (WeightedFixedBatchSampler.__iter__ s pool57) = [[5; 7]]
    ∧ Py.len [5; 7] < Py.sum [5].
Proof.
  eexists. split; [reflexivity|]. split; [vm_compute; reflexivity|].
  split; [vm_compute; reflexivity|]. split; vm_compute; reflexivity.
Qed.

(** The same sampler: one batch, no exception. *)
Lemma noncircular_reads_truncate_witness :
  ∃ s : WeightedFixedBatchSampler.t,
    WeightedFixedBatchSampler.__init__ pool57 [5] [0%nat] 1 false false
      zero_seed = Ok s
    ∧ raised (WeightedFixedBatchSampler.__iter__ s pool57) = None
    ∧ length (yielded (WeightedFixedBatchSampler.__iter__ s pool57))
      = Z.to_nat 1.
Proof.
  eexists. split; [reflexivity|].
  pose proof (noncircular_reads_truncate pool57 [5] [0%nat] 1 zero_seed _
                eq_refl) as (Hr & Hlen & _).
  split; assumption.
Defined.

(** The second pass over a shuffling sampler on the pool [[5, 7]] with a quota
    of 5 and two batches. *)
Lemma circular_passes_full_batches_witness :
  ∃ s : WeightedFixedBatchSampler.t,
    WeightedFixedBatchSampler.__init__ pool57 [5] [0%nat] 2 true true
      zero_seed = Ok s
    ∧ let p := WeightedFixedBatchSampler.__iter__
                 (passes 1 s pool57).1 (passes 1 s pool57).2 in
      raised p = None ∧ Py.len (yielded p) = 2
      ∧ Forall (λ batch, Py.len batch = Py.sum [5]) (yielded p).
Proof.
  eexists. split; [reflexivity|].
  destruct (circular_passes_full_batches pool57 [5] [0%nat] 2 true zero_seed
              _ 1 eq_refl) as (Hr & Hlen & Hall & _).
  - repeat constructor. vm_compute. discriminate.
  - repeat constructor. lia.
  - lia.
  - split; [exact Hr|]. split; [exact Hlen|exact Hall].
Defined.

(** Two passes of three batches of one index over the pool [[5, 7]]. *)
Lemma unshuffled_passes_identical_witness :
  ∃ s : WeightedFixedBatchSampler.t,
    WeightedFixedBatchSampler.__init__ pool57 [1] [0%nat] 3 true false
      zero_seed = Ok s
    ∧ let p1 := WeightedFixedBatchSampler.__iter__ s pool57 in
      yielded (WeightedFixedBatchSampler.__iter__
                 (self_after p1) (heap_after p1))
      = yielded p1.
Proof.
  eexists. split; [reflexivity|].
  exact (proj1 (unshuffled_passes_identical pool57 [1] [0%nat] 3 true
                  zero_seed _ eq_refl)).
Defined.

(** Outside the factory: a sampler built directly with circular pools and a
    shuffle policy holds the caller's list itself, and one pass turns the
    caller's [[5, 7]] into [[7, 5]]. *)
Lemma shuffle_reorders_caller_list :
  ∃ s : WeightedFixedBatchSampler.t,
    WeightedFixedBatchSampler.__init__ pool57 [2] [0%nat] 1 true true
      zero_seed = Ok s
    ∧ pool57 !! 0%nat = Some [5; 7]
    ∧ (run_ops (Fixed s) pool57 [Iterate]).2 !! 0%nat = Some [7; 5]
    ∧ (run_ops (Fixed s) pool57 [Iterate]).2 ≠ pool57.
Proof.
  eexists. split; [reflexivity|]. split; [vm_compute; reflexivity|].
  match goal with
  | |- ?h !! 0%nat = Some _ ∧ _ =>
      assert (H75 : h !! 0%nat = Some [7; 5]) by (vm_compute; reflexivity)
  end.
  split; [exact H75|]. intros E. rewrite E in H75. vm_compute in H75.
  discriminate H75.
Qed.

(** Classes of sizes 3 and 7 through the factory: two passes and a length
    query. *)
Lemma class_partition_frame_witness :
  ∃ s : Sampler,
    SamplerFactory.get three_and_seven [0; 1]%nat 4 2 (1 # 2) "fixed"
      (λ _, Ok []) = Ok s
    ∧ (run_ops s three_and_seven [Iterate; Len; Iterate]).2 = three_and_seven.
Proof.
  eexists. split; [vm_compute; reflexivity|].
  exact (class_partition_frame three_and_seven [0; 1]%nat 4 2 (1 # 2) "fixed"
           (λ _, Ok []) _ [Iterate; Len; Iterate] eq_refl).
Defined.


(** Labels [[0, 0, 0, 1, 1]] and a requested batch size of 5: two classes get
    [round(2.5) = 2] samples each and the batches hold 4 indices. *)
Example data_loader_batch_of_four :
  ∃ (s : WeightedFixedBatchSampler.t) (h' : Heap),
    BalancedDataLoader.__init__ ascending ∅ [0; 0; 0; 1; 1] 5 true false zero_seed
    = Ok (s, h')
    ∧ WeightedFixedBatchSampler.batch_size s = 4
    ∧ Forall (λ batch, Py.len batch = 4)
        (yielded (WeightedFixedBatchSampler.__iter__ s h')).
Proof.
  eexists _, _. split; [vm_compute; reflexivity|].
  split; [reflexivity|]. vm_compute. repeat constructor.
Qed.


(** * Further properties of the code *)

(** ** Reading a circular pool *)

Lemma range_empty (start stop : Z) : stop ≤ start → Py.range start stop = [].
Proof.
  intros Hle. unfold Py.range. by replace (Z.to_nat (stop - start)) with O by lia.
Qed.

Lemma range_app (a b c : Z) :
  a ≤ b → b ≤ c → Py.range a b ++ Py.range b c = Py.range a c.
Proof.
  intros Hab Hbc. remember (Z.to_nat (b - a)) as n eqn:Hn.
  revert a Hab Hn. induction n as [|n IH]; intros a Hab Hn.
  - assert (a = b) as -> by lia. by rewrite (range_empty b b).
  - rewrite (range_cons a b), (range_cons a c) by lia. cbn.
    f_equal. apply IH; lia.
Qed.

Lemma range_shift (a b d : Z) :
  Py.range (a + d) (b + d) = (λ i, i + d) <$> Py.range a b.
Proof.
  unfold Py.range. rewrite <- list_fmap_compose.
  replace (b + d - (a + d)) with (b - a) by lia.
  apply list_fmap_ext. intros _ k _. cbn. lia.
Qed.

Lemma concat_fmap_fmap {A B} (f : A → B) (ls : list (list A)) :
  concat ((λ l : list A, f <$> l) <$> ls) = f <$> concat ls.
Proof.
  induction ls as [|l ls IH]; [done|]. cbn. by rewrite IH, fmap_app.
Qed.

Lemma concat_snoc {A} (ls : list (list A)) (l : list A) :
  concat (ls ++ [l]) = concat ls ++ l.
Proof. by rewrite concat_app; cbn; rewrite app_nil_r. Qed.

Lemma range_chunks (q : Z) (m : nat) :
  0 ≤ q →
  concat ((λ b, Py.range (b * q) (b * q + q)) <$> Py.range 0 (Z.of_nat m))
  = Py.range 0 (Z.of_nat m * q).
Proof.
  intros Hq. induction m as [|m IH]; [done|].
  rewrite <- (range_app 0 (Z.of_nat m) (Z.of_nat (S m))) by lia.
  rewrite (range_cons (Z.of_nat m)), (range_empty (Z.of_nat m + 1)) by lia.
  rewrite fmap_app.
  change ((λ b, Py.range (b * q) (b * q + q)) <$> [Z.of_nat m])
    with [Py.range (Z.of_nat m * q) (Z.of_nat m * q + q)].
  rewrite concat_snoc, IH.
  replace (Z.of_nat m * q + q) with (Z.of_nat (S m) * q) by lia.
  apply range_app; nia.
Qed.

(** X1. Reads of a circular pool compose: for [a <= b <= c] the read
    [pool[a:b]] followed by the read [pool[b:c]] is the read [pool[a:c]]. *)
Theorem circular_reads_compose (h : Heap) (cl : CircularList.t) (a b c : Z) :
  circular_wf h cl →
  h !!! CircularList._items cl ≠ [] →
  a ≤ b → b ≤ c →
  ∃ x y : list Z,
    CircularList.__getitem__slice cl h a b = Ok x
    ∧ CircularList.__getitem__slice cl h b c = Ok y
    ∧ CircularList.__getitem__slice cl h a c = Ok (x ++ y).
Proof.
  intros Hwf Hne Hab Hbc. pose proof (len_pos_nonempty _ Hne) as Hpos.
  eexists _, _.
  rewrite !circular_slice_ok by done.
  split; [done|]. split; [done|].
  by rewrite <- fmap_app, range_app.
Qed.

(** X2. A circular pool is periodic: shifting a key, or both ends of a
    slice, by any multiple of the pool length gives the same result. *)
Theorem circular_periodic (h : Heap) (cl : CircularList.t)
    (key start stop k : Z) :
  circular_wf h cl →
  h !!! CircularList._items cl ≠ [] →
  let n := Py.len (h !!! CircularList._items cl) in
  CircularList.__getitem__ cl h (key + k * n) = CircularList.__getitem__ cl h key
  ∧ CircularList.__getitem__slice cl h (start + k * n) (stop + k * n)
    = CircularList.__getitem__slice cl h start stop.
Proof.
  intros Hwf Hne n. pose proof (len_pos_nonempty _ Hne) as Hpos. fold n in Hpos.
  split.
  - rewrite !circular_getitem_total by done. fold n.
    by rewrite Z_mod_plus_full.
  - rewrite !circular_slice_ok by done. fold n.
    rewrite range_shift, <- list_fmap_compose.
    f_equal. apply list_fmap_ext. intros _ i _. cbn.
    by rewrite Z_mod_plus_full.
Qed.

Lemma circular_full_read (h : Heap) (cl : CircularList.t) :
  circular_wf h cl →
  h !!! CircularList._items cl ≠ [] →
  CircularList.__getitem__slice cl h 0 (Py.len (h !!! CircularList._items cl))
  = Ok (h !!! CircularList._items cl).
Proof.
  intros Hwf Hne. pose proof (len_pos_nonempty _ Hne) as Hpos.
  rewrite circular_slice_ok by done. f_equal.
  set (items := h !!! CircularList._items cl) in *.
  apply list_eq. intros i. rewrite list_lookup_fmap.
  destruct (decide (i < length items)%nat) as [Hi|Hi].
  - rewrite range_lookup by (unfold Py.len; lia).
    rewrite Z.add_0_l. cbn [fmap option_fmap option_map].
    rewrite Z.mod_small by (unfold Py.len; lia). rewrite Nat2Z.id.
    symmetry. by apply list_lookup_lookup_total_lt.
  - rewrite (lookup_ge_None_2 items) by lia.
    rewrite lookup_ge_None_2; [done|]. rewrite range_length.
    unfold Py.len. lia.
Qed.

(** X3. Over one pass the reads of a class, [quota] indices from
    [b * quota] for batch [b = 0 .. n - 1], laid end to end are the single
    read [pool[0 : n * quota]]; when [n * quota] is the size of the class
    they are the class list itself, every sample once and in order. *)
Theorem circular_epoch_coverage (h : Heap) (cl : CircularList.t) (q : Z)
    (n : nat) :
  circular_wf h cl →
  h !!! CircularList._items cl ≠ [] →
  0 ≤ q →
  ∃ (chunks : list (list Z)) (whole : list Z),
    mapM (λ b, CircularList.__getitem__slice cl h (b * q) (b * q + q))
      (Py.range 0 (Z.of_nat n))
    = Ok chunks
    ∧ CircularList.__getitem__slice cl h 0 (Z.of_nat n * q) = Ok whole
    ∧ concat chunks = whole
    ∧ (Z.of_nat n * q = Py.len (h !!! CircularList._items cl) →
       whole = h !!! CircularList._items cl).
Proof.
  intros Hwf Hne Hq. pose proof (len_pos_nonempty _ Hne) as Hpos.
  set (g := λ i, (h !!! CircularList._items cl)
                   !!! Z.to_nat (i `mod` Py.len (h !!! CircularList._items cl))).
  exists ((λ b, g <$> Py.range (b * q) (b * q + q)) <$> Py.range 0 (Z.of_nat n)),
    (g <$> Py.range 0 (Z.of_nat n * q)).
  split; [|split; [|split]].
  - apply mapM_Ok. intros b _. by apply circular_slice_ok.
  - by apply circular_slice_ok.
  - rewrite <- (range_chunks q n Hq), <- concat_fmap_fmap.
    by rewrite <- list_fmap_compose.
  - intros Hfull. pose proof (circular_full_read h cl Hwf Hne) as Hread.
    rewrite circular_slice_ok in Hread by done.
    injection Hread as Hread. subst g. by rewrite Hfull.
Qed.

(** X4. [CircularList.shuffle] reorders the list it refers to and nothing
    else: the list keeps its elements and its length, every other list of
    the heap is untouched, and indexing the pool afterwards still succeeds
    for every key, with an element the list held before. *)
Theorem circular_shuffle_in_place (h : Heap) (cl : CircularList.t)
    (rs : RandomState) :
  circular_wf h cl →
  let h' := (CircularList.shuffle cl rs h).1 in
  h' !!! CircularList._items cl ≡ₚ h !!! CircularList._items cl
  ∧ (∀ l : loc, l ≠ CircularList._items cl → h' !! l = h !! l)
  ∧ circular_wf h' cl
  ∧ (h !!! CircularList._items cl ≠ [] →
     ∀ key : Z, ∃ x : Z,
       CircularList.__getitem__ cl h' key = Ok x
       ∧ x ∈ h !!! CircularList._items cl).
Proof.
  intros Hwf h'.
  pose proof (circular_shuffle_perm cl rs h (CircularList._items cl)) as Hp.
  fold h' in Hp.
  assert (Hwf' : circular_wf h' cl).
  { unfold circular_wf, Py.len in *. by rewrite (Permutation_length Hp). }
  split; [done|]. split; [|split; [done|]].
  - intros l Hl. subst h'. unfold CircularList.shuffle.
    destruct (Rng.shuffle rs _) as [items' rs']. cbn.
    by rewrite lookup_insert_ne.
  - intros Hne key.
    assert (Hpos : 0 < Py.len (h' !!! CircularList._items cl)).
    { unfold Py.len. rewrite (Permutation_length Hp).
      by apply len_pos_nonempty. }
    destruct (circular_getitem_ok h' cl key Hwf' Hpos) as (x & Hx & Hin).
    exists x. split; [done|]. rewrite <- Hp.
    by apply list_elem_of_lookup_2 in Hin.
Qed.

(** ** Passes that fail *)

(** X5. A sampler built with [circular_list=False] and [shuffle=True] over at
    least one class cannot be iterated: every pass ends in [AttributeError]
    before any batch, since the caller's lists have no [shuffle] method; the
    lists and the sampler are left as they were. *)
Theorem noncircular_shuffle_fails (h : Heap) (quota : list Z) (idxs : list loc)
    (n : Z) (seed : nat → nat) (s : WeightedFixedBatchSampler.t) :
  WeightedFixedBatchSampler.__init__ h quota idxs n false true seed = Ok s →
  idxs ≠ [] →
  let p := WeightedFixedBatchSampler.__iter__ s h in
  raised p = Some AttributeError
  ∧ yielded p = []
  ∧ heap_after p = h
  ∧ self_after p = s.
Proof.
  intros Hinit Hne p.
  destruct (init_inv _ _ _ _ _ _ _ _ Hinit) as (_&_&_&_&_&_& Hpools & Hrs).
  subst p. unfold WeightedFixedBatchSampler.__iter__. rewrite Hrs, Hpools.
  destruct idxs as [|idx idxs]; [done|]. cbn.
  repeat split; try done.
  destruct s; cbn in *. by subst.
Qed.

Lemma circular_slice_cases (h : Heap) (cl : CircularList.t) (start stop : Z) :
  circular_wf h cl →
  (∃ out, CircularList.__getitem__slice cl h start stop = Ok out)
  ∨ (CircularList.__getitem__slice cl h start stop = Raise ZeroDivisionError
     ∧ h !!! CircularList._items cl = [] ∧ start < stop).
Proof.
  intros Hwf.
  destruct (decide (h !!! CircularList._items cl = [])) as [Hnil|Hne].
  - destruct (decide (start < stop)) as [Hlt|Hge].
    + right. split; [|done]. unfold CircularList.__getitem__slice.
      rewrite range_cons by done. cbn.
      unfold CircularList.__getitem__, Py.mod_. rewrite Hwf, Hnil. done.
    + left. exists []. unfold CircularList.__getitem__slice.
      by rewrite range_empty by lia.
  - left. eexists. apply circular_slice_ok; [done|by apply len_pos_nonempty].
Qed.

Lemma read_classes_empty_class (h : Heap) (pools : list ClassIdx) :
  Forall (λ cidx, ∃ cl, cidx = Circular cl ∧ circular_wf h cl) pools →
  ∀ (starts sizes : list Z) (c : nat) (cidx : ClassIdx) (start q : Z),
    pools !! c = Some cidx → starts !! c = Some start → sizes !! c = Some q →
    h !!! pool_of cidx = [] → 0 < q →
    read_classes pools h starts sizes = Raise ZeroDivisionError.
Proof.
  induction 1 as [|p pools (cl & -> & Hwf) _ IH];
    intros [|s0 starts] [|q0 sizes] c cidx start q Hp Hs Hq Hnil Hpos;
    try done.
  unfold read_classes in *. cbn.
  destruct c as [|c]; cbn in Hp, Hs, Hq.
  - injection Hp as <-. injection Hs as <-. injection Hq as <-.
    destruct (circular_slice_cases h cl s0 (s0 + q0) Hwf)
      as [[out Hout]|(-> & _)]; [|done].
    cbn in Hnil. unfold CircularList.__getitem__slice in Hout.
    rewrite range_cons in Hout by lia. cbn in Hout.
    unfold CircularList.__getitem__, Py.mod_ in Hout.
    by rewrite Hwf, Hnil in Hout.
  - destruct (circular_slice_cases h cl s0 (s0 + q0) Hwf)
      as [[out ->]|(-> & _)]; [|done].
    cbn. by rewrite (IH starts sizes c cidx start q).
Qed.

Lemma circular_wf_perm (h h' : Heap) (cl : CircularList.t) :
  heap_perm h h' → circular_wf h cl → circular_wf h' cl.
Proof.
  intros Hp Hwf. unfold circular_wf, Py.len in *.
  by rewrite (Permutation_length (Hp (CircularList._items cl))).
Qed.

Lemma shuffle_pools_all_circular (cs : list ClassIdx) :
  Forall (λ cidx, ∃ cl, cidx = Circular cl) cs →
  ∀ (rs : RandomState) (h : Heap),
    (WeightedFixedBatchSampler.shuffle_pools cs rs h).2 = None.
Proof.
  induction 1 as [|cidx cs [cl ->] _ IH]; intros rs h; [done|].
  cbn. destruct (CircularList.shuffle cl rs h) as [h' rs']. apply IH.
Qed.

(** The heap and the generator with which the batches of a pass are made,
    when every pool is circular. *)
Lemma iter_circular_start (h : Heap) (s : WeightedFixedBatchSampler.t) :
  Forall (λ cidx, ∃ cl, cidx = Circular cl)
    (WeightedFixedBatchSampler.class_idxs s) →
  ∃ (h' : Heap) (rs' : option RandomState),
    heap_perm h h'
    ∧ (WeightedFixedBatchSampler.random_state s = None → h' = h ∧ rs' = None)
    ∧ WeightedFixedBatchSampler.__iter__ s h
      = let s' := WeightedFixedBatchSampler.with_random_state s rs' in
        let '(bs, e, s'') :=
          WeightedFixedBatchSampler.batches s' h'
            (replicate (Z.to_nat (WeightedFixedBatchSampler.n_classes s')) 0)
            (Z.to_nat (WeightedFixedBatchSampler.n_batches s')) in
        {| yielded := bs; raised := e; heap_after := h'; self_after := s'' |}.
Proof.
  intros Hcirc. unfold WeightedFixedBatchSampler.__iter__.
  destruct (WeightedFixedBatchSampler.random_state s) as [rs|].
  - pose proof (shuffle_pools_perm
                  (WeightedFixedBatchSampler.class_idxs s) rs h) as Hp.
    pose proof (shuffle_pools_all_circular _ Hcirc rs h) as He.
    destruct (WeightedFixedBatchSampler.shuffle_pools _ rs h)
      as [[h' rs'] e]. cbn in Hp, He. subst e.
    exists h', (Some rs'). split; [done|]. split; done.
  - exists h, None. split; [apply heap_perm_refl|]. split; done.
Qed.

(** X6. A sampler over circular pools one of whose classes is empty while its
    quota is positive fails on the first batch of a pass with
    [ZeroDivisionError] (the modulus of the pool is 0), and yields nothing. *)
Theorem circular_empty_class_fails (h : Heap) (quota : list Z)
    (idxs : list loc) (n : Z) (shuffle : bool) (seed : nat → nat)
    (s : WeightedFixedBatchSampler.t) (c : nat) (idx : loc) (q : Z) :
  WeightedFixedBatchSampler.__init__ h quota idxs n true shuffle seed = Ok s →
  idxs !! c = Some idx →
  h !!! idx = [] →
  quota !! c = Some q →
  0 < q →
  0 < n →
  let p := WeightedFixedBatchSampler.__iter__ s h in
  raised p = Some ZeroDivisionError ∧ yielded p = [].
Proof.
  intros Hinit Hidx Hnil Hq Hpos Hn p.
  destruct (init_inv _ _ _ _ _ _ _ _ Hinit)
    as (Hquota & Hnb & Hnc & _ & Hlen & Hlen' & Hpools & _).
  assert (Hcirc : Forall (λ cidx, ∃ cl, cidx = Circular cl)
                    (WeightedFixedBatchSampler.class_idxs s)).
  { rewrite Hpools. apply Forall_fmap, Forall_forall. intros i _. by eexists. }
  destruct (iter_circular_start h s Hcirc) as (h' & rs' & Hp & _ & Hiter).
  subst p. rewrite Hiter. cbn. rewrite Hnb, Hnc.
  destruct (Z.to_nat n) as [|m] eqn:Hm; [lia|].
  cbn [WeightedFixedBatchSampler.batches].
  unfold WeightedFixedBatchSampler._get_batch.
  rewrite select_read_classes;
    [|cbn; rewrite Hquota; lia
     |cbn; rewrite Hquota, length_replicate; unfold Py.len; lia].
  rewrite !drop_0. cbn. rewrite Hquota, Hpools.
  assert (Hread :
    read_classes ((λ idx, Circular (CircularList.__init__ h idx)) <$> idxs) h'
      (replicate (Z.to_nat (Py.len quota)) 0) quota
    = Raise ZeroDivisionError).
  { eapply (λ H, read_classes_empty_class h' _ H _ _ c
                   (Circular (CircularList.__init__ h idx)) 0 q).
    - apply Forall_fmap, Forall_forall. intros i _. eexists. split; [done|].
      eapply circular_wf_perm; [exact Hp|apply circular_init_wf].
    - by rewrite list_lookup_fmap, Hidx.
    - apply lookup_replicate_2. apply lookup_lt_Some in Hq.
      unfold Py.len. lia.
    - done.
    - cbn. apply Permutation_nil_r. by rewrite (Hp idx), Hnil.
    - done. }
  unfold read_classes in Hread. by rewrite Hread.
Qed.

(** ** The class composition of a batch *)

Lemma read_classes_chunks (h0 h : Heap) (pools : list ClassIdx) :
  heap_perm h0 h →
  Forall (circular_ok h) pools →
  ∀ starts sizes : list Z,
    length starts = length pools →
    length sizes = length pools →
    ∃ chunks : list (list Z),
      read_classes pools h starts sizes = Ok chunks
      ∧ Forall2 (chunk_of h0) chunks (zip pools sizes).
Proof.
  intros Hp. induction 1 as [|cidx pools (cl & -> & Hwf & Hpos) _ IH];
    intros [|start starts] [|size sizes] Hs Hz; try done.
  - exists []. split; [done|constructor].
  - destruct (IH starts sizes) as (chunks & Hchunks & Hall);
      [by injection Hs|by injection Hz|].
    unfold read_classes in *. cbn.
    rewrite (circular_slice_ok h cl start (start + size) Hwf Hpos). cbn.
    rewrite Hchunks. cbn. eexists. split; [done|].
    constructor; [|done]. split; cbn.
    + unfold Py.len. rewrite length_fmap, range_length. lia.
    + apply Forall_fmap, Forall_forall. intros i _. cbn.
      rewrite <- (Hp (CircularList._items cl)).
      apply list_elem_of_lookup_total_2.
      pose proof (Z.mod_pos_bound i _ Hpos). unfold Py.len in *. lia.
Qed.

Lemma chunks_length {A} (h0 : Heap) (chunks : list (list Z)) :
  ∀ (pools : list A) (f : A → ClassIdx) (sizes : list Z),
    length pools = length sizes →
    Forall2 (λ chunk (c : A * Z), chunk_of h0 chunk (f c.1, c.2))
      chunks (zip pools sizes) →
    Py.len (concat chunks) = Py.sum (Z.max 0 <$> sizes).
Proof.
  induction chunks as [|chunk chunks IH];
    intros [|p pools] f [|q sizes] Hlen Hall; try done;
    try (by apply Forall2_length in Hall).
  cbn in Hall. apply Forall2_cons in Hall as [[Hc _] Hall].
  change (Py.sum (Z.max 0 <$> q :: sizes))
    with (Z.max 0 q + Py.sum (Z.max 0 <$> sizes)).
  rewrite <- (IH pools f sizes) by (done || by injection Hlen).
  cbn in Hc. unfold Py.len in *. cbn [concat]. rewrite length_app. lia.
Qed.

Section composition.

Import WeightedFixedBatchSampler.

Variable h0 : Heap.

Lemma circular_pools_config (h h' : Heap) (s s' : t) :
  same_config s s' → heap_perm h h' → circular_pools h s →
  circular_pools h' s'.
Proof.
  intros (Hq & Hc & _ & Hn & _) Hp (Hlen & Hnc & Hok).
  unfold circular_pools. rewrite Hq, Hc, Hn. repeat split; try done.
  eapply Forall_impl; [exact Hok|]. intros c. by apply circular_ok_perm.
Qed.

Lemma get_batch_composed (h : Heap) (self : t) (start_idxs : list Z) :
  heap_perm h0 h →
  circular_pools h self →
  length start_idxs = length (class_samples_per_batch self) →
  ∃ (batch : list Z) (self' : t),
    _get_batch self h start_idxs = Ok (batch, self')
    ∧ composed h0 self batch
    ∧ same_config self self'.
Proof.
  intros Hp (Hlen & Hnc & Hok) Hs. unfold _get_batch.
  rewrite select_read_classes by lia. rewrite !drop_0.
  destruct (read_classes_chunks h0 h _ Hp Hok start_idxs
              (class_samples_per_batch self)) as (chunks & -> & Hall);
    [lia|lia|].
  cbn. destruct (random_state self) as [rs|].
  - pose proof (shuffle_Permutation rs (concat chunks)) as Hsh.
    destruct (Rng.shuffle rs (concat chunks)) as [selected rs'].
    cbn in Hsh. exists selected, (with_random_state self (Some rs')).
    split; [done|]. split; [by exists chunks|].
    apply same_config_with_random_state.
  - exists (concat chunks), self.
    split; [done|]. split; [by exists chunks|]. apply same_config_refl.
Qed.

Lemma batches_composed (h : Heap) (n : nat) :
  heap_perm h0 h →
  ∀ (self : t) (start_idxs : list Z),
    circular_pools h self →
    length start_idxs = length (class_samples_per_batch self) →
    ∃ (bs : list (list Z)) (self' : t),
      batches self h start_idxs n = (bs, None, self')
      ∧ length bs = n
      ∧ Forall (composed h0 self) bs
      ∧ same_config self self'.
Proof.
  intros Hp. induction n as [|n IH]; intros self start_idxs Hinv Hs.
  - exists [], self.
    split; [done|]. split; [done|]. split; [done|]. apply same_config_refl.
  - destruct (get_batch_composed h self start_idxs Hp Hinv Hs)
      as (batch & self1 & Hb & Hcomp & Hcfg).
    cbn [batches]. rewrite Hb.
    pose proof (circular_pools_config h h self self1 Hcfg (heap_perm_refl h)
                  Hinv) as Hinv1.
    destruct Hcfg as (Hq & Hc & Hrest).
    destruct (IH self1 (zip_with Z.add start_idxs
                          (class_samples_per_batch self1)) Hinv1)
      as (bs & self2 & -> & Hn & Hall & Hcfg2).
    { rewrite length_zip_with. rewrite Hq. lia. }
    exists (batch :: bs), self2. split; [done|]. split; [|split].
    + cbn. by rewrite Hn.
    + constructor; [done|]. eapply Forall_impl; [exact Hall|].
      intros b (chunks & Hb1 & Hb2). exists chunks. split; [done|].
      by rewrite <- Hq, <- Hc.
    + eapply same_config_trans; [|exact Hcfg2]. by split.
Qed.

Lemma iter_composed (h : Heap) (s : t) :
  heap_perm h0 h →
  circular_pools h s →
  let p := __iter__ s h in
  raised p = None
  ∧ length (yielded p) = Z.to_nat (n_batches s)
  ∧ Forall (composed h0 s) (yielded p)
  ∧ same_config s (self_after p)
  ∧ heap_perm h (heap_after p)
  ∧ circular_pools (heap_after p) (self_after p).
Proof.
  intros Hp Hinv.
  assert (Hcirc : Forall (λ cidx, ∃ cl, cidx = Circular cl) (class_idxs s)).
  { destruct Hinv as (_ & _ & Hok). eapply Forall_impl; [exact Hok|].
    intros c (cl & -> & _). by exists cl. }
  destruct (iter_circular_start h s Hcirc) as (h' & rs' & Hp' & _ & Hiter).
  cbn. rewrite Hiter.
  pose proof (same_config_with_random_state s rs') as Hcfg1.
  pose proof (circular_pools_config h h' _ _ Hcfg1 Hp' Hinv) as Hinv1.
  destruct (batches_composed h'
              (Z.to_nat (n_batches (with_random_state s rs')))
              (heap_perm_trans _ _ _ Hp Hp')
              (with_random_state s rs')
              (replicate (Z.to_nat (n_classes (with_random_state s rs'))) 0)
              Hinv1)
    as (bs & s2 & Hb & Hn & Hall & Hcfg2).
  { rewrite length_replicate. destruct Hinv1 as (_ & -> & _).
    unfold Py.len. by rewrite Nat2Z.id. }
  cbn zeta. rewrite Hb. cbn.
  split; [done|]. split; [done|]. split; [done|]. split; [|split; [done|]].
  - eapply same_config_trans; [exact Hcfg1|exact Hcfg2].
  - eapply circular_pools_config; [exact Hcfg2|apply heap_perm_refl|exact Hinv1].
Qed.

Lemma passes_composed (k : nat) :
  ∀ (s : t) (h : Heap),
    heap_perm h0 h →
    circular_pools h s →
    circular_pools (passes k s h).2 (passes k s h).1
    ∧ same_config s (passes k s h).1
    ∧ heap_perm h0 (passes k s h).2.
Proof.
  induction k as [|k IH]; intros s h Hp Hinv.
  - split; [done|]. split; [apply same_config_refl|done].
  - destruct (iter_composed h s Hp Hinv) as (_ & _ & _ & Hcfg & Hp' & Hinv').
    destruct (IH _ _ (heap_perm_trans _ _ _ Hp Hp') Hinv')
      as (Hinv'' & Hcfg' & Hp'').
    cbn [passes]. split; [done|]. split; [|done].
    eapply same_config_trans; [exact Hcfg|exact Hcfg'].
Qed.

End composition.

Lemma zip_fmap_fst {A B C} (f : A → B) (l : list A) (k : list C) :
  zip (f <$> l) k = (λ p : A * C, (f p.1, p.2)) <$> zip l k.
Proof.
  revert k. induction l as [|x l IH]; intros [|y k]; try done.
  cbn. by rewrite IH.
Qed.

Lemma passes_unshuffled (k : nat) (s : WeightedFixedBatchSampler.t) (h : Heap) :
  WeightedFixedBatchSampler.random_state s = None →
  passes k s h = (s, h).
Proof.
  intros Hrs. induction k as [|k IH]; [done|].
  cbn [passes]. by destruct (iter_unshuffled_frame h s Hrs) as [-> ->].
Qed.

(** X7. Over circular pools on non-empty classes every batch of every pass
    is made of one chunk per class, in class order when there is no shuffle
    policy and reordered otherwise: the chunk of class [c] holds
    [max(quota[c], 0)] indices, all of them from the caller's list of class
    [c]. A quota that is negative contributes nothing, so a batch has
    [sum(max(quota[c], 0))] indices. *)
Theorem circular_batch_composition (h : Heap) (quota : list Z)
    (idxs : list loc) (n : Z) (shuffle : bool) (seed : nat → nat)
    (s : WeightedFixedBatchSampler.t) (k : nat) :
  WeightedFixedBatchSampler.__init__ h quota idxs n true shuffle seed = Ok s →
  Forall (λ idx, h !!! idx ≠ []) idxs →
  let p := WeightedFixedBatchSampler.__iter__
             (passes k s h).1 (passes k s h).2 in
  raised p = None
  ∧ length (yielded p) = Z.to_nat n
  ∧ Forall
      (λ batch,
         Py.len batch = Py.sum (Z.max 0 <$> quota)
         ∧ ∃ chunks : list (list Z),
             batch ≡ₚ concat chunks
             ∧ (shuffle = false → batch = concat chunks)
             ∧ Forall2
                 (λ chunk (c : loc * Z),
                    Py.len chunk = Z.max 0 c.2
                    ∧ Forall (λ x, x ∈ h !!! c.1) chunk)
                 chunks (zip idxs quota))
      (yielded p).
Proof.
  intros Hinit Hne p.
  destruct (init_inv _ _ _ _ _ _ _ _ Hinit)
    as (Hq & Hnb & Hnc & _ & Hlen & Hlen' & Hpools & Hrs).
  assert (Hinv : circular_pools h s).
  { unfold circular_pools. rewrite Hq, Hnc, Hpools.
    split; [by rewrite <- Hpools|]. split; [done|].
    apply Forall_fmap. eapply Forall_impl; [exact Hne|].
    intros idx Hidx. exists (CircularList.__init__ h idx).
    split; [done|]. split; [done|]. by apply len_pos_nonempty. }
  destruct (passes_composed h k s h (heap_perm_refl h) Hinv)
    as (Hinv_k & Hcfg_k & Hp_k).
  destruct (iter_composed h _ _ Hp_k Hinv_k) as (Hr & Hn & Hall & _).
  fold p in Hr, Hn, Hall.
  destruct Hcfg_k as (Hq_k & Hc_k & Hnb_k & _).
  rewrite Hnb_k, Hnb in Hn.
  split; [done|]. split; [done|].
  assert (Hshape : ∀ chunks,
    Forall2 (chunk_of h) chunks
      (zip (WeightedFixedBatchSampler.class_idxs (passes k s h).1)
           (WeightedFixedBatchSampler.class_samples_per_batch (passes k s h).1)) →
    Forall2 (λ chunk (c : loc * Z),
               chunk_of h chunk
                 (Circular (CircularList.__init__ h c.1), c.2))
      chunks (zip idxs quota)).
  { intros chunks Hchunks. rewrite Hq_k, Hc_k, Hq, Hpools in Hchunks.
    rewrite zip_fmap_fst, Forall2_fmap_r in Hchunks.
    eapply Forall2_impl; [exact Hchunks|]. by intros chunk [idx q]. }
  assert (Hnone : shuffle = false →
                  heap_after p = (passes k s h).2
                  ∧ WeightedFixedBatchSampler.random_state (passes k s h).1
                    = None).
  { intros ->. cbn in Hrs.
    assert (Hk : WeightedFixedBatchSampler.random_state (passes k s h).1
                 = None) by (by rewrite passes_unshuffled).
    split; [|done]. by apply iter_unshuffled_frame. }
  rewrite Forall_forall. intros batch Hbatch.
  pose proof Hall as Hall'. rewrite Forall_forall in Hall'.
  destruct (Hall' batch Hbatch) as (chunks & Hperm & Hchunks).
  pose proof (Hshape chunks Hchunks) as Hsh.
  split.
  - unfold Py.len. rewrite (Permutation_length Hperm).
    by apply (chunks_length h chunks idxs
                (λ idx, Circular (CircularList.__init__ h idx)) quota).
  - destruct shuffle.
    + exists chunks. split; [done|]. split; [done|]. exact Hsh.
    + destruct (Hnone eq_refl) as [_ Hrs_k].
      pose proof (iter_unshuffled (passes k s h).1 (passes k s h).2 Hrs_k
                    ltac:(apply Hinv_k) ltac:(apply Hinv_k)) as Hiter.
      fold p in Hiter. rewrite Hiter in Hbatch. cbn in Hbatch.
      apply list_elem_of_lookup in Hbatch as [b Hb].
      apply until_error_lookup in Hb. rewrite list_lookup_fmap in Hb.
      destruct (Py.range 0 _ !! b) as [i|]; [|done]. cbn in Hb.
      injection Hb as Hb. unfold batch_of in Hb.
      destruct (read_classes_chunks h (passes k s h).2
                  (WeightedFixedBatchSampler.class_idxs (passes k s h).1)
                  Hp_k ltac:(apply Hinv_k)
                  ((λ q, i * q)
                     <$> WeightedFixedBatchSampler.class_samples_per_batch
                           (passes k s h).1)
                  (WeightedFixedBatchSampler.class_samples_per_batch
                     (passes k s h).1))
        as (chunks' & Hread & Hchunks');
        [rewrite length_fmap; symmetry; apply Hinv_k
        |symmetry; apply Hinv_k|].
      rewrite Hread in Hb. cbn in Hb. injection Hb as <-.
      exists chunks'. split; [done|]. split; [done|]. by apply Hshape.
Qed.

(** ** Reading the caller's own lists *)

Lemma slice_nonneg {A} (l : list A) (a b : Z) :
  0 ≤ a → a ≤ b →
  Py.slice l a b = take (Z.to_nat (b - a)) (drop (Z.to_nat a) l).
Proof.
  intros Ha Hab. unfold Py.slice, Py.clamp, Py.len.
  destruct (Z.ltb_spec a 0), (Z.ltb_spec b 0); try lia.
  destruct (decide (Z.of_nat (length l) ≤ a)) as [Hge|Hlt].
  - rewrite !drop_ge by lia. by rewrite !take_nil.
  - replace (a `min` Z.of_nat (length l)) with a by lia.
    destruct (decide (b ≤ Z.of_nat (length l))) as [Hb|Hb].
    + by replace (b `min` Z.of_nat (length l)) with b by lia.
    + rewrite !take_ge; [done|rewrite length_drop; lia|rewrite length_drop; lia].
Qed.

(** X8. Over the caller's own list the reads of a class during a pass,
    [quota] indices from [b * quota] for batch [b = 0 .. n - 1], are
    consecutive pieces of the list: laid end to end they are its first
    [n * quota] entries, so no sample is read twice, and they are the whole
    list as soon as [n * quota] reaches its length. *)
Theorem plain_epoch_coverage (h : Heap) (idx : loc) (q : Z) (n : nat) :
  0 ≤ q →
  ∃ chunks : list (list Z),
    mapM (λ b, ClassIdx.getitem_slice (PlainList idx) h (b * q) (b * q + q))
      (Py.range 0 (Z.of_nat n))
    = Ok chunks
    ∧ concat chunks = take (Z.to_nat (Z.of_nat n * q)) (h !!! idx)
    ∧ (Py.len (h !!! idx) ≤ Z.of_nat n * q → concat chunks = h !!! idx).
Proof.
  intros Hq.
  exists ((λ b, Py.slice (h !!! idx) (b * q) (b * q + q))
            <$> Py.range 0 (Z.of_nat n)).
  split; [by apply mapM_Ok|].
  assert (Hcat :
    concat ((λ b, Py.slice (h !!! idx) (b * q) (b * q + q))
              <$> Py.range 0 (Z.of_nat n))
    = take (Z.to_nat (Z.of_nat n * q)) (h !!! idx)).
  { induction n as [|n IH]; [done|].
    rewrite <- (range_app 0 (Z.of_nat n) (Z.of_nat (S n))) by lia.
    rewrite (range_cons (Z.of_nat n)), (range_empty (Z.of_nat n + 1)) by lia.
    rewrite fmap_app.
    change ((λ b, Py.slice (h !!! idx) (b * q) (b * q + q)) <$> [Z.of_nat n])
      with [Py.slice (h !!! idx) (Z.of_nat n * q) (Z.of_nat n * q + q)].
    rewrite concat_snoc, IH, slice_nonneg by nia.
    replace (Z.of_nat n * q + q - Z.of_nat n * q) with q by lia.
    rewrite take_take_drop. f_equal. nia. }
  split; [done|]. intros Hlen. rewrite Hcat.
  apply take_ge. unfold Py.len in Hlen. lia.
Qed.

(** ** The planner: how far the quotas are from the weights *)

Ltac qcompare_spec H :=
  match type of H with
  | _ = Eq => apply Qeq_alt in H
  | _ = Lt => apply Qlt_alt in H
  | _ = Gt => apply Qgt_alt in H
  end.

Lemma round_floor (x : Q) : Qfloor x ≤ Np.round x ≤ Qfloor x + 1.
Proof.
  unfold Np.round. destruct (_ ?= _)%Q; [destruct (Z.even _)|..]; lia.
Qed.

Lemma round_error (x : Q) :
  (inject_Z (Np.round x) - (1 # 2) <= x)%Q
  ∧ (x <= inject_Z (Np.round x) + (1 # 2))%Q.
Proof.
  pose proof (Qfloor_le x) as Hlo. pose proof (Qlt_floor x) as Hhi.
  rewrite inject_Z_plus in Hhi. change (inject_Z 1) with 1%Q in Hhi.
  unfold Np.round.
  destruct (x - inject_Z (Qfloor x) ?= 1 # 2)%Q eqn:Hcmp.
  - apply Qeq_alt in Hcmp. destruct (Z.even _).
    + split; lra.
    + rewrite inject_Z_plus. change (inject_Z 1) with 1%Q. split; lra.
  - apply Qlt_alt in Hcmp. split; lra.
  - apply Qgt_alt in Hcmp. rewrite inject_Z_plus.
    change (inject_Z 1) with 1%Q. split; lra.
Qed.

Lemma round_mono (x y : Q) : (x <= y)%Q → Np.round x ≤ Np.round y.
Proof.
  intros Hxy. pose proof (Qfloor_resp_le _ _ Hxy) as Hf.
  destruct (decide (Qfloor x = Qfloor y)) as [Heq|Hne].
  - unfold Np.round. rewrite Heq.
    destruct (x - inject_Z (Qfloor y) ?= 1 # 2)%Q eqn:Hx;
      destruct (y - inject_Z (Qfloor y) ?= 1 # 2)%Q eqn:Hy;
      try (destruct (Z.even _)); try lia;
      qcompare_spec Hx; qcompare_spec Hy; exfalso; lra.
  - pose proof (round_floor x). pose proof (round_floor y). lia.
Qed.

Lemma raw_quota_sum_error (batch_size : Z) (weights : list Q) :
  (inject_Z (Py.sum (SamplerFactory.raw_quota weights batch_size))
   - inject_Z (Py.len weights) * (1 # 2)
   <= Np.qsum weights * inject_Z batch_size)%Q
  ∧ (Np.qsum weights * inject_Z batch_size
     <= inject_Z (Py.sum (SamplerFactory.raw_quota weights batch_size))
        + inject_Z (Py.len weights) * (1 # 2))%Q.
Proof.
  induction weights as [|w weights [IH1 IH2]].
  - change ((0 - 0 * (1 # 2) <= 0 * inject_Z batch_size)%Q
            ∧ (0 * inject_Z batch_size <= 0 + 0 * (1 # 2))%Q).
    split; lra.
  - change (Py.sum (SamplerFactory.raw_quota (w :: weights) batch_size))
      with (Np.round (w * inject_Z batch_size)
            + Py.sum (SamplerFactory.raw_quota weights batch_size)).
    change (Np.qsum (w :: weights)) with (w + Np.qsum weights)%Q.
    replace (Py.len (w :: weights)) with (1 + Py.len weights)
      by (unfold Py.len; cbn [length]; lia).
    rewrite !inject_Z_plus. change (inject_Z 1) with 1%Q.
    destruct (round_error (w * inject_Z batch_size)) as [E1 E2].
    split; lra.
Qed.

Lemma qsum_all_lt (a : Q) (l : list Q) :
  l ≠ [] → Forall (λ w, (w < a)%Q) l →
  (Np.qsum l < a * inject_Z (Py.len l))%Q.
Proof.
  intros Hne Hall. induction Hall as [|w l Hw Hall IH]; [done|].
  change (Np.qsum (w :: l)) with (w + Np.qsum l)%Q.
  replace (Py.len (w :: l)) with (1 + Py.len l)
    by (unfold Py.len; cbn [length]; lia).
  rewrite inject_Z_plus. change (inject_Z 1) with 1%Q.
  destruct l as [|w' l].
  - change (w + 0 < a * (1 + 0))%Q. lra.
  - specialize (IH ltac:(done)). lra.
Qed.

Lemma exists_ge_or_all_lt (a : Q) (l : list Q) :
  (∃ w, w ∈ l ∧ (a <= w)%Q) ∨ Forall (λ w, (w < a)%Q) l.
Proof.
  induction l as [|w l [(w' & Hin & Hw')|IH]].
  - right. constructor.
  - left. exists w'. split; [by right|done].
  - destruct (Qlt_le_dec w a) as [Hlt|Hge].
    + right. by constructor.
    + left. exists w. split; [by left|done].
Qed.

(** One of the weights of a vector that sums to 1 is at least [1/C]. *)
Lemma weight_above_uniform (weights : list Q) :
  (Np.qsum weights == 1)%Q →
  ∃ w, w ∈ weights ∧ (1 / inject_Z (Py.len weights) <= w)%Q.
Proof.
  intros Hone.
  destruct (exists_ge_or_all_lt (1 / inject_Z (Py.len weights)) weights)
    as [H|Hall]; [done|exfalso].
  pose proof (qsum_one_nonempty _ Hone) as Hne.
  pose proof (qsum_all_lt _ _ Hne Hall) as Hlt.
  assert (HC : ¬ (inject_Z (Py.len weights) == 0)%Q).
  { intros E. unfold Qeq in E. cbn in E. destruct weights; [done|].
    unfold Py.len in E. cbn in E. lia. }
  assert (E : (1 / inject_Z (Py.len weights) * inject_Z (Py.len weights)
               == 1)%Q) by (by field).
  rewrite E, Hone in Hlt. by apply Qlt_irrefl in Hlt.
Qed.

Lemma remainder_bound (weights : list Q) (batch_size : Z) :
  (Np.qsum weights == 1)%Q →
  - Py.len weights
  ≤ 2 * (batch_size - Py.sum (SamplerFactory.raw_quota weights batch_size))
  ≤ Py.len weights.
Proof.
  intros Hone.
  destruct (raw_quota_sum_error batch_size weights) as [E1 E2].
  rewrite Hone in E1, E2.
  set (s := Py.sum _) in *. set (C := Py.len weights) in *.
  assert (inject_Z (2 * s) <= inject_Z (2 * batch_size + C))%Q as H1.
  { rewrite inject_Z_plus, !inject_Z_mult. change (inject_Z 2) with 2%Q.
    lra. }
  assert (inject_Z (2 * batch_size) <= inject_Z (2 * s + C))%Q as H2.
  { rewrite inject_Z_plus, !inject_Z_mult. change (inject_Z 2) with 2%Q.
    lra. }
  rewrite <- Zle_Qle in H1, H2. lia.
Qed.

(** X9. For weights that sum to 1 the planner is accurate to half a sample
    per class: the remainder it has to place is at most half the number of
    classes in absolute value, every class but the corrected one gets a
    quota within 1/2 of [weight * batch_size], and the corrected class is
    within [(C + 1) / 2] of it. *)
Theorem fix_batches_accuracy (weights : list Q) (class_sizes : list Z)
    (batch_size n_batches : Z) :
  (Np.qsum weights == 1)%Q →
  let raw := (λ w, Np.round (w * inject_Z batch_size)) <$> weights in
  let C := Py.len weights in
  ∃ (quota : list Z) (k : nat),
    SamplerFactory._fix_batches weights class_sizes batch_size n_batches
    = Ok quota
    ∧ Np.argmax raw = Ok k
    ∧ - C ≤ 2 * (batch_size - Py.sum raw) ≤ C
    ∧ (∀ (c : nat) (w : Q) (q : Z),
         c ≠ k → weights !! c = Some w → quota !! c = Some q →
         (inject_Z q - (1 # 2) <= w * inject_Z batch_size)%Q
         ∧ (w * inject_Z batch_size <= inject_Z q + (1 # 2))%Q)
    ∧ (∀ (w : Q) (q : Z),
         weights !! k = Some w → quota !! k = Some q →
         (inject_Z q - (inject_Z C + 1) * (1 # 2) <= w * inject_Z batch_size)%Q
         ∧ (w * inject_Z batch_size
            <= inject_Z q + (inject_Z C + 1) * (1 # 2))%Q).
Proof.
  intros Hone raw C.
  destruct (fix_batches_nonempty weights class_sizes batch_size n_batches
              (qsum_one_nonempty _ Hone))
    as (quota & k & m & Hq & Hk & Hm & _ & _ & -> & _).
  fold raw in Hk, Hm.
  assert (Hrem : - C ≤ 2 * (batch_size - Py.sum raw) ≤ C)
    by (by apply remainder_bound).
  exists (alter (λ q, q + (batch_size - Py.sum raw)) k raw), k.
  split; [done|]. split; [done|]. split; [done|]. split.
  - intros c w q Hc Hw Hqc. rewrite list_lookup_alter_ne in Hqc by done.
    subst raw. rewrite list_lookup_fmap, Hw in Hqc. injection Hqc as <-.
    apply round_error.
  - intros w q Hw Hqk. rewrite list_lookup_alter_eq in Hqk.
    subst raw. rewrite list_lookup_fmap, Hw in Hqk. cbn in Hqk.
    injection Hqk as <-.
    destruct (round_error (w * inject_Z batch_size)) as [E1 E2].
    set (r := Np.round (w * inject_Z batch_size)) in *.
    set (s := Py.sum _) in *.
    assert (inject_Z (2 * (batch_size - s)) <= inject_Z C)%Q as H1
      by (rewrite <- Zle_Qle; lia).
    assert (inject_Z (- C) <= inject_Z (2 * (batch_size - s)))%Q as H2
      by (rewrite <- Zle_Qle; lia).
    rewrite inject_Z_mult in H1, H2. rewrite inject_Z_opp in H2.
    change (inject_Z 2) with 2%Q in H1, H2.
    rewrite inject_Z_plus. split; lra.
Qed.

Lemma fix_batches_sign (weights : list Q) (class_sizes : list Z)
    (batch_size n_batches : Z) :
  Forall (Qle 0) weights →
  (Np.qsum weights == 1)%Q →
  0 ≤ batch_size →
  let raw := (λ w, Np.round (w * inject_Z batch_size)) <$> weights in
  let C := Py.len weights in
  ∃ (quota : list Z) (k : nat),
    SamplerFactory._fix_batches weights class_sizes batch_size n_batches
    = Ok quota
    ∧ Np.argmax raw = Ok k
    ∧ (∀ (c : nat) (q : Z), c ≠ k → quota !! c = Some q → 0 ≤ q)
    ∧ (C * (C + 1) ≤ 2 * batch_size → Forall (λ q, 0 ≤ q) quota).
Proof.
  intros Hw0 Hone Hbs raw C.
  destruct (fix_batches_nonempty weights class_sizes batch_size n_batches
              (qsum_one_nonempty _ Hone))
    as (quota & k & m & Hq & Hk & Hm & Hmax & _ & -> & _).
  fold raw in Hk, Hm, Hmax.
  pose proof (remainder_bound weights batch_size Hone) as Hrem.
  change (SamplerFactory.raw_quota weights batch_size) with raw in Hrem.
  fold C in Hrem.
  assert (Hbsq : (0 <= inject_Z batch_size)%Q)
    by (change (inject_Z 0 <= inject_Z batch_size)%Q; by rewrite <- Zle_Qle).
  assert (Hraw0 : ∀ (c : nat) (q : Z), raw !! c = Some q → 0 ≤ q).
  { intros c q Hc. subst raw. rewrite list_lookup_fmap in Hc.
    destruct (weights !! c) as [w|] eqn:Hw; [|done]. injection Hc as <-.
    apply round_nonneg, Qmult_le_0_compat; [|done].
    rewrite Forall_lookup in Hw0. by apply (Hw0 c). }
  exists (alter (λ q, q + (batch_size - Py.sum raw)) k raw), k.
  split; [done|]. split; [done|]. split.
  - intros c q Hc Hqc. rewrite list_lookup_alter_ne in Hqc by done.
    by apply (Hraw0 c).
  - intros Hlarge. apply Forall_lookup. intros c q Hqc.
    destruct (decide (c = k)) as [->|Hne];
      [|rewrite list_lookup_alter_ne in Hqc by done; by apply (Hraw0 c)].
    rewrite list_lookup_alter_eq, Hm in Hqc. injection Hqc as <-.
    assert (HC : 0 < C).
    { subst C. pose proof (qsum_one_nonempty _ Hone).
      destruct weights; [done|]. unfold Py.len. cbn. lia. }
    assert (HCq : (0 < inject_Z C)%Q)
      by (change (inject_Z 0 < inject_Z C)%Q; by rewrite <- Zlt_Qlt).
    destruct (weight_above_uniform weights Hone) as (w & Hin & Hw).
    fold C in Hw. apply list_elem_of_lookup in Hin as [c Hc].
    assert (Hrc : raw !! c = Some (Np.round (w * inject_Z batch_size)))
      by (subst raw; by rewrite list_lookup_fmap, Hc).
    pose proof (Hmax c _ Hrc) as Hle.
    assert (Hmono : Np.round (1 / inject_Z C * inject_Z batch_size)
                    ≤ Np.round (w * inject_Z batch_size))
      by (apply round_mono, Qmult_le_compat_r; done).
    destruct (round_error (1 / inject_Z C * inject_Z batch_size)) as [_ E].
    set (r := Np.round (1 / inject_Z C * inject_Z batch_size)) in *.
    assert (Hlq : (inject_Z (C * (C + 1)) <= inject_Z (2 * batch_size))%Q)
      by (by rewrite <- Zle_Qle).
    rewrite !inject_Z_mult, inject_Z_plus in Hlq.
    change (inject_Z 2) with 2%Q in Hlq. change (inject_Z 1) with 1%Q in Hlq.
    assert (Hdiv : ((inject_Z C + 1) * (1 # 2)
                    <= 1 / inject_Z C * inject_Z batch_size)%Q).
    { assert (Hx : (1 / inject_Z C * inject_Z batch_size
                    == inject_Z batch_size / inject_Z C)%Q)
        by (field; intros E0; rewrite E0 in HCq; by apply Qlt_irrefl in HCq).
      rewrite Hx. apply Qle_shift_div_l; [done|]. lra. }
    assert (Hr : (inject_Z C <= inject_Z (2 * r))%Q).
    { rewrite inject_Z_mult. change (inject_Z 2) with 2%Q. lra. }
    rewrite <- Zle_Qle in Hr. lia.
Qed.

(** X10. For non-negative weights that sum to 1 and a batch size that is not
    negative, only the corrected class can get a negative quota, and none
    does when the batch size is at least [C * (C + 1) / 2] for [C] classes:
    the planner then returns counts. *)
Theorem fix_batches_quota_sign (weights : list Q) (class_sizes : list Z)
    (batch_size n_batches : Z) :
  Forall (Qle 0) weights →
  (Np.qsum weights == 1)%Q →
  0 ≤ batch_size →
  let raw := (λ w, Np.round (w * inject_Z batch_size)) <$> weights in
  let C := Py.len weights in
  ∃ (quota : list Z) (k : nat),
    SamplerFactory._fix_batches weights class_sizes batch_size n_batches
    = Ok quota
    ∧ Np.argmax raw = Ok k
    ∧ (∀ (c : nat) (q : Z), c ≠ k → quota !! c = Some q → 0 ≤ q)
    ∧ (C * (C + 1) ≤ 2 * batch_size → Forall (λ q, 0 ≤ q) quota).
Proof. apply fix_batches_sign. Qed.

(** ** The factory: what it accepts and what it returns *)

Lemma weight_classes_empty (h : Heap) (alpha : Q) :
  SamplerFactory._weight_classes h [] alpha = Raise ZeroDivisionError.
Proof. done. Qed.

Lemma weight_classes_bad_alpha (h : Heap) (class_idxs : list loc) (alpha : Q) :
  class_idxs ≠ [] →
  ¬ ((0 <= alpha)%Q ∧ (alpha <= 1)%Q) →
  SamplerFactory._weight_classes h class_idxs alpha = Raise AssertionError.
Proof.
  intros Hne Hbad. unfold SamplerFactory._weight_classes.
  destruct (Z.eqb_spec (Py.len class_idxs) 0) as [Hz|_].
  { destruct class_idxs; [done|]. unfold Py.len in Hz. cbn in Hz. lia. }
  cbn. unfold SamplerFactory._balance_weights.
  destruct (Qle_bool 0 alpha) eqn:H0; [|done].
  destruct (Qle_bool alpha 1) eqn:H1; [|done].
  exfalso. apply Hbad. by rewrite <- !Qle_bool_iff.
Qed.

(** X11. The factory checks its arguments in a fixed order. A [kind] other
    than ['random'] and ['fixed'] is refused with an exception that names it,
    whatever the other arguments; for the two kinds an empty partition ends
    in [ZeroDivisionError], and a partition that is not empty with [alpha]
    outside [0, 1] in [AssertionError]. *)
Theorem factory_rejects (h : Heap) (class_idxs : list loc)
    (batch_size n_batches : Z) (alpha : Q) (kind : string)
    (torch_sampler : nat → result (list Z)) :
  (kind ≠ "random" → kind ≠ "fixed" →
   SamplerFactory.get h class_idxs batch_size n_batches alpha kind
     torch_sampler
   = Raise (Exception
              ("Received kind " +:+ kind +:+ ", must be `random` or `fixed`")))
  ∧ (kind = "random" ∨ kind = "fixed" → class_idxs = [] →
     SamplerFactory.get h class_idxs batch_size n_batches alpha kind
       torch_sampler
     = Raise ZeroDivisionError)
  ∧ (kind = "random" ∨ kind = "fixed" → class_idxs ≠ [] →
     ¬ ((0 <= alpha)%Q ∧ (alpha <= 1)%Q) →
     SamplerFactory.get h class_idxs batch_size n_batches alpha kind
       torch_sampler
     = Raise AssertionError).
Proof.
  unfold SamplerFactory.get. split; [|split].
  - intros Hr Hf. apply String.eqb_neq in Hr, Hf. by rewrite Hr, Hf.
  - intros [->| ->] ->; cbn; done.
  - intros Hkind Hne Hbad.
    pose proof (weight_classes_bad_alpha h class_idxs alpha Hne Hbad) as Hw.
    destruct Hkind as [->| ->]; cbn.
    + unfold SamplerFactory.random. by rewrite Hw.
    + unfold SamplerFactory.fixed. by rewrite Hw.
Qed.

(** The weights that [_weight_classes] computes for a partition. *)
Lemma factory_fixed_init (h : Heap) (class_idxs : list loc)
    (batch_size n_batches : Z) (alpha : Q) :
  class_idxs ≠ [] →
  (0 <= alpha)%Q → (alpha <= 1)%Q →
  let class_sizes := SamplerFactory.class_lens h class_idxs in
  let weights :=
    (λ size, alpha * (1 / inject_Z (Py.len class_idxs))
             + (1 - alpha) * (inject_Z size / inject_Z (Py.sum class_sizes)))%Q
      <$> class_sizes in
  ∃ (quota : list Z) (s : WeightedFixedBatchSampler.t),
    SamplerFactory._fix_batches weights class_sizes batch_size n_batches
    = Ok quota
    ∧ Py.sum quota = batch_size
    ∧ WeightedFixedBatchSampler.__init__ h quota class_idxs n_batches
        true false (λ _, O) = Ok s
    ∧ SamplerFactory.fixed h class_idxs batch_size n_batches alpha = Ok s.
Proof.
  intros Hne H0 H1 class_sizes weights. unfold SamplerFactory.fixed.
  rewrite weight_classes_ok by done. cbn. fold class_sizes weights.
  assert (Hwlen : length weights = length class_idxs)
    by (subst weights class_sizes; unfold SamplerFactory.class_lens;
        by rewrite !length_fmap).
  assert (Hwne : weights ≠ [])
    by (intros E; rewrite E in Hwlen; by destruct class_idxs).
  destruct (fix_batches_nonempty weights class_sizes batch_size n_batches Hwne)
    as (quota & k & m & Hfix & _ & _ & _ & _ & Hquota & Hsum).
  rewrite Hfix. cbn.
  assert (Hqlen : length quota = length class_idxs)
    by (rewrite Hquota, length_alter, length_fmap; done).
  destruct (WeightedFixedBatchSampler.__init__ h quota class_idxs n_batches
              true false (λ _, O)) as [s|e] eqn:Hinit.
  - by exists quota, s.
  - exfalso. unfold WeightedFixedBatchSampler.__init__ in Hinit.
    destruct (Z.eqb_spec (Py.len quota)
                (Py.len ((λ idx, Circular (CircularList.__init__ h idx))
                           <$> class_idxs))) as [_|Hbad]; [done|].
    apply Hbad. unfold Py.len. rewrite length_fmap. lia.
Qed.

(** X12. For a partition that is not empty, with no empty class, and [alpha]
    in [0, 1], [fixed] always returns a sampler, whatever the batch size:
    both assertions on its way hold. The sampler has one quota per class,
    its [batch_size] is the one asked for, its length is [n_batches], its
    pools are circular pools around the caller's lists, and it has no
    shuffle policy. *)
Theorem factory_fixed_succeeds (h : Heap) (class_idxs : list loc)
    (batch_size n_batches : Z) (alpha : Q) :
  class_idxs ≠ [] →
  Forall (λ idx, h !!! idx ≠ []) class_idxs →
  (0 <= alpha)%Q → (alpha <= 1)%Q →
  ∃ s : WeightedFixedBatchSampler.t,
    SamplerFactory.fixed h class_idxs batch_size n_batches alpha = Ok s
    ∧ WeightedFixedBatchSampler.batch_size s = batch_size
    ∧ WeightedFixedBatchSampler.__len__ s = n_batches
    ∧ length (WeightedFixedBatchSampler.class_samples_per_batch s)
      = length class_idxs
    ∧ WeightedFixedBatchSampler.class_idxs s
      = (λ idx, Circular (CircularList.__init__ h idx)) <$> class_idxs
    ∧ WeightedFixedBatchSampler.random_state s = None.
Proof.
  intros Hne _ H0 H1.
  destruct (factory_fixed_init h class_idxs batch_size n_batches alpha
              Hne H0 H1) as (quota & s & _ & Hsum & Hinit & Hfixed).
  destruct (init_inv _ _ _ _ _ _ _ _ Hinit)
    as (Hq & Hnb & _ & Hbs & _ & Hlen & Hpools & Hrs).
  exists s. split; [done|]. split; [congruence|]. split; [done|].
  split; [by rewrite Hq|]. split; done.
Qed.

(** X13. A sampler that [get] returns is of the kind asked for, and its
    length is [n_batches]. *)
Theorem factory_get_kind_and_length (h : Heap) (class_idxs : list loc)
    (batch_size n_batches : Z) (alpha : Q) (kind : string)
    (torch_sampler : nat → result (list Z)) (s : Sampler) :
  SamplerFactory.get h class_idxs batch_size n_batches alpha kind torch_sampler
  = Ok s →
  sampler_len s = n_batches
  ∧ ((kind = "fixed" ∧ ∃ f, s = Fixed f)
     ∨ (kind = "random" ∧ ∃ r, s = Random r)).
Proof.
  unfold SamplerFactory.get.
  destruct (String.eqb_spec kind "random") as [->|_].
  - destruct (SamplerFactory.random _ _ _ _ _ _) as [r|] eqn:Hr; cbn; [|done].
    intros [= <-]. split; [|right; eauto].
    unfold SamplerFactory.random in Hr.
    destruct (SamplerFactory._weight_classes _ _ _) as [[sizes weights]|];
      cbn in Hr; [|done].
    unfold WeightedRandomBatchSampler.__init__ in Hr.
    destruct (WeightedRandomBatchSampler.extend_weights _ _ _ _ _);
      cbn in Hr; [|done].
    destruct (batch_size <=? 0); cbn in Hr; [done|]. by injection Hr as <-.
  - destruct (String.eqb_spec kind "fixed") as [->|_]; [|done].
    destruct (SamplerFactory.fixed _ _ _ _ _) as [f|] eqn:Hf; cbn; [|done].
    intros [= <-]. split; [|left; eauto].
    unfold SamplerFactory.fixed in Hf.
    destruct (SamplerFactory._weight_classes _ _ _) as [[sizes weights]|];
      cbn in Hf; [|done].
    destruct (SamplerFactory._fix_batches _ _ _ _) as [quota|];
      cbn in Hf; [|done].
    by destruct (init_inv _ _ _ _ _ _ _ _ Hf) as (_ & ? & _).
Qed.

Lemma blended_weights_valid (h : Heap) (class_idxs : list loc) (alpha : Q) :
  class_idxs ≠ [] →
  Forall (λ idx, h !!! idx ≠ []) class_idxs →
  (0 <= alpha)%Q → (alpha <= 1)%Q →
  let class_sizes := SamplerFactory.class_lens h class_idxs in
  let weights :=
    (λ size, alpha * (1 / inject_Z (Py.len class_idxs))
             + (1 - alpha) * (inject_Z size / inject_Z (Py.sum class_sizes)))%Q
      <$> class_sizes in
  Forall (λ s, 1 ≤ s) class_sizes
  ∧ 0 < Py.sum class_sizes
  ∧ Forall (Qle 0) weights
  ∧ (Np.qsum weights == 1)%Q.
Proof.
  intros Hne Hcls H0 H1 class_sizes weights.
  assert (Hsz : Forall (λ s, 1 ≤ s) class_sizes).
  { subst class_sizes. unfold SamplerFactory.class_lens.
    apply Forall_fmap. eapply Forall_impl; [exact Hcls|].
    intros idx Hidx. cbn. pose proof (len_pos_nonempty _ Hidx). lia. }
  pose proof (class_lens_len h class_idxs) as Hlen. fold class_sizes in Hlen.
  assert (HC : 0 < Py.len class_idxs)
    by (destruct class_idxs; [done|]; unfold Py.len; cbn; lia).
  pose proof (sum_ge_len _ Hsz) as HN.
  assert (HCq : (0 < inject_Z (Py.len class_idxs))%Q)
    by (change (inject_Z 0 < inject_Z (Py.len class_idxs))%Q;
        by rewrite <- Zlt_Qlt).
  assert (HNq : (0 < inject_Z (Py.sum class_sizes))%Q)
    by (change (inject_Z 0 < inject_Z (Py.sum class_sizes))%Q;
        rewrite <- Zlt_Qlt; lia).
  assert (HC0 : ¬ (inject_Z (Py.len class_idxs) == 0)%Q)
    by (intros E; rewrite E in HCq; discriminate).
  assert (HN0 : ¬ (inject_Z (Py.sum class_sizes) == 0)%Q)
    by (intros E; rewrite E in HNq; discriminate).
  split; [done|]. split; [lia|]. split.
  - apply Forall_fmap, Forall_forall. intros size Hin. cbn.
    rewrite Forall_forall in Hsz. specialize (Hsz size Hin).
    assert (0 <= inject_Z size)%Q as Hs
      by (change (inject_Z 0 <= inject_Z size)%Q; rewrite <- Zle_Qle; lia).
    assert (0 <= 1 - alpha)%Q as Hb by lra.
    apply (Qplus_le_compat 0 _ 0); apply Qmult_le_0_compat; try done.
    + apply Qle_shift_div_l; [done|]. lra.
    + apply Qle_shift_div_l; [done|]. lra.
  - subst weights. rewrite qsum_affine by done. rewrite Hlen. by field.
Qed.

(** X14. End to end: for a partition of [C] classes, none of them empty,
    [alpha] in [0, 1] and a batch size of at least [C * (C + 1) / 2], the
    sampler that [fixed] returns can be iterated any number of times, and
    every pass gives exactly [n_batches] batches of exactly [batch_size]
    indices. *)
Theorem factory_fixed_full_batches (h : Heap) (class_idxs : list loc)
    (batch_size n_batches : Z) (alpha : Q) (k : nat) :
  class_idxs ≠ [] →
  Forall (λ idx, h !!! idx ≠ []) class_idxs →
  (0 <= alpha)%Q → (alpha <= 1)%Q →
  0 ≤ n_batches →
  Py.len class_idxs * (Py.len class_idxs + 1) ≤ 2 * batch_size →
  ∃ s : WeightedFixedBatchSampler.t,
    SamplerFactory.fixed h class_idxs batch_size n_batches alpha = Ok s
    ∧ let p := WeightedFixedBatchSampler.__iter__
                 (passes k s h).1 (passes k s h).2 in
      raised p = None
      ∧ Py.len (yielded p) = n_batches
      ∧ Forall (λ batch, Py.len batch = batch_size) (yielded p).
Proof.
  intros Hne Hcls H0 H1 Hn Hlarge.
  destruct (factory_fixed_init h class_idxs batch_size n_batches alpha
              Hne H0 H1) as (quota & s & Hfix & Hsum & Hinit & Hfixed).
  destruct (blended_weights_valid h class_idxs alpha Hne Hcls H0 H1)
    as (_ & _ & Hw0 & Hone).
  set (weights := _ <$> SamplerFactory.class_lens h class_idxs) in *.
  assert (HC : Py.len weights = Py.len class_idxs).
  { subst weights. unfold Py.len, SamplerFactory.class_lens.
    by rewrite !length_fmap. }
  assert (Hbs : 0 ≤ batch_size) by (unfold Py.len in *; nia).
  destruct (fix_batches_sign weights (SamplerFactory.class_lens h class_idxs)
              batch_size n_batches Hw0 Hone Hbs)
    as (quota' & k' & Hfix' & _ & _ & Hall).
  rewrite Hfix in Hfix'. injection Hfix' as <-.
  rewrite HC in Hall. specialize (Hall Hlarge).
  exists s. split; [done|]. intros p.
  pose proof (init_circular_inv _ _ _ _ _ _ _ Hinit Hcls Hall) as Hinv.
  destruct (init_inv _ _ _ _ _ _ _ _ Hinit) as (Hq & Hnb & _).
  destruct (passes_circular k s h Hinv) as (Hinv_k & Hcfg_k & _).
  destruct (iter_circular _ _ Hinv_k) as (Hr & Hlen & Hbatches & _).
  fold p in Hr, Hlen, Hbatches.
  destruct Hcfg_k as (Hq_k & _ & Hnb_k & _).
  rewrite Hq_k, Hq, Hsum in Hbatches. rewrite Hnb_k, Hnb in Hlen.
  split; [done|]. split; [unfold Py.len; lia|done].
Qed.

(** ** The random sampler *)

Lemma qsum_app (l1 l2 : list Q) :
  (Np.qsum (l1 ++ l2) == Np.qsum l1 + Np.qsum l2)%Q.
Proof.
  induction l1 as [|x l1 IH].
  - change (Np.qsum l2 == 0 + Np.qsum l2)%Q. ring.
  - change (x + Np.qsum (l1 ++ l2) == x + Np.qsum l1 + Np.qsum l2)%Q.
    rewrite IH. ring.
Qed.

Lemma qsum_replicate (n : nat) (x : Q) :
  (Np.qsum (replicate n x) == inject_Z (Z.of_nat n) * x)%Q.
Proof.
  induction n as [|n IH].
  - change (0 == 0 * x)%Q. ring.
  - change (x + Np.qsum (replicate n x) == inject_Z (Z.of_nat (S n)) * x)%Q.
    rewrite IH, Nat2Z.inj_succ. unfold Z.succ. rewrite inject_Z_plus.
    change (inject_Z 1) with 1%Q. ring.
Qed.

Lemma extend_weights_spec (h : Heap) (class_idxs : list loc) :
  ∀ (class_weights : list Q) (c : nat) (acc : list Q),
    (c + length class_weights ≤ length class_idxs)%nat →
    WeightedRandomBatchSampler.extend_weights h class_idxs c class_weights acc
    = Ok (acc
          ++ concat (zip_with
                       (λ idxs weight, replicate (length (h !!! idxs)) weight)
                       (drop c class_idxs) class_weights)).
Proof.
  induction class_weights as [|w ws IH]; intros c acc Hc.
  - cbn. by rewrite zip_with_nil_r, app_nil_r.
  - cbn [length] in Hc.
    destruct (lookup_lt_is_Some_2 class_idxs c) as [idx Hidx]; [lia|].
    cbn [WeightedRandomBatchSampler.extend_weights]. rewrite Hidx.
    rewrite IH by lia. rewrite (drop_S _ _ _ Hidx). cbn.
    by rewrite app_assoc.
Qed.

Lemma expanded_rates (h : Heap) (F : Z → Q) (l : list loc) :
  Forall (λ idx, h !!! idx ≠ []) l →
  Forall (λ idx, (0 <= F (Py.len (h !!! idx)))%Q) l →
  let sw :=
    concat ((λ idx, replicate (length (h !!! idx))
                      (F (Py.len (h !!! idx)) / inject_Z (Py.len (h !!! idx)))%Q)
              <$> l) in
  length sw = length (concat ((λ idx, h !!! idx) <$> l))
  ∧ (Np.qsum sw == Np.qsum ((λ idx, F (Py.len (h !!! idx))) <$> l))%Q
  ∧ Forall (Qle 0) sw.
Proof.
  intros Hne. induction Hne as [|idx l Hidx Hne IH]; intros HF sw.
  - subst sw. by repeat split.
  - apply Forall_cons in HF as [HF0 HF]. destruct (IH HF) as (IH1 & IH2 & IH3).
    pose proof (len_pos_nonempty _ Hidx) as Hpos.
    assert (Hposq : (0 < inject_Z (Py.len (h !!! idx)))%Q)
      by (change (inject_Z 0 < inject_Z (Py.len (h !!! idx)))%Q;
          by rewrite <- Zlt_Qlt).
    subst sw. cbn [fmap list_fmap concat]. split; [|split].
    + rewrite !length_app, length_replicate. by rewrite IH1.
    + rewrite qsum_app, qsum_replicate, IH2.
      change (Np.qsum (?x :: ?r)) with (x + Np.qsum r)%Q.
      fold (Py.len (h !!! idx)).
      apply Qplus_comp; [|reflexivity]. field.
      intros E. rewrite E in Hposq. by apply Qlt_irrefl in Hposq.
    + apply Forall_app. split; [|done]. apply Forall_replicate.
      apply Qle_shift_div_l; [done|]. by rewrite Qmult_0_l.
Qed.

(** X15. For a partition with no empty class, [alpha] in [0, 1] and a
    positive batch size, [random] returns a sampler over a copy of all the
    indices, class after class, with one weight per index; the weights are
    not negative and sum to 1, each class sharing its class weight equally
    among its samples. *)
Theorem factory_random_weights (h : Heap) (class_idxs : list loc)
    (batch_size n_batches : Z) (alpha : Q)
    (torch_sampler : nat → result (list Z)) :
  class_idxs ≠ [] →
  Forall (λ idx, h !!! idx ≠ []) class_idxs →
  (0 <= alpha)%Q → (alpha <= 1)%Q →
  0 < batch_size →
  ∃ r : WeightedRandomBatchSampler.t,
    SamplerFactory.random h class_idxs batch_size n_batches alpha torch_sampler
    = Ok r
    ∧ WeightedRandomBatchSampler.sample_idxs r
      = concat ((λ idx, h !!! idx) <$> class_idxs)
    ∧ length (WeightedRandomBatchSampler.sample_weights r)
      = length (WeightedRandomBatchSampler.sample_idxs r)
    ∧ (Np.qsum (WeightedRandomBatchSampler.sample_weights r) == 1)%Q
    ∧ Forall (Qle 0) (WeightedRandomBatchSampler.sample_weights r)
    ∧ WeightedRandomBatchSampler.num_samples r = batch_size
    ∧ WeightedRandomBatchSampler.__len__ r = n_batches.
Proof.
  intros Hne Hcls H0 H1 Hbs.
  destruct (blended_weights_valid h class_idxs alpha Hne Hcls H0 H1)
    as (_ & _ & Hw0 & Hone).
  unfold SamplerFactory.random. rewrite weight_classes_ok by done. cbn.
  set (F := (λ size : Z,
               alpha * (1 / inject_Z (Py.len class_idxs))
               + (1 - alpha)
                 * (inject_Z size
                    / inject_Z (Py.sum (SamplerFactory.class_lens h class_idxs))))%Q)
    in *.
  assert (Hrates :
    SamplerFactory._sample_rates (F <$> SamplerFactory.class_lens h class_idxs)
      (SamplerFactory.class_lens h class_idxs)
    = (λ idx, F (Py.len (h !!! idx)) / inject_Z (Py.len (h !!! idx)))%Q
        <$> class_idxs).
  { unfold SamplerFactory._sample_rates, SamplerFactory.class_lens.
    rewrite zip_with_fmap_l, zip_with_diag, <- list_fmap_compose. done. }
  rewrite Hrates. unfold WeightedRandomBatchSampler.__init__.
  rewrite extend_weights_spec by (rewrite length_fmap; lia).
  rewrite drop_0, zip_with_fmap_r, zip_with_diag. cbn.
  destruct (Z.leb_spec batch_size 0) as [|_]; [lia|]. cbn.
  eexists. split; [done|]. cbn.
  destruct (expanded_rates h F class_idxs Hcls) as (E1 & E2 & E3).
  { unfold SamplerFactory.class_lens in Hw0.
    rewrite <- list_fmap_compose, Forall_fmap in Hw0. exact Hw0. }
  split; [done|]. split; [done|]. split; [|split; [done|split; done]].
  rewrite E2. unfold SamplerFactory.class_lens in Hone.
  by rewrite <- list_fmap_compose in Hone.
Qed.

Lemma random_batches (n : nat) :
  ∀ r : WeightedRandomBatchSampler.t,
    (∀ k : nat, ∃ idxs : list Z,
       WeightedRandomBatchSampler.sampler r k = Ok idxs
       ∧ Py.len idxs = WeightedRandomBatchSampler.num_samples r
       ∧ Forall (λ i, 0 ≤ i < Py.len (WeightedRandomBatchSampler.sample_idxs r))
           idxs) →
    ∃ (bs : list (list Z)) (r' : WeightedRandomBatchSampler.t),
      WeightedRandomBatchSampler.batches r n = (bs, None, r')
      ∧ length bs = n
      ∧ Forall (λ batch,
                  Py.len batch = WeightedRandomBatchSampler.num_samples r
                  ∧ Forall (λ x, x ∈ WeightedRandomBatchSampler.sample_idxs r)
                      batch) bs
      ∧ WeightedRandomBatchSampler.sample_idxs r'
        = WeightedRandomBatchSampler.sample_idxs r
      ∧ WeightedRandomBatchSampler.sampler_calls r'
        = (WeightedRandomBatchSampler.sampler_calls r + n)%nat.
Proof.
  induction n as [|n IH]; intros r Hdraw.
  - exists [], r. repeat split; try done.
  - destruct (Hdraw (WeightedRandomBatchSampler.sampler_calls r))
      as (idxs & Hidxs & Hlen & Hrange).
    cbn [WeightedRandomBatchSampler.batches]. rewrite Hidxs. cbn.
    rewrite (mapM_Ok _
               (λ i, WeightedRandomBatchSampler.sample_idxs r !!! Z.to_nat i)).
    2:{ intros i Hi. rewrite Forall_forall in Hrange.
        destruct (index_in_range _ i (Hrange i Hi)) as (x & -> & Hx).
        by rewrite (list_lookup_total_correct _ _ _ Hx). }
    destruct (IH (WeightedRandomBatchSampler.tick r) Hdraw)
      as (bs & r' & -> & Hn & Hall & Hsame & Hcalls).
    eexists _, r'. split; [done|]. cbn in *. split; [by rewrite Hn|].
    split; [|split; [done|lia]].
    constructor; [|done]. split.
    + unfold Py.len in *. by rewrite length_fmap.
    + apply Forall_fmap, Forall_forall. intros i Hi. cbn.
      rewrite Forall_forall in Hrange. specialize (Hrange i Hi).
      apply list_elem_of_lookup_total_2. unfold Py.len in Hrange. lia.
Qed.

(** X16. Whenever the weighted draws it is given are lists of [batch_size]
    positions of the sample list, a pass of the random sampler ends without
    an exception after exactly [n_batches] batches of [batch_size] indices,
    every one of them an index of the partition; it changes neither the
    caller's lists nor its own copy, so it can be iterated again. *)
Theorem random_pass_batches (r : WeightedRandomBatchSampler.t) (h : Heap) :
  (∀ k : nat, ∃ idxs : list Z,
     WeightedRandomBatchSampler.sampler r k = Ok idxs
     ∧ Py.len idxs = WeightedRandomBatchSampler.num_samples r
     ∧ Forall (λ i, 0 ≤ i < Py.len (WeightedRandomBatchSampler.sample_idxs r))
         idxs) →
  let p := WeightedRandomBatchSampler.__iter__ r h in
  raised p = None
  ∧ length (yielded p) = Z.to_nat (WeightedRandomBatchSampler.n_batches r)
  ∧ Forall (λ batch,
              Py.len batch = WeightedRandomBatchSampler.num_samples r
              ∧ Forall (λ x, x ∈ WeightedRandomBatchSampler.sample_idxs r)
                  batch) (yielded p)
  ∧ heap_after p = h
  ∧ WeightedRandomBatchSampler.sample_idxs (self_after p)
    = WeightedRandomBatchSampler.sample_idxs r.
Proof.
  intros Hdraw p. subst p. unfold WeightedRandomBatchSampler.__iter__.
  destruct (random_batches
              (Z.to_nat (WeightedRandomBatchSampler.n_batches r)) r Hdraw)
    as (bs & r' & -> & Hn & Hall & Hsame & _).
  cbn. repeat split; done.
Qed.

(** ** The data loader: classes, number of batches, failures *)

Lemma elem_of_where_eq (labels : list Z) (l i : Z) :
  i ∈ BalancedDataLoader.where_eq labels l
  ↔ ∃ k : nat, i = Z.of_nat k ∧ labels !! k = Some l.
Proof.
  unfold BalancedDataLoader.where_eq. rewrite list_elem_of_omap. split.
  - intros ([k x] & Hin & Hf). cbn in Hf.
    apply elem_of_lookup_imap in Hin as (k' & x' & [= -> ->] & Hk).
    destruct (decide (x' = l)) as [->|]; [|done].
    injection Hf as <-. by exists k'.
  - intros (k & -> & Hk). exists (k, l). split.
    + apply elem_of_lookup_imap. by exists k, l.
    + cbn. by rewrite decide_True.
Qed.

Lemma where_eq_snoc (labels : list Z) (x l : Z) :
  BalancedDataLoader.where_eq (labels ++ [x]) l
  = BalancedDataLoader.where_eq labels l
    ++ (if decide (x = l) then [Z.of_nat (length labels)] else []).
Proof.
  unfold BalancedDataLoader.where_eq. rewrite imap_app, omap_app. f_equal.
  cbn. rewrite Nat.add_0_r. by destruct (decide (x = l)).
Qed.

Lemma where_eq_NoDup (labels : list Z) (l : Z) :
  NoDup (BalancedDataLoader.where_eq labels l).
Proof.
  induction labels as [|x labels IH] using rev_ind; [constructor|].
  rewrite where_eq_snoc. apply NoDup_app. split; [done|]. split.
  - intros i Hi Hin. apply elem_of_where_eq in Hi as (k & -> & Hk).
    apply lookup_lt_Some in Hk.
    destruct (decide (x = l)); [|by apply not_elem_of_nil in Hin].
    apply list_elem_of_singleton in Hin. lia.
  - destruct (decide (x = l)); [apply NoDup_singleton|constructor].
Qed.

Lemma elem_of_concat {A} (x : A) (ls : list (list A)) :
  x ∈ concat ls ↔ ∃ l, l ∈ ls ∧ x ∈ l.
Proof.
  induction ls as [|l ls IH]; cbn.
  - split; [by intros ?%not_elem_of_nil|by intros (? & ?%not_elem_of_nil & _)].
  - rewrite elem_of_app, IH. split.
    + intros [H|(l' & H1 & H2)]; [exists l; split; [by left|done]|].
      exists l'. split; [by right|done].
    + intros (l' & [->|H1]%elem_of_cons & H2); [by left|right; eauto].
Qed.

(** X17. The index arrays that the data loader builds, one for each distinct
    label, split the positions [0 .. N - 1] of the dataset into classes: a
    position is in the array of a label exactly when the dataset has that
    label there, no array repeats a position, and the arrays together hold
    every position exactly once. *)
Theorem data_loader_classes_partition (labels : list Z) :
  (∀ l i : Z,
     i ∈ BalancedDataLoader.where_eq labels l
     ↔ 0 ≤ i ∧ labels !! Z.to_nat i = Some l)
  ∧ (∀ l : Z, NoDup (BalancedDataLoader.where_eq labels l))
  ∧ concat ((λ l, BalancedDataLoader.where_eq labels l)
              <$> elements (list_to_set labels : gset Z))
    ≡ₚ Z.of_nat <$> seq 0 (length labels).
Proof.
  split; [|split].
  - intros l i. rewrite elem_of_where_eq. split.
    + intros (k & -> & Hk). rewrite Nat2Z.id. split; [lia|done].
    + intros [Hi Hl]. exists (Z.to_nat i). split; [lia|done].
  - apply where_eq_NoDup.
  - apply list.NoDup_Permutation.
    + pose proof (NoDup_elements (list_to_set labels : gset Z)) as Hnd.
      induction Hnd as [|l ls Hl Hnd IH]; [constructor|].
      change (NoDup (BalancedDataLoader.where_eq labels l
                     ++ concat ((λ l, BalancedDataLoader.where_eq labels l)
                                  <$> ls))).
      apply NoDup_app. split; [apply where_eq_NoDup|]. split; [|done].
      intros i Hi Hin. apply elem_of_concat in Hin as (l' & Hl' & Hin).
      apply list_elem_of_fmap in Hl' as (b & -> & Hb).
      apply elem_of_where_eq in Hi as (k & -> & Hk).
      apply elem_of_where_eq in Hin as (k' & Hkk & Hk').
      assert (k' = k) as -> by lia. congruence.
    + apply NoDup_fmap_2; [apply _|apply NoDup_seq].
    + intros i. rewrite elem_of_concat, list_elem_of_fmap. split.
      * intros (ls & (l & -> & _)%list_elem_of_fmap & Hi).
        apply elem_of_where_eq in Hi as (k & -> & Hk).
        exists k. split; [done|]. apply elem_of_seq.
        apply lookup_lt_Some in Hk. lia.
      * intros (k & -> & Hk%elem_of_seq).
        destruct (lookup_lt_is_Some_2 labels k) as [l Hl]; [lia|].
        exists (BalancedDataLoader.where_eq labels l). split.
        -- apply list_elem_of_fmap. exists l. split; [done|].
           apply elem_of_elements, elem_of_list_to_set.
           by apply list_elem_of_lookup_2 in Hl.
        -- apply elem_of_where_eq. by exists k.
Qed.

Lemma data_loader_init_inv (iter_set : gset Z → list Z)
    (h : Heap) (labels : list Z) (batch_size : Z)
    (circular_list shuffle : bool) (seed : nat → nat)
    (s : WeightedFixedBatchSampler.t) (h' : Heap) :
  BalancedDataLoader.__init__ iter_set h labels batch_size circular_list
    shuffle seed
  = Ok (s, h') →
  let n_labels := Z.of_nat (size (list_to_set labels : gset Z)) in
  let q := Np.round (inject_Z batch_size / inject_Z n_labels) in
  0 < n_labels
  ∧ n_labels * q ≠ 0
  ∧ ∃ locs : list loc,
      BalancedDataLoader.alloc_all h
        ((λ l, BalancedDataLoader.where_eq labels l)
           <$> iter_set (list_to_set labels : gset Z))
      = (h', locs)
      ∧ WeightedFixedBatchSampler.__init__ h'
          (replicate (Z.to_nat n_labels) q) locs
          (Np.ceil (inject_Z (Py.len labels) / inject_Z (n_labels * q)))
          circular_list shuffle seed
        = Ok s.
Proof.
  intros Hinit n_labels q. unfold BalancedDataLoader.__init__ in Hinit.
  fold n_labels in Hinit.
  destruct (BalancedDataLoader.alloc_all h _) as [h1 locs].
  destruct (Z.eqb_spec n_labels 0) as [|Hn0]; [done|]. cbn in Hinit.
  fold q in Hinit.
  destruct (Z.eqb_spec (Py.sum (replicate (Z.to_nat n_labels) q)) 0)
    as [|Hsum0]; [done|]. cbn in Hinit.
  rewrite sum_replicate, Z2Nat.id in Hinit, Hsum0 by lia.
  destruct (WeightedFixedBatchSampler.__init__ h1 _ locs _ _ _ _)
    as [s1|] eqn:Hs1; [|done]. cbn in Hinit.
  injection Hinit as -> ->.
  split; [lia|]. split; [done|]. by exists locs.
Qed.

(** X18. The number of batches that the data loader asks for is the least
    one whose batches cover the dataset: for a positive requested batch size,
    with [total] the batch size of the sampler,
    [(n_batches - 1) * total < len(labels) <= n_batches * total]. *)
Theorem data_loader_epoch_covers (iter_set : gset Z → list Z)
    (h : Heap) (labels : list Z) (batch_size : Z)
    (circular_list shuffle : bool) (seed : nat → nat)
    (s : WeightedFixedBatchSampler.t) (h' : Heap) :
  BalancedDataLoader.__init__ iter_set h labels batch_size circular_list
    shuffle seed
  = Ok (s, h') →
  0 < batch_size →
  let total := WeightedFixedBatchSampler.batch_size s in
  let n := WeightedFixedBatchSampler.__len__ s in
  0 < total
  ∧ (n - 1) * total < Py.len labels
  ∧ Py.len labels ≤ n * total.
Proof.
  intros Hinit Hbs total n.
  destruct (data_loader_init_inv _ _ _ _ _ _ _ _ _ Hinit)
    as (Hn0 & Hnq & locs & _ & Hs).
  destruct (init_inv _ _ _ _ _ _ _ _ Hs) as (_ & Hnb & _ & Hsum & _).
  rewrite sum_replicate, Z2Nat.id in Hsum by lia.
  set (n_labels := Z.of_nat (size (list_to_set labels : gset Z))) in *.
  set (q := Np.round (inject_Z batch_size / inject_Z n_labels)) in *.
  assert (Hq : 0 ≤ q).
  { apply round_nonneg. apply Qle_shift_div_l.
    - change (inject_Z 0 < inject_Z n_labels)%Q. by rewrite <- Zlt_Qlt.
    - rewrite Qmult_0_l. change (inject_Z 0 <= inject_Z batch_size)%Q.
      rewrite <- Zle_Qle. lia. }
  assert (Htot : 0 < total) by (subst total; rewrite Hsum; nia).
  split; [done|].
  subst n. unfold WeightedFixedBatchSampler.__len__. rewrite Hnb.
  fold total in Hsum. rewrite <- Hsum. unfold Np.ceil.
  set (x := (inject_Z (Py.len labels) / inject_Z total)%Q).
  assert (Htq : (0 < inject_Z total)%Q)
    by (change (inject_Z 0 < inject_Z total)%Q; by rewrite <- Zlt_Qlt).
  assert (Hx : (x * inject_Z total == inject_Z (Py.len labels))%Q).
  { subst x. field. intros E. rewrite E in Htq. by apply Qlt_irrefl in Htq. }
  pose proof (Qle_ceiling x) as Hc1. pose proof (Qceiling_lt x) as Hc2.
  split.
  - rewrite Zlt_Qlt, inject_Z_mult, <- Hx.
    by apply Qmult_lt_compat_r.
  - rewrite Zle_Qle, inject_Z_mult, <- Hx.
    by apply Qmult_le_compat_r; [|apply Qlt_le_weak].
Qed.

Lemma round_small (x : Q) : (0 <= x)%Q → (x <= 1 # 2)%Q → Np.round x = 0.
Proof.
  intros H0 H1. pose proof (Qfloor_le x) as Hlo. pose proof (Qlt_floor x) as Hhi.
  assert (Hf : Qfloor x = 0).
  { assert (inject_Z (Qfloor x) < inject_Z 1)%Q as Ha
      by (change (inject_Z 1) with 1%Q; lra).
    assert (inject_Z 0 < inject_Z (Qfloor x + 1))%Q as Hb
      by (change (inject_Z 0) with 0%Q; lra).
    rewrite <- Zlt_Qlt in Ha, Hb. lia. }
  unfold Np.round. rewrite Hf.
  destruct (x - inject_Z 0 ?= 1 # 2)%Q eqn:Hcmp; [done|done|].
  qcompare_spec Hcmp. change (inject_Z 0) with 0%Q in Hcmp. exfalso. lra.
Qed.

(** X19. The data loader cannot be built from a dataset without labels
    ([ZeroDivisionError]), nor with a batch size of at most half the number
    of distinct labels: the common quota rounds to 0 and the number of
    batches is infinite ([OverflowError]). The default batch size of 1 fails
    in this way as soon as there are two classes. *)
Theorem data_loader_rejects (iter_set : gset Z → list Z)
    (h : Heap) (labels : list Z) (batch_size : Z)
    (circular_list shuffle : bool) (seed : nat → nat) :
  (labels = [] →
   BalancedDataLoader.__init__ iter_set h labels batch_size circular_list
     shuffle seed
   = Raise ZeroDivisionError)
  ∧ (labels ≠ [] →
     0 ≤ batch_size →
     2 * batch_size ≤ Z.of_nat (size (list_to_set labels : gset Z)) →
     BalancedDataLoader.__init__ iter_set h labels batch_size circular_list
       shuffle seed
     = Raise OverflowError).
Proof.
  split.
  - intros ->. unfold BalancedDataLoader.__init__.
    by destruct (BalancedDataLoader.alloc_all h _) as [h1 locs].
  - intros Hne Hbs Hsmall. unfold BalancedDataLoader.__init__.
    set (n_labels := Z.of_nat (size (list_to_set labels : gset Z))) in *.
    destruct (BalancedDataLoader.alloc_all h _) as [h1 locs].
    assert (Hn : 0 < n_labels).
    { subst n_labels. destruct labels as [|l labels]; [done|].
      assert (size (list_to_set (l :: labels) : gset Z) ≠ 0%nat); [|lia].
      apply size_non_empty_iff. cbn. set_solver. }
    destruct (Z.eqb_spec n_labels 0) as [|_]; [lia|]. cbn.
    assert (Hnq : (0 < inject_Z n_labels)%Q)
      by (change (inject_Z 0 < inject_Z n_labels)%Q; by rewrite <- Zlt_Qlt).
    rewrite round_small.
    + rewrite sum_replicate. by replace (Z.of_nat _ * 0) with 0 by lia.
    + apply Qle_shift_div_l; [done|]. rewrite Qmult_0_l.
      change (inject_Z 0 <= inject_Z batch_size)%Q. by rewrite <- Zle_Qle.
    + apply Qle_shift_div_r; [done|].
      assert (inject_Z (2 * batch_size) <= inject_Z n_labels)%Q as Hle
        by (by rewrite <- Zle_Qle).
      rewrite inject_Z_mult in Hle. change (inject_Z 2) with 2%Q in Hle. lra.
Qed.

Lemma alloc_all_fresh (ls : list (list Z)) : ∀ h : Heap,
  Forall (λ a : loc, a ∉ dom h) (BalancedDataLoader.alloc_all h ls).2.
Proof.
  induction ls as [|l ls IHls]; intros h; cbn; [constructor|].
  pose proof (is_fresh (dom h)) as Hfresh.
  set (a := fresh (dom h)) in *.
  specialize (IHls (<[a:=l]> h)).
  destruct (BalancedDataLoader.alloc_all (<[a:=l]> h) ls) as [h' locs].
  cbn in *. constructor; [done|].
  eapply Forall_impl; [exact IHls|]. intros b Hb. cbn in Hb.
  rewrite dom_insert_L in Hb. set_solver.
Qed.

(** X20. The data loader leaves the lists that already exist as they are:
    the pools of its sampler are new arrays, one for each distinct label in
    the order in which the set of labels is iterated, and the array of a
    label holds the positions of that label. *)
Theorem data_loader_pools (iter_set : gset Z → list Z)
    (h : Heap) (labels : list Z) (batch_size : Z)
    (circular_list shuffle : bool) (seed : nat → nat)
    (s : WeightedFixedBatchSampler.t) (h' : Heap) :
  BalancedDataLoader.__init__ iter_set h labels batch_size circular_list
    shuffle seed
  = Ok (s, h') →
  (∀ a : loc, a ∈ dom h → h' !! a = h !! a)
  ∧ Forall2
      (λ cidx l,
         (pool_of cidx ∉ dom h)
         ∧ h' !! pool_of cidx = Some (BalancedDataLoader.where_eq labels l)
         ∧ cidx = (if circular_list
                   then Circular (CircularList.__init__ h' (pool_of cidx))
                   else PlainList (pool_of cidx)))
      (WeightedFixedBatchSampler.class_idxs s)
      (iter_set (list_to_set labels : gset Z)).
Proof.
  intros Hinit.
  destruct (data_loader_init_inv _ _ _ _ _ _ _ _ _ Hinit)
    as (_ & _ & locs & Halloc & Hs).
  destruct (init_inv _ _ _ _ _ _ _ _ Hs) as (_&_&_&_&_&_& Hpools & _).
  pose proof (alloc_all_spec
    ((λ l, BalancedDataLoader.where_eq labels l)
       <$> iter_set (list_to_set labels : gset Z)) h) as [Hkeep Hlocs].
  pose proof (alloc_all_fresh
    ((λ l, BalancedDataLoader.where_eq labels l)
       <$> iter_set (list_to_set labels : gset Z)) h) as Hfresh.
  rewrite Halloc in Hkeep, Hlocs, Hfresh. cbn in Hkeep, Hlocs, Hfresh.
  split; [done|]. rewrite Hpools.
  rewrite Forall2_fmap_r in Hlocs.
  assert (Hboth : Forall2 (λ (a : loc) l,
                    (a ∉ dom h)
                    ∧ h' !! a = Some (BalancedDataLoader.where_eq labels l))
                    locs (iter_set (list_to_set labels : gset Z))).
  { clear -Hlocs Hfresh. induction Hlocs as [|a l locs ls Ha _ IH];
      [constructor|].
    apply Forall_cons in Hfresh as [Hf Hfresh]. constructor; [done|].
    by apply IH. }
  destruct circular_list; rewrite Forall2_fmap_l;
    (eapply Forall2_impl; [exact Hboth|]); by intros a l [? ?].
Qed.

Lemma label_count_all (labels : list Z) (l : Z) (chunk : list Z) :
  Forall (λ i, i ∈ BalancedDataLoader.where_eq labels l) chunk →
  ∀ l' : Z,
    label_count labels l' chunk = if decide (l' = l) then length chunk else O.
Proof.
  intros Hall l'. unfold label_count.
  induction Hall as [|i chunk Hi _ IH]; [by destruct (decide _)|].
  apply elem_of_where_eq in Hi as (k & -> & Hk).
  destruct (decide (l' = l)) as [->|Hne].
  - rewrite filter_cons_True by (by rewrite Nat2Z.id). cbn. by rewrite IH.
  - rewrite filter_cons_False; [done|]. rewrite Nat2Z.id, Hk. congruence.
Qed.

Lemma label_count_chunks (labels : list Z) (m : nat) (l : Z) :
  ∀ (chunks : list (list Z)) (ls : list Z),
    NoDup ls →
    Forall2 (λ chunk l',
               length chunk = m
               ∧ Forall (λ i, i ∈ BalancedDataLoader.where_eq labels l') chunk)
      chunks ls →
    label_count labels l (concat chunks) = if decide (l ∈ ls) then m else O.
Proof.
  intros chunks ls Hnd Hall. revert Hnd.
  induction Hall as [|chunk l' chunks ls [Hlen Hin] _ IH]; intros Hnd.
  - by rewrite decide_False by apply not_elem_of_nil.
  - apply NoDup_cons in Hnd as [Hl' Hnd]. specialize (IH Hnd).
    unfold label_count in *. cbn [concat]. rewrite filter_app, length_app.
    pose proof (label_count_all labels l' chunk Hin l) as Hc.
    unfold label_count in Hc. rewrite Hc, IH.
    destruct (decide (l = l')) as [->|Hne].
    + rewrite (decide_False (P := l' ∈ ls)) by done.
      rewrite decide_True by left. lia.
    + destruct (decide (l ∈ ls)) as [Hl|Hl].
      * rewrite decide_True by (by right). lia.
      * rewrite decide_False; [lia|]. by intros [?|?]%elem_of_cons.
Qed.

Lemma zip_replicate_r {A B} (l : list A) (n : nat) (y : B) :
  length l = n → zip l (replicate n y) = (λ x, (x, y)) <$> l.
Proof.
  intros <-. induction l as [|x l IH]; [done|]. cbn. by rewrite IH.
Qed.

(** X21. The batches that the data loader drives are balanced: with circular
    pools and a positive requested batch size, in whatever order the set of
    labels is iterated, every batch of every pass holds exactly
    [round(batch_size / n_labels)] positions of each label of the dataset,
    and nothing but positions of the dataset. *)
Theorem data_loader_balanced_batches (iter_set : gset Z → list Z)
    (h : Heap) (labels : list Z)
    (batch_size : Z) (shuffle : bool) (seed : nat → nat)
    (s : WeightedFixedBatchSampler.t) (h' : Heap) (k : nat) :
  BalancedDataLoader.__init__ iter_set h labels batch_size true shuffle seed
  = Ok (s, h') →
  0 < batch_size →
  set_iteration iter_set →
  let n_labels := Z.of_nat (size (list_to_set labels : gset Z)) in
  let q := Np.round (inject_Z batch_size / inject_Z n_labels) in
  let p := WeightedFixedBatchSampler.__iter__
             (passes k s h').1 (passes k s h').2 in
  raised p = None
  ∧ Forall
      (λ batch,
         Forall (λ i, 0 ≤ i < Py.len labels) batch
         ∧ ∀ l : Z, l ∈ labels → Z.of_nat (label_count labels l batch) = q)
      (yielded p).
Proof.
  intros Hinit Hbs Hiter n_labels q p.
  destruct (data_loader_init_inv _ _ _ _ _ _ _ _ _ Hinit)
    as (Hn0 & Hnq & locs & Halloc & Hs).
  fold n_labels q in Hn0, Hnq, Hs.
  pose proof (alloc_all_spec
    ((λ l, BalancedDataLoader.where_eq labels l)
       <$> iter_set (list_to_set labels : gset Z)) h) as [_ Hlocs].
  rewrite Halloc in Hlocs. cbn in Hlocs. rewrite Forall2_fmap_r in Hlocs.
  destruct (init_inv _ _ _ _ _ _ _ _ Hs)
    as (Hq & _ & Hnc & _ & Hlen & Hlen' & Hpools & _).
  rewrite length_replicate in Hlen, Hlen'.
  assert (Hq0 : 0 < q).
  { assert (0 ≤ q); [|lia]. apply round_nonneg. apply Qle_shift_div_l.
    - change (inject_Z 0 < inject_Z n_labels)%Q. by rewrite <- Zlt_Qlt.
    - rewrite Qmult_0_l. change (inject_Z 0 <= inject_Z batch_size)%Q.
      rewrite <- Zle_Qle. lia. }
  assert (Hinv : circular_pools h' s).
  { unfold circular_pools. rewrite Hq, Hnc, Hpools, length_fmap.
    rewrite length_replicate. split; [done|]. split; [done|].
    apply Forall_fmap.
    eapply Forall2_Forall_l; [exact Hlocs|]. apply Forall_forall.
    intros l Hl a Ha. exists (CircularList.__init__ h' a).
    split; [done|]. split; [done|]. cbn. apply len_pos_nonempty.
    rewrite (lookup_total_correct _ _ _ Ha). apply where_eq_nonempty.
    by apply (set_iteration_elem_of iter_set labels l Hiter). }
  destruct (passes_composed h' k s h' (heap_perm_refl h') Hinv)
    as (Hinv_k & Hcfg_k & Hp_k).
  destruct (iter_composed h' _ _ Hp_k Hinv_k) as (Hr & _ & Hall & _).
  fold p in Hr, Hall. split; [done|].
  destruct Hcfg_k as (Hq_k & Hc_k & _).
  eapply Forall_impl; [exact Hall|].
  intros batch (chunks & Hperm & Hchunks).
  rewrite Hq_k, Hc_k, Hq, Hpools in Hchunks.
  rewrite zip_fmap_fst, (zip_replicate_r locs) in Hchunks by done.
  rewrite !Forall2_fmap_r in Hchunks.
  assert (Hshape :
    Forall2 (λ chunk l,
               length chunk = Z.to_nat q
               ∧ Forall (λ i, i ∈ BalancedDataLoader.where_eq labels l) chunk)
      chunks (iter_set (list_to_set labels : gset Z))).
  { eapply Forall2_trans; [|exact Hchunks|exact Hlocs].
    intros chunk a l [Hclen Hcin] Ha. cbn in Hclen, Hcin.
    rewrite (lookup_total_correct _ _ _ Ha) in Hcin.
    split; [unfold Py.len in Hclen; lia|done]. }
  split.
  - rewrite Hperm. apply Forall_forall. intros i Hi.
    apply elem_of_concat in Hi as (chunk & Hchunk & Hi).
    apply list_elem_of_lookup in Hchunk as [c Hc].
    destruct (Forall2_lookup_l _ _ _ _ _ Hshape Hc) as (l & _ & _ & Hin).
    rewrite Forall_forall in Hin. specialize (Hin i Hi).
    apply elem_of_where_eq in Hin as (j & -> & Hj).
    apply lookup_lt_Some in Hj. unfold Py.len. lia.
  - intros l Hl. unfold label_count. rewrite Hperm.
    fold (label_count labels l (concat chunks)).
    rewrite (label_count_chunks labels (Z.to_nat q) l chunks _
               (set_iteration_NoDup iter_set _ Hiter) Hshape).
    rewrite decide_True
      by (by apply (set_iteration_elem_of iter_set labels l Hiter)).
    lia.
Qed.

(** ** Instances of the further properties *)

(** The reads [pool[0:1]] and [pool[1:3]] of the pool [[5, 7]]. *)
Lemma circular_reads_compose_witness :
  ∃ x y : list Z,
    CircularList.__getitem__slice (CircularList.__init__ pool57 0) pool57 0 1
    = Ok x
    ∧ CircularList.__getitem__slice (CircularList.__init__ pool57 0) pool57 1 3
      = Ok y
    ∧ CircularList.__getitem__slice (CircularList.__init__ pool57 0) pool57 0 3
      = Ok (x ++ y).
Proof.
  apply (circular_reads_compose pool57 (CircularList.__init__ pool57 0) 0 1 3).
  - reflexivity.
  - vm_compute. discriminate.
  - lia.
  - lia.
Defined.

(** Key 1 of the pool [[5, 7]], shifted by three lengths. *)
Lemma circular_periodic_witness :
  CircularList.__getitem__ (CircularList.__init__ pool57 0) pool57
    (1 + 3 * Py.len (pool57 !!! 0%nat))
  = CircularList.__getitem__ (CircularList.__init__ pool57 0) pool57 1.
Proof.
  destruct (circular_periodic pool57 (CircularList.__init__ pool57 0) 1 0 2 3)
    as [Hkey _].
  - reflexivity.
  - vm_compute. discriminate.
  - exact Hkey.
Defined.

(** Two batches of one index over the pool [[5, 7]]. *)
Lemma circular_epoch_coverage_witness :
  ∃ (chunks : list (list Z)) (whole : list Z),
    mapM (λ b, CircularList.__getitem__slice (CircularList.__init__ pool57 0)
                 pool57 (b * 1) (b * 1 + 1))
      (Py.range 0 (Z.of_nat 2))
    = Ok chunks
    ∧ CircularList.__getitem__slice (CircularList.__init__ pool57 0) pool57 0
        (Z.of_nat 2 * 1)
      = Ok whole
    ∧ concat chunks = whole
    ∧ (Z.of_nat 2 * 1 = Py.len (pool57 !!! 0%nat) → whole = pool57 !!! 0%nat).
Proof.
  apply (circular_epoch_coverage pool57 (CircularList.__init__ pool57 0) 1 2).
  - reflexivity.
  - vm_compute. discriminate.
  - lia.
Defined.

(** A shuffle of the pool [[5, 7]]. *)
Lemma circular_shuffle_in_place_witness :
  (CircularList.shuffle (CircularList.__init__ pool57 0) (Rng.make zero_seed)
     pool57).1 !!! 0%nat
  ≡ₚ pool57 !!! 0%nat.
Proof.
  destruct (circular_shuffle_in_place pool57 (CircularList.__init__ pool57 0)
              (Rng.make zero_seed)) as [Hperm _].
  - reflexivity.
  - exact Hperm.
Defined.

(** The caller's list [[5, 7]] with a shuffle policy. *)
Lemma noncircular_shuffle_fails_witness :
  ∃ s : WeightedFixedBatchSampler.t,
    WeightedFixedBatchSampler.__init__ pool57 [1] [0%nat] 1 false true
      zero_seed = Ok s
    ∧ raised (WeightedFixedBatchSampler.__iter__ s pool57)
      = Some AttributeError.
Proof.
  eexists. split; [reflexivity|].
  destruct (noncircular_shuffle_fails pool57 [1] [0%nat] 1 zero_seed _ eq_refl)
    as [Hr _].
  - discriminate.
  - exact Hr.
Defined.

(** One index per batch from a class without samples. *)
Lemma circular_empty_class_fails_witness :
  ∃ s : WeightedFixedBatchSampler.t,
    WeightedFixedBatchSampler.__init__ empty_class [1] [0%nat] 1 true false
      zero_seed = Ok s
    ∧ raised (WeightedFixedBatchSampler.__iter__ s empty_class)
      = Some ZeroDivisionError.
Proof.
  eexists. split; [reflexivity|].
  destruct (circular_empty_class_fails empty_class [1] [0%nat] 1 false
              zero_seed _ 0%nat 0%nat 1 eq_refl) as [Hr _].
  - reflexivity.
  - reflexivity.
  - reflexivity.
  - lia.
  - lia.
  - exact Hr.
Defined.

(** The second pass of a shuffling sampler over the pool [[5, 7]]. *)
Lemma circular_batch_composition_witness :
  ∃ s : WeightedFixedBatchSampler.t,
    WeightedFixedBatchSampler.__init__ pool57 [5] [0%nat] 2 true true
      zero_seed = Ok s
    ∧ let p := WeightedFixedBatchSampler.__iter__
                 (passes 1 s pool57).1 (passes 1 s pool57).2 in
      raised p = None ∧ length (yielded p) = Z.to_nat 2.
Proof.
  eexists. split; [reflexivity|].
  destruct (circular_batch_composition pool57 [5] [0%nat] 2 true zero_seed
              _ 1 eq_refl) as (Hr & Hlen & _).
  - repeat constructor. vm_compute. discriminate.
  - split; [exact Hr|exact Hlen].
Defined.

(** Two batches of one index over the caller's list [[5, 7]]. *)
Lemma plain_epoch_coverage_witness :
  ∃ chunks : list (list Z),
    mapM (λ b, ClassIdx.getitem_slice (PlainList 0%nat) pool57
                 (b * 1) (b * 1 + 1))
      (Py.range 0 (Z.of_nat 2))
    = Ok chunks
    ∧ concat chunks = take (Z.to_nat (Z.of_nat 2 * 1)) (pool57 !!! 0%nat)
    ∧ (Py.len (pool57 !!! 0%nat) ≤ Z.of_nat 2 * 1
       → concat chunks = pool57 !!! 0%nat).
Proof.
  apply (plain_epoch_coverage pool57 0%nat 1 2). lia.
Defined.

(** Three classes of weight 1/3 and a batch size of 10. *)
Lemma fix_batches_accuracy_witness :
  ∃ (quota : list Z) (k : nat),
    SamplerFactory._fix_batches [1 # 3; 1 # 3; 1 # 3]%Q [1; 1; 1] 10 1
    = Ok quota
    ∧ Np.argmax ((λ w, Np.round (w * inject_Z 10))
                   <$> [1 # 3; 1 # 3; 1 # 3]%Q) = Ok k.
Proof.
  destruct (fix_batches_accuracy [1 # 3; 1 # 3; 1 # 3]%Q [1; 1; 1] 10 1)
    as (quota & k & Hq & Hk & _).
  - reflexivity.
  - exists quota, k. split; assumption.
Defined.

(** The same weights: the quotas are counts. *)
Lemma fix_batches_quota_sign_witness :
  ∃ quota : list Z,
    SamplerFactory._fix_batches [1 # 3; 1 # 3; 1 # 3]%Q [1; 1; 1] 10 1
    = Ok quota
    ∧ Forall (λ q, 0 ≤ q) quota.
Proof.
  destruct (fix_batches_quota_sign [1 # 3; 1 # 3; 1 # 3]%Q [1; 1; 1] 10 1)
    as (quota & k & Hq & _ & _ & Hall).
  - repeat constructor; unfold Qle; cbn; lia.
  - reflexivity.
  - lia.
  - exists quota. split; [exact Hq|]. apply Hall. vm_compute. discriminate.
Defined.

(** An unknown kind, an empty partition, and [alpha = 2]. *)
Lemma factory_rejects_witness :
  SamplerFactory.get three_and_seven [0; 1]%nat 4 2 (1 # 2) "svm" first_two
  = Raise (Exception
             ("Received kind " +:+ "svm" +:+ ", must be `random` or `fixed`"))
  ∧ SamplerFactory.get three_and_seven [] 4 2 (1 # 2) "fixed" first_two
    = Raise ZeroDivisionError
  ∧ SamplerFactory.get three_and_seven [0; 1]%nat 4 2 2 "random" first_two
    = Raise AssertionError.
Proof.
  split; [|split].
  - apply (proj1 (factory_rejects three_and_seven [0; 1]%nat 4 2 (1 # 2)
                    "svm" first_two)); discriminate.
  - apply (proj1 (proj2 (factory_rejects three_and_seven [] 4 2 (1 # 2)
                           "fixed" first_two))).
    + right. reflexivity.
    + reflexivity.
  - apply (proj2 (proj2 (factory_rejects three_and_seven [0; 1]%nat 4 2 2
                           "random" first_two))).
    + left. reflexivity.
    + discriminate.
    + intros [_ Hle]. vm_compute in Hle. apply Hle. reflexivity.
Defined.

(** Classes of sizes 3 and 7, batches of 4, blended half-way. *)
Lemma factory_fixed_succeeds_witness :
  ∃ s : WeightedFixedBatchSampler.t,
    SamplerFactory.fixed three_and_seven [0; 1]%nat 4 2 (1 # 2) = Ok s
    ∧ WeightedFixedBatchSampler.batch_size s = 4
    ∧ WeightedFixedBatchSampler.__len__ s = 2.
Proof.
  destruct (factory_fixed_succeeds three_and_seven [0; 1]%nat 4 2 (1 # 2))
    as (s & Hs & Hbs & Hlen & _).
  - discriminate.
  - repeat constructor; vm_compute; discriminate.
  - unfold Qle; cbn; lia.
  - unfold Qle; cbn; lia.
  - exists s. split; [exact Hs|]. split; [exact Hbs|exact Hlen].
Defined.

(** The same request through [get]. *)
Lemma factory_get_kind_and_length_witness :
  ∃ s : Sampler,
    SamplerFactory.get three_and_seven [0; 1]%nat 4 2 (1 # 2) "fixed"
      first_two = Ok s
    ∧ sampler_len s = 2.
Proof.
  eexists. split; [vm_compute; reflexivity|].
  exact (proj1 (factory_get_kind_and_length three_and_seven [0; 1]%nat 4 2
                  (1 # 2) "fixed" first_two _ eq_refl)).
Defined.

(** The second pass of the sampler of the same request. *)
Lemma factory_fixed_full_batches_witness :
  ∃ s : WeightedFixedBatchSampler.t,
    SamplerFactory.fixed three_and_seven [0; 1]%nat 4 2 (1 # 2) = Ok s
    ∧ let p := WeightedFixedBatchSampler.__iter__
                 (passes 1 s three_and_seven).1 (passes 1 s three_and_seven).2
      in
      raised p = None
      ∧ Py.len (yielded p) = 2
      ∧ Forall (λ batch, Py.len batch = 4) (yielded p).
Proof.
  apply (factory_fixed_full_batches three_and_seven [0; 1]%nat 4 2 (1 # 2) 1).
  - discriminate.
  - repeat constructor; vm_compute; discriminate.
  - unfold Qle; cbn; lia.
  - unfold Qle; cbn; lia.
  - lia.
  - vm_compute. discriminate.
Defined.

(** The random sampler of the same request. *)
Lemma factory_random_weights_witness :
  ∃ r : WeightedRandomBatchSampler.t,
    SamplerFactory.random three_and_seven [0; 1]%nat 4 2 (1 # 2) first_two
    = Ok r
    ∧ WeightedRandomBatchSampler.sample_idxs r
      = concat ((λ idx, three_and_seven !!! idx) <$> [0; 1]%nat)
    ∧ (Np.qsum (WeightedRandomBatchSampler.sample_weights r) == 1)%Q.
Proof.
  destruct (factory_random_weights three_and_seven [0; 1]%nat 4 2 (1 # 2)
              first_two) as (r & Hr & Hidx & _ & Hsum & _).
  - discriminate.
  - repeat constructor; vm_compute; discriminate.
  - unfold Qle; cbn; lia.
  - unfold Qle; cbn; lia.
  - lia.
  - exists r. split; [exact Hr|]. split; [exact Hidx|exact Hsum].
Defined.

(** A pass of the random sampler over [[5, 7]]. *)
Lemma random_pass_batches_witness :
  let p := WeightedRandomBatchSampler.__iter__ random57 pool57 in
  raised p = None ∧ length (yielded p) = Z.to_nat 3 ∧ heap_after p = pool57.
Proof.
  destruct (random_pass_batches random57 pool57) as (Hr & Hlen & _ & Hh & _).
  - intros k. exists [0; 1]. split; [reflexivity|]. split; [reflexivity|].
    repeat constructor; vm_compute; discriminate.
  - split; [exact Hr|]. split; [exact Hlen|exact Hh].
Defined.

(** The positions of label 0 in the labels [[0, 0, 0, 1, 1]]. *)
Lemma data_loader_classes_partition_witness :
  NoDup (BalancedDataLoader.where_eq [0; 0; 0; 1; 1] 0).
Proof.
  exact (proj1 (proj2 (data_loader_classes_partition [0; 0; 0; 1; 1])) 0).
Defined.

(** Labels [[0, 0, 0, 1, 1]] and a requested batch size of 5. *)
Lemma data_loader_epoch_covers_witness :
  ∃ (s : WeightedFixedBatchSampler.t) (h' : Heap),
    BalancedDataLoader.__init__ ascending ∅ [0; 0; 0; 1; 1] 5 true false zero_seed
    = Ok (s, h')
    ∧ Py.len [0; 0; 0; 1; 1]
      ≤ WeightedFixedBatchSampler.__len__ s
        * WeightedFixedBatchSampler.batch_size s.
Proof.
  eexists _, _. split; [vm_compute; reflexivity|].
  destruct (data_loader_epoch_covers ascending ∅ [0; 0; 0; 1; 1] 5 true false
              zero_seed _ _ eq_refl) as (_ & _ & Hle).
  - lia.
  - exact Hle.
Defined.

(** No labels; and two labels with the default batch size of 1. *)
Lemma data_loader_rejects_witness :
  BalancedDataLoader.__init__ ascending ∅ [] 1 true false zero_seed
  = Raise ZeroDivisionError
  ∧ BalancedDataLoader.__init__ ascending ∅ [0; 1] 1 true false zero_seed
    = Raise OverflowError.
Proof.
  split.
  - apply (proj1 (data_loader_rejects ascending ∅ [] 1 true false zero_seed)).
    reflexivity.
  - apply (proj2 (data_loader_rejects ascending ∅ [0; 1] 1 true false zero_seed)).
    + discriminate.
    + lia.
    + vm_compute. discriminate.
Defined.

(** The pools of the data loader on the labels [[0, 0, 0, 1, 1]]. *)
Lemma data_loader_pools_witness :
  ∃ (s : WeightedFixedBatchSampler.t) (h' : Heap),
    BalancedDataLoader.__init__ ascending ∅ [0; 0; 0; 1; 1] 5 true false zero_seed
    = Ok (s, h')
    ∧ Forall2
        (λ cidx l,
           h' !! pool_of cidx
           = Some (BalancedDataLoader.where_eq [0; 0; 0; 1; 1] l))
        (WeightedFixedBatchSampler.class_idxs s)
        (ascending (list_to_set [0; 0; 0; 1; 1] : gset Z)).
Proof.
  eexists _, _. split; [vm_compute; reflexivity|].
  destruct (data_loader_pools ascending ∅ [0; 0; 0; 1; 1] 5 true false zero_seed _ _
              eq_refl) as [_ Hall].
  eapply Forall2_impl; [exact Hall|].
  intros cidx l (_ & Hl & _). exact Hl.
Defined.

(** On these labels, iterated as [0, 1]: pool 0 holds the positions of
    label 0 and pool 1 those of label 1. *)
Example data_loader_pools_in_order :
  ∃ (s : WeightedFixedBatchSampler.t) (h' : Heap),
    BalancedDataLoader.__init__ ascending ∅ [0; 0; 0; 1; 1] 5 true false
      zero_seed
    = Ok (s, h')
    ∧ ascending (list_to_set [0; 0; 0; 1; 1]) = [0; 1]
    ∧ pool_of <$> WeightedFixedBatchSampler.class_idxs s = [0; 1]%nat
    ∧ h' !! 0%nat = Some [0; 1; 2]
    ∧ h' !! 1%nat = Some [3; 4].
Proof.
  eexists _, _. split; [vm_compute; reflexivity|].
  repeat split; vm_compute; reflexivity.
Qed.

(** The second pass of the data loader's sampler on the same labels. *)
Lemma data_loader_balanced_batches_witness :
  ∃ (s : WeightedFixedBatchSampler.t) (h' : Heap),
    BalancedDataLoader.__init__ ascending ∅ [0; 0; 0; 1; 1] 5 true false zero_seed
    = Ok (s, h')
    ∧ raised (WeightedFixedBatchSampler.__iter__
                (passes 1 s h').1 (passes 1 s h').2) = None.
Proof.
  eexists _, _. split; [vm_compute; reflexivity|].
  destruct (data_loader_balanced_batches ascending ∅ [0; 0; 0; 1; 1] 5 false
              zero_seed _ _ 1 eq_refl) as [Hr _].
  - lia.
  - exact ascending_iteration.
  - exact Hr.
Defined.
